(** * The Marketplace listing scraper: a shallow embedding and its properties

    The program is a TypeScript command-line tool.  It exists in two
    revisions: [product-scraper.ts], which takes its URLs from the command
    line, and the later command-line tool with [--input]/[--output]
    options, an input-file reader, a summary with price statistics and a
    time-stamped output directory.  Both share [scrapeProducts],
    [extractProductInfo] and the CSV writer; they differ in a few console
    lines, in [displayProducts] and in [main].

    Everything the program does not define itself is an input of the
    model: the outcome of each browser and model call, the value of
    [Math.random()], [JSON.parse], [path.join], the file system and the
    clock. *)

From Stdlib Require Import List String Ascii Bool Arith ZArith Lia.
From Stdlib Require Import Sorted.
Import ListNotations.

Set Warnings "-register-all".

#[local] Open Scope nat_scope.
#[local] Open Scope string_scope.
#[local] Open Scope list_scope.

(** ** Strings

    A JavaScript string is modelled by a [string] of 8-bit code units. *)

Module Str.

Definition dquote : ascii := "034"%char.
Definition newline : ascii := "010"%char.

Definition isEmpty (s : string) : bool :=
  match s with EmptyString => true | String _ _ => false end.

(** [s.startsWith(p)] *)
Definition startsWith (p s : string) : bool := String.prefix p s.

(** The code units that [String.prototype.trim] removes, in the 8-bit
    range: TAB, LF, VT, FF, CR, SP and NBSP. *)
Definition isWhiteSpace (c : ascii) : bool :=
  let n := nat_of_ascii c in
  ((9 <=? n)%nat && (n <=? 13)%nat) || (n =? 32)%nat || (n =? 160)%nat.

Fixpoint trimStart (s : string) : string :=
  match s with
  | EmptyString => EmptyString
  | String c t => if isWhiteSpace c then trimStart t else s
  end.

(** Removes trailing white space: a character is kept when it is not
    white space or when something is kept after it. *)
Fixpoint trimEnd (s : string) : string :=
  match s with
  | EmptyString => EmptyString
  | String c t =>
      match trimEnd t with
      | EmptyString => if isWhiteSpace c then EmptyString else String c EmptyString
      | t' => String c t'
      end
  end.

(** [s.trim()] *)
Definition trim (s : string) : string := trimEnd (trimStart s).

(** [s.split(sep)] for a one-character separator: the pieces between
    the separators, so always at least one piece. *)
Fixpoint split (sep : ascii) (s : string) : list string :=
  match s with
  | EmptyString => [EmptyString]
  | String c t =>
      if Ascii.eqb c sep then EmptyString :: split sep t
      else match split sep t with
           | [] => [String c EmptyString]
           | piece :: pieces => String c piece :: pieces
           end
  end.

(** [pieces.join(sep)] *)
Fixpoint join (sep : string) (pieces : list string) : string :=
  match pieces with
  | [] => EmptyString
  | [p] => p
  | p :: rest => (p ++ sep ++ join sep rest)%string
  end.

(** [s.replace(/c/g, r)]: every occurrence of the character [c] is
    replaced by the string [r]. *)
Fixpoint replaceAll (c : ascii) (r : string) (s : string) : string :=
  match s with
  | EmptyString => EmptyString
  | String d t =>
      if Ascii.eqb d c then (r ++ replaceAll c r t)%string
      else String d (replaceAll c r t)
  end.

(** [s.replace(/[^...]/g, '')]: the characters that satisfy [keep]. *)
Fixpoint keepOnly (keep : ascii -> bool) (s : string) : string :=
  match s with
  | EmptyString => EmptyString
  | String d t => if keep d then String d (keepOnly keep t) else keepOnly keep t
  end.

(** [s.includes(t)] as a proposition. *)
Definition includes (t s : string) : Prop :=
  exists before after, s = (before ++ t ++ after)%string.

End Str.

(** ** JavaScript values

    What can be thrown, and what [JSON.parse] can return: the primitive
    values, arrays, plain objects (a list of own properties, looked up
    from the front, with [Object.prototype] behind them) and instances
    of [Error] with their [name] and [message], both strings as the
    [Error] constructor makes them.  No value of the model is a
    function: an own property is never callable.  Symbols, accessors and
    objects without a prototype are not modelled.

    The program never computes with a number it finds in such a value;
    it tests it and converts it to a string.  A finite number other than
    zero is therefore carried by the text [Number::toString] gives for
    it. *)

Inductive JsNum : Type :=
| NumNaN
| NumInfinity (negative : bool)
| NumZero
| NumFinite (text : string).

Inductive JsValue : Type :=
| JsUndefined
| JsNull
| JsBoolean (b : bool)
| JsNumber (n : JsNum)
| JsString (s : string)
| JsArray (elements : list JsValue)
| JsObject (properties : list (string * JsValue))
| JsError (name message : string).

(** How a call ends: normally with a value, or by throwing. *)
Inductive Completion (A : Type) : Type :=
| Normal (a : A)
| Throw (e : JsValue).

Arguments Normal {A} a.
Arguments Throw {A} e.

Module Js.

(** [Number::toString] *)
Definition numberToString (n : JsNum) : string :=
  match n with
  | NumNaN => "NaN"
  | NumInfinity false => "Infinity"
  | NumInfinity true => "-Infinity"
  | NumZero => "0"
  | NumFinite text => text
  end.

(** [Error.prototype.toString] *)
Definition errorToString (name message : string) : string :=
  if Str.isEmpty name then message
  else if Str.isEmpty message then name
  else (name ++ ": " ++ message)%string.

Fixpoint assoc (key : string) (properties : list (string * JsValue))
  : option JsValue :=
  match properties with
  | [] => None
  | (k, v) :: rest => if String.eqb k key then Some v else assoc key rest
  end.

(** The error object of a failed operation. *)
Definition typeError (message : string) : JsValue := JsError "TypeError" message.

Definition cannotConvert : JsValue :=
  typeError "Cannot convert object to primitive value".

(** [String(v)].  An array joins its elements with commas, [null] and
    [undefined] elements giving the empty string.  A plain object
    answers with the text of [Object.prototype.toString], unless it has
    a [toString] property of its own: that property is not callable, and
    neither an own [valueOf] nor the inherited one gives a primitive
    value, so the conversion throws a [TypeError]. *)
Fixpoint stringOf (v : JsValue) : Completion string :=
  match v with
  | JsUndefined => Normal "undefined"
  | JsNull => Normal "null"
  | JsBoolean true => Normal "true"
  | JsBoolean false => Normal "false"
  | JsNumber n => Normal (numberToString n)
  | JsString s => Normal s
  | JsArray elements =>
      match
        (fix pieces (l : list JsValue) : Completion (list string) :=
           match l with
           | [] => Normal []
           | e :: rest =>
               match
                 match e with
                 | JsUndefined | JsNull => Normal EmptyString
                 | _ => stringOf e
                 end
               with
               | Throw t => Throw t
               | Normal piece =>
                   match pieces rest with
                   | Throw t => Throw t
                   | Normal more => Normal (piece :: more)
                   end
               end
           end) elements
      with
      | Throw t => Throw t
      | Normal all => Normal (Str.join "," all)
      end
  | JsObject properties =>
      match assoc "toString" properties with
      | Some _ => Throw cannotConvert
      | None => Normal "[object Object]"
      end
  | JsError name message => Normal (errorToString name message)
  end.

(** The text of a value for a console line: [String(v)] where that
    returns.  It is used for the values the browser, the file system and
    the parser throw, which are instances of [Error]. *)
Fixpoint toString (v : JsValue) : string :=
  match v with
  | JsUndefined => "undefined"
  | JsNull => "null"
  | JsBoolean true => "true"
  | JsBoolean false => "false"
  | JsNumber n => numberToString n
  | JsString s => s
  | JsArray elements =>
      Str.join ","
        (List.map (fun e => match e with
                            | JsUndefined | JsNull => EmptyString
                            | _ => toString e
                            end) elements)
  | JsObject _ => "[object Object]"
  | JsError name message => errorToString name message
  end.

(** [typeof v === "string"] *)
Definition isString (v : JsValue) : bool :=
  match v with JsString _ => true | _ => false end.

(** [typeof v === "object"]: true of [null], arrays, objects, errors. *)
Definition isObject (v : JsValue) : bool :=
  match v with
  | JsNull | JsArray _ | JsObject _ | JsError _ _ => true
  | _ => false
  end.

(** [v instanceof Error] *)
Definition instanceofError (v : JsValue) : bool :=
  match v with JsError _ _ => true | _ => false end.

(** [Array.isArray(v)] *)
Definition isArray (v : JsValue) : bool :=
  match v with JsArray _ => true | _ => false end.

(** Truthiness, as tested by [if], [&&], [||] and [?:]. *)
Definition truthy (v : JsValue) : bool :=
  match v with
  | JsUndefined | JsNull => false
  | JsBoolean b => b
  | JsNumber NumNaN | JsNumber NumZero => false
  | JsNumber (NumFinite _) | JsNumber (NumInfinity _) => true
  | JsString s => negb (Str.isEmpty s)
  | JsArray _ | JsObject _ | JsError _ _ => true
  end.

(** The properties an [Error] instance answers to. *)
Definition errorProperties (name message : string) : list (string * JsValue) :=
  [("name", JsString name); ("message", JsString message)].

(** [key in v], for [v] an object and [key] one of the two names the
    program asks for, [message] and [urls]; no built-in prototype of an
    array or a plain object defines either. *)
Definition hasProperty (key : string) (v : JsValue) : bool :=
  match v with
  | JsObject properties =>
      match assoc key properties with Some _ => true | None => false end
  | JsError name message =>
      match assoc key (errorProperties name message) with
      | Some _ => true
      | None => false
      end
  | _ => false
  end.

(** [v.key], for [key] one of [message] and [urls].  Reading a property
    of [null] or [undefined] throws a [TypeError]: the result is [None].
    A property that is absent reads as [undefined]. *)
Definition getProperty (key : string) (v : JsValue) : option JsValue :=
  match v with
  | JsUndefined | JsNull => None
  | JsObject properties =>
      Some (match assoc key properties with Some x => x | None => JsUndefined end)
  | JsError name message =>
      Some (match assoc key (errorProperties name message) with
            | Some x => x
            | None => JsUndefined
            end)
  | JsArray _ | JsString _ | JsBoolean _ | JsNumber _ => Some JsUndefined
  end.

End Js.

(** ** Completions, events and the effect monad *)

(** ** Doubles

    The numbers the program computes with are never negative: the values
    of [Math.random] and the prices.  A finite non-negative double is a
    whole number of units of [2^-1074] whose binary numeral has at most
    53 significant bits.  The model carries that whole number. *)

Module Double.

#[local] Open Scope Z_scope.

(** The double 1, in units. *)
Definition one : Z := 2 ^ 1074.

(** The weight of the last kept bit of a numeral with value [p]. *)
Definition exponentOf (p : Z) : Z := Z.max 0 (Z.log2 p - 52).

Definition representable (m : Z) : bool :=
  (0 <=? m) && (m mod 2 ^ exponentOf m =? 0).

(** Rounding to the nearest double, ties to the even one. *)
Definition round (p : Z) : Z :=
  let e := exponentOf p in
  let q := p / 2 ^ e in
  let r := p mod 2 ^ e in
  if 2 * r <? 2 ^ e then q * 2 ^ e
  else if 2 ^ e <? 2 * r then (q + 1) * 2 ^ e
  else if Z.even q then q * 2 ^ e
  else (q + 1) * 2 ^ e.

(** [x * k] for a double [x] and a small whole number [k]: the exact
    product, rounded. *)
Definition mul (x k : Z) : Z := round (x * k).

(** [Math.floor(x)], a whole number. *)
Definition floor (x : Z) : Z := x / one.

(** What [Math.random()] may return: a double [x] with [0 <= x < 1]. *)
Definition isRandom (x : Z) : Prop :=
  representable x = true /\ 0 <= x < one.

(** The double [n / 2^k]. *)
Definition dyadic (n k : Z) : Z := n * 2 ^ (1074 - k).

(** The double nearest to the fraction [a / b] of a unit, ties to the
    even one; [a / b] has the binary exponent of its whole part. *)
Definition roundRatio (a b : Z) : Z :=
  let e := exponentOf (a / b) in
  let d := b * 2 ^ e in
  let q := a / d in
  let r := a mod d in
  if 2 * r <? d then q * 2 ^ e
  else if d <? 2 * r then (q + 1) * 2 ^ e
  else if Z.even q then q * 2 ^ e
  else (q + 1) * 2 ^ e.

(** A number that is not negative and not [NaN]. *)
Inductive Number : Type :=
| Finite (units : Z)
| Infinity.

(** [2^1024] in units: a rounded result that reaches it overflows. *)
Definition overflow : Z := 2 ^ 2098.

Definition ofUnits (x : Z) : Number :=
  if x <? overflow then Finite x else Infinity.

(** The whole number [z], for [0 <= z < 2^53]. *)
Definition whole (z : Z) : Number := Finite (z * one).

(** The number a decimal numeral denotes: [digits / 10^places], rounded
    to the nearest double. *)
Definition ofDecimal (digits : Z) (places : nat) : Number :=
  ofUnits (roundRatio (digits * one) (10 ^ Z.of_nat places)).

(** [x + y] *)
Definition add (x y : Number) : Number :=
  match x, y with
  | Finite a, Finite b => ofUnits (round (a + b))
  | _, _ => Infinity
  end.

(** [x / n] for a whole number [n] with [0 < n < 2^53]. *)
Definition divide (x : Number) (n : Z) : Number :=
  match x with
  | Finite a => ofUnits (roundRatio a n)
  | Infinity => Infinity
  end.

(** [x <= y] *)
Definition leb (x y : Number) : bool :=
  match x, y with
  | Finite a, Finite b => a <=? b
  | _, Infinity => true
  | Infinity, Finite _ => false
  end.

End Double.

(** The record the program calls [Product].  Twelve fields are strings
    checked by the schema; [originalUrl] is whatever element of the URL
    array the program stamps in, and that array may come unchecked from
    [JSON.parse]. *)
Record Product : Type := mkProduct {
  title : string;
  price : string;
  brand : string;
  model : string;
  cpu : string;
  ram : string;
  storage : string;
  availability : string;
  quantity : string;
  location : string;
  description : string;
  imageUrl : string;
  originalUrl : JsValue
}.

(** The two revisions of the program. *)
Inductive Revision : Type :=
| Standalone   (* product-scraper.ts *)
| Cli.         (* the tool with --input and --output *)

(** The lines written to the console, by what they report. *)
Inductive Line : Type :=
| LStarting (count : nat)
| LProcessing (position total : nat) (url : option JsValue)
| LDone
| LWaiting (delay : Z)
| LErrorProcessing (url : JsValue) (error : JsValue)
| LFailed (message : string)
| LExtracting
| LExtracted
| LErrorExtracting (error : JsValue)
| LListing (position : nat) (product : Product)
| LComparisonHeader
| LSummaryHeader
| LTotal (count : nat)
| LSuccessful (successful total : nat)
| LPriceRange (minPrice maxPrice : Double.Number)   (* each with toFixed(2) *)
| LAveragePrice (avgPrice : Double.Number)
| LSampleHeader
| LSample (position : nat) (product : Product)
| LFullDetails
| LSavedTo (path : string)
| LComplete
| LUsage
| LBanner
| LCreatedBaseDirectory
| LCreatedDirectory (timestamp : string)
| LReadingUrls (path : string)
| LFoundUrls (count : nat)
| LNoValidUrls
| LNoInputFile
| LErrorReadingUrls (message : string)
| LResultsSaved (jsonPath csvPath : string)
| LErrorInMain (error : JsValue)
| LUncaught (error : JsValue).

(** What a written file holds. *)
Inductive FileContent : Type :=
| JsonOf (products : list Product)   (* JSON.stringify(products, null, 2) *)
| Text (content : string).

(** The effects of a run, in the order they happen.  A browser, file or
    timer event is recorded when the call has completed normally. *)
Inductive Event : Type :=
| ConsoleLog (line : Line)
| ConsoleError (line : Line)
| BrowserLaunched
| BrowserClosed
| ContextOpened (index : nat)
| PageOpened (index : nat)
| Navigated (index : nat) (url : JsValue)
| Extracted (index : nat)
| ContextClosed (index : nat)
| Slept (milliseconds : Z)
| DirectoryCreated (path : string)
| FileWritten (path : string) (content : FileContent).

(** A computation over a mutable store [S]: it ends in a completion,
    leaves a store, and has emitted events.  The store survives a throw,
    as the contents of a JavaScript array do. *)
Definition Eff (S A : Type) : Type := S -> Completion A * S * list Event.

Module Eff.

Definition ret {S A} (a : A) : Eff S A := fun s => (Normal a, s, []).

Definition throw {S A} (e : JsValue) : Eff S A := fun s => (Throw e, s, []).

Definition bind {S A B} (m : Eff S A) (k : A -> Eff S B) : Eff S B :=
  fun s =>
    match m s with
    | (Normal a, s1, t1) =>
        match k a s1 with
        | (c, s2, t2) => (c, s2, t1 ++ t2)
        end
    | (Throw e, s1, t1) => (Throw e, s1, t1)
    end.

Definition emit {S} (ev : Event) : Eff S unit := fun s => (Normal tt, s, [ev]).

Definition log {S} (l : Line) : Eff S unit := emit (ConsoleLog l).
Definition error {S} (l : Line) : Eff S unit := emit (ConsoleError l).

Definition get {S} : Eff S S := fun s => (Normal s, s, []).
Definition modify {S} (f : S -> S) : Eff S unit := fun s => (Normal tt, f s, []).

(** An awaited external call whose outcome the world decides; its
    event is recorded when it completes normally. *)
Definition call {S A} (outcome : Completion A) (ev : list Event) : Eff S A :=
  fun s =>
    match outcome with
    | Normal a => (Normal a, s, ev)
    | Throw e => (Throw e, s, [])
    end.

(** [try { body } catch (error) { handler }] *)
Definition tryCatch {S A} (body : Eff S A) (handler : JsValue -> Eff S A)
  : Eff S A :=
  fun s =>
    match body s with
    | (Normal a, s1, t1) => (Normal a, s1, t1)
    | (Throw e, s1, t1) =>
        match handler e s1 with
        | (c, s2, t2) => (c, s2, t1 ++ t2)
        end
    end.

(** [try { body } finally { final }] *)
Definition tryFinally {S A} (body : Eff S A) (final : Eff S unit) : Eff S A :=
  fun s =>
    match body s with
    | (c, s1, t1) =>
        match final s1 with
        | (Normal _, s2, t2) => (c, s2, t1 ++ t2)
        | (Throw e, s2, t2) => (Throw e, s2, t1 ++ t2)
        end
    end.

(** A block with a local mutable variable, returned with the result. *)
Definition withLocal {S L A} (init : L) (m : Eff L A) : Eff S (A * L) :=
  fun s =>
    match m init with
    | (Normal a, l, t) => (Normal (a, l), s, t)
    | (Throw e, _, t) => (Throw e, s, t)
    end.

Definition when {S} (b : bool) (m : Eff S unit) : Eff S unit :=
  if b then m else ret tt.

Definition completion {S A} (r : Completion A * S * list Event) : Completion A :=
  fst (fst r).
Definition store {S A} (r : Completion A * S * list Event) : S := snd (fst r).
Definition events {S A} (r : Completion A * S * list Event) : list Event := snd r.

End Eff.

Declare Scope eff_scope.
Delimit Scope eff_scope with eff.
Notation "x <- m ;; k" := (Eff.bind m (fun x => k))
  (at level 61, m at next level, right associativity) : eff_scope.
Notation "m ;;; k" := (Eff.bind m (fun _ => k))
  (at level 61, right associativity) : eff_scope.

#[local] Open Scope eff_scope.

(** ** The world of a run *)

(** What happens at one URL: the outcome of each awaited call, and the
    number [Math.random()] returns if it is asked. *)
Record Visit : Type := mkVisit {
  newContext : Completion unit;      (* browser.newContext(...) *)
  newPage : Completion unit;         (* context.newPage() *)
  goto : Completion unit;            (* page.goto(url, { timeout: 30000 }) *)
  run : Completion Product;          (* scraper.run(...), its data.product *)
  closeContext : Completion unit;    (* context.close() *)
  random : Z                         (* Math.random() *)
}.

Record World : Type := mkWorld {
  apiKey : option string;                    (* process.env.OPENAI_API_KEY *)
  launch : Completion unit;                  (* chromium.launch(...) *)
  visit : nat -> Visit;                      (* by loop index *)
  closeBrowser : Completion unit;            (* browser.close() *)
  cwd : string;                              (* process.cwd() *)
  pathJoin : string -> string -> string;     (* path.join(a, b) *)
  timestamp : string;                        (* the clock, as formatted *)
  existsSync : string -> bool;
  mkdirSync : string -> Completion unit;
  readFileSync : string -> Completion string;
  writeFileSync : string -> Completion unit;
  JSON_parse : string -> Completion JsValue  (* throws a SyntaxError *)
}.

(** ** [extractProductInfo] *)

Section ProductInfo.

Context {St : Type}.

(** [v.key] as an effect: a [TypeError] on [null] and [undefined]. *)
Definition readProperty (key : string) (v : JsValue) : Eff St JsValue :=
  match Js.getProperty key v with
  | Some x => Eff.ret x
  | None => Eff.throw (Js.typeError "Cannot read properties of undefined")
  end.

Definition forStandalone (rev : Revision) (m : Eff St unit) : Eff St unit :=
  match rev with Standalone => m | Cli => Eff.ret tt end.

Definition forCli (rev : Revision) (m : Eff St unit) : Eff St unit :=
  match rev with Standalone => Eff.ret tt | Cli => m end.

(** [{ ...data.product, originalUrl }] *)
Definition withOriginalUrl (p : Product) (url : JsValue) : Product :=
  mkProduct p.(title) p.(price) p.(brand) p.(model) p.(cpu) p.(ram)
            p.(storage) p.(availability) p.(quantity) p.(location)
            p.(description) p.(imageUrl) url.

(** The "safely extract error message" block: the value left in
    [errorMessage].  The conversion [String(message)] of the third case
    may throw. *)
Definition errorMessageOf (error : JsValue) : Eff St JsValue :=
  if Js.instanceofError error then
    readProperty "message" error
  else if Js.isString error then
    Eff.ret error
  else if Js.truthy error && Js.isObject error && Js.hasProperty "message" error then
    message <- readProperty "message" error ;;
    text <- Eff.call (Js.stringOf message) [] ;;
    Eff.ret (JsString text)
  else
    Eff.ret (JsString "Unknown error").

(** The record returned from the [catch] branch; [errorMessage] is a
    string there, which the template takes as it is. *)
Definition placeholder (errorMessage : JsValue) (originalUrl : JsValue) : Product :=
  {| title := "Extraction Failed";
     price := "Unknown";
     brand := "Unknown";
     model := "Unknown";
     cpu := "Unknown";
     ram := "Unknown";
     storage := "Unknown";
     availability := "Unknown";
     quantity := "Unknown";
     location := "Unknown";
     description :=
       ("Failed to extract information: " ++ Js.toString errorMessage)%string;
     imageUrl := EmptyString;
     originalUrl := originalUrl |}.

(** [extractProductInfo(page, scraper, originalUrl)]; [runOutcome] is
    how [scraper.run] ends on this page. *)
Definition extractProductInfo (rev : Revision) (index : nat)
    (runOutcome : Completion Product) (originalUrl : JsValue) : Eff St Product :=
  Eff.tryCatch
    (forStandalone rev (Eff.log LExtracting) ;;;
     data <- Eff.call runOutcome [Extracted index] ;;
     let product := withOriginalUrl data originalUrl in
     forStandalone rev (Eff.log LExtracted) ;;;
     Eff.ret product)
    (fun error =>
       Eff.error (LErrorExtracting error) ;;;
       errorMessage <- errorMessageOf error ;;
       Eff.ret (placeholder errorMessage originalUrl)).

End ProductInfo.

(** ** [scrapeProducts] *)

(** [Math.floor(Math.random() * 2000) + 1000] *)
Definition delayOf (random : Z) : Z :=
  (Double.floor (Double.mul random 2000) + 1000)%Z.

(** [error instanceof Error ? error.message : String(error)], in a
    template string.  What reaches the two handlers that use it is
    thrown by the browser, the file system or a conversion, all of which
    throw instances of [Error]; for these the text is the message. *)
Definition messageText (error : JsValue) : string :=
  if Js.instanceofError error then
    match Js.getProperty "message" error with
    | Some m => Js.toString m
    | None => Js.toString JsUndefined
    end
  else Js.toString error.

(** The body of the [for] loop at index [i], of [n] URLs. *)
Definition visitUrl (rev : Revision) (n i : nat) (url : JsValue) (v : Visit)
  : Eff (list Product) unit :=
  Eff.log (LProcessing (i + 1) n
             (match rev with Standalone => Some url | Cli => None end)) ;;;
  Eff.tryCatch
    (Eff.call v.(newContext) [ContextOpened i] ;;;
     Eff.call v.(newPage) [PageOpened i] ;;;
     Eff.call v.(goto) [Navigated i url] ;;;
     product <- extractProductInfo rev i v.(run) url ;;
     Eff.modify (fun products => products ++ [product]) ;;;
     forCli rev (Eff.log LDone) ;;;
     Eff.call v.(closeContext) [ContextClosed i] ;;;
     Eff.when (Z.of_nat i <? Z.of_nat n - 1)%Z
       (let delay := delayOf v.(random) in
        forStandalone rev (Eff.log (LWaiting delay)) ;;;
        Eff.emit (Slept delay)))
    (fun error =>
       match rev with
       | Standalone => Eff.error (LErrorProcessing url error)
       | Cli => Eff.error (LFailed (messageText error))
       end).

(** The [for] loop from index [i] on, over the URLs still to visit. *)
Fixpoint visitFrom (rev : Revision) (n i : nat) (urls : list JsValue)
    (visits : nat -> Visit) : Eff (list Product) unit :=
  match urls with
  | [] => Eff.ret tt
  | url :: rest =>
      visitUrl rev n i url (visits i) ;;;
      visitFrom rev n (S i) rest visits
  end.

(** [process.env.OPENAI_API_KEY] as a condition. *)
Definition hasApiKey (w : World) : bool :=
  match w.(apiKey) with
  | Some key => negb (Str.isEmpty key)
  | None => false
  end.

Definition scrapeProducts {St : Type} (rev : Revision) (w : World)
    (urls : list JsValue) : Eff St (list Product) :=
  let n := List.length urls in
  Eff.log (LStarting n) ;;;
  if negb (hasApiKey w) then
    Eff.throw (JsError "Error" "OPENAI_API_KEY environment variable is not set")
  else
    Eff.call w.(launch) [BrowserLaunched] ;;;
    result <- Eff.withLocal []
                (Eff.tryFinally
                   (visitFrom rev n 0 urls w.(visit))
                   (Eff.call w.(closeBrowser) [BrowserClosed])) ;;
    Eff.ret (snd result).

(** ** [displayProducts]

    Prices are doubles: [parseFloat] of a decimal numeral is the double
    nearest to the number it denotes, and the sum and the quotient of
    the mean are rounded as the program's are. *)

Module Price.

Definition isDigit (c : ascii) : bool :=
  let n := nat_of_ascii c in ((48 <=? n)%nat && (n <=? 57)%nat).

(** The class [[0-9.]] of the pattern in [replace(/[^0-9.]/g, '')]. *)
Definition isDigitOrPoint (c : ascii) : bool :=
  isDigit c || Ascii.eqb c "."%char.

(** The longest prefix of digits, and what follows it. *)
Fixpoint digitsPrefix (s : string) : string * string :=
  match s with
  | EmptyString => (EmptyString, EmptyString)
  | String c t =>
      if isDigit c then
        let (ds, rest) := digitsPrefix t in (String c ds, rest)
      else (EmptyString, s)
  end.

(** The whole number a string of digits denotes, after [acc]. *)
Fixpoint valueOf (acc : Z) (ds : string) : Z :=
  match ds with
  | EmptyString => acc
  | String c t => valueOf (10 * acc + (Z.of_nat (nat_of_ascii c) - 48))%Z t
  end.

(** [parseFloat(s)] on a string without sign, exponent or leading
    white space: the longest prefix of the form digits, point, digits
    with a digit on at least one side, as the double nearest to the
    number it denotes; [None] is [NaN]. *)
Definition parseFloat (s : string) : option Double.Number :=
  let (whole, rest) := digitsPrefix s in
  let fraction :=
    match rest with
    | String "."%char t => fst (digitsPrefix t)
    | _ => EmptyString
    end in
  if Str.isEmpty whole && Str.isEmpty fraction then None
  else Some (Double.ofDecimal (valueOf 0 (whole ++ fraction)%string)
                              (String.length fraction)).

(** [p.price !== "Unknown" ? parseFloat(p.price.replace(/[^0-9.]/g, '')) : NaN] *)
Definition priceOf (p : Product) : option Double.Number :=
  if negb (String.eqb p.(price) "Unknown")
  then parseFloat (Str.keepOnly isDigitOrPoint p.(price))
  else None.

(** [.filter(price => !isNaN(price))] after the [map] *)
Fixpoint dropNaN (l : list (option Double.Number)) : list Double.Number :=
  match l with
  | [] => []
  | Some q :: rest => q :: dropNaN rest
  | None :: rest => dropNaN rest
  end.

(** The constant [prices] of [displayProducts]. *)
Definition pricesOf (products : list Product) : list Double.Number :=
  dropNaN (List.map priceOf products).

(** [p.title !== "Extraction Failed"] *)
Definition isSuccessful (p : Product) : bool :=
  negb (String.eqb p.(title) "Extraction Failed").

Definition min2 (a b : Double.Number) : Double.Number :=
  if Double.leb a b then a else b.
Definition max2 (a b : Double.Number) : Double.Number :=
  if Double.leb a b then b else a.

(** [Math.min(...prices)] and [Math.max(...prices)] of [first :: rest]. *)
Definition mathMin (first : Double.Number) (rest : list Double.Number)
  : Double.Number := fold_left min2 rest first.
Definition mathMax (first : Double.Number) (rest : list Double.Number)
  : Double.Number := fold_left max2 rest first.

(** [prices.reduce((sum, price) => sum + price, 0)] *)
Definition total (prices : list Double.Number) : Double.Number :=
  fold_left Double.add prices (Double.Finite 0).

(** [prices.reduce((sum, price) => sum + price, 0) / prices.length] *)
Definition average (prices : list Double.Number) : Double.Number :=
  Double.divide (total prices) (Z.of_nat (List.length prices)).

End Price.

Section Reporting.

Context {St : Type}.

(** The lines of the [forEach] of the first revision, from [index]. *)
Fixpoint listingsFrom (index : nat) (products : list Product) : Eff St unit :=
  match products with
  | [] => Eff.ret tt
  | product :: rest =>
      Eff.log (LListing (index + 1) product) ;;;
      listingsFrom (S index) rest
  end.

(** The lines of the sample loop, [for (let i = 0; i < displayCount; i++)],
    from [i] on; [products] are the elements from index [i]. *)
Fixpoint samplesFrom (displayCount i : nat) (products : list Product)
  : Eff St unit :=
  match products with
  | [] => Eff.ret tt
  | p :: rest =>
      if (i <? displayCount)%nat then
        Eff.log (LSample (i + 1) p) ;;;
        samplesFrom displayCount (S i) rest
      else Eff.ret tt
  end.

Definition displayProducts (rev : Revision) (products : list Product)
  : Eff St unit :=
  match rev with
  | Standalone =>
      Eff.log LComparisonHeader ;;;
      listingsFrom 0 products
  | Cli =>
      Eff.log LSummaryHeader ;;;
      Eff.log (LTotal (List.length products)) ;;;
      let successful := List.length (List.filter Price.isSuccessful products) in
      Eff.log (LSuccessful successful (List.length products)) ;;;
      Eff.when (0 <? successful)%nat
        (let prices := Price.pricesOf products in
         match prices with
         | [] => Eff.ret tt
         | first :: rest =>
             let avgPrice := Price.average prices in
             let minPrice := Price.mathMin first rest in
             let maxPrice := Price.mathMax first rest in
             Eff.log (LPriceRange minPrice maxPrice) ;;;
             Eff.log (LAveragePrice avgPrice)
         end) ;;;
      let displayCount := Nat.min 3 (List.length products) in
      Eff.when (0 <? displayCount)%nat
        (Eff.log LSampleHeader ;;;
         samplesFrom displayCount 0 products) ;;;
      Eff.log LFullDetails
  end.

End Reporting.

(** ** The writers *)

Module Csv.

Definition headers : list string :=
  ["Title"; "Price"; "Brand"; "Model"; "CPU"; "RAM"; "Storage";
   "Availability"; "Quantity"; "Location"; "Description"; "Image URL";
   "Original URL"].

Definition rowOf (product : Product) : list JsValue :=
  [JsString product.(title); JsString product.(price);
   JsString product.(brand); JsString product.(model);
   JsString product.(cpu); JsString product.(ram);
   JsString product.(storage); JsString product.(availability);
   JsString product.(quantity); JsString product.(location);
   JsString product.(description); JsString product.(imageUrl);
   product.(originalUrl)].

Definition quote : string := String Str.dquote EmptyString.

(** The replacement text of the [replace] call: two quote characters. *)
Definition twoQuotes : string := String Str.dquote (String Str.dquote EmptyString).

(** What the template does to a string cell that is not empty. *)
Definition quoted (cell : string) : string :=
  (quote ++ Str.replaceAll Str.dquote twoQuotes cell ++ quote)%string.

(** The cell expression: a truthy cell is written between two quote
    characters with every quote character in it replaced by two, and a
    falsy cell is the empty string.  A cell that is truthy and not a
    string has no [replace] method. *)
Definition cellOf (cell : JsValue) : Completion string :=
  if Js.truthy cell then
    match cell with
    | JsString s => Normal (quoted s)
    | _ => Throw (Js.typeError "cell.replace is not a function")
    end
  else Normal EmptyString.

(** [row.map(cell => ...)], cell by cell from the left. *)
Fixpoint cellsOf (row : list JsValue) : Completion (list string) :=
  match row with
  | [] => Normal []
  | cell :: rest =>
      match cellOf cell with
      | Throw e => Throw e
      | Normal c =>
          match cellsOf rest with
          | Throw e => Throw e
          | Normal cs => Normal (c :: cs)
          end
      end
  end.

(** [rows.map(row => row.map(...).join(","))] *)
Fixpoint linesOf (rows : list (list JsValue)) : Completion (list string) :=
  match rows with
  | [] => Normal []
  | row :: rest =>
      match cellsOf row with
      | Throw e => Throw e
      | Normal cells =>
          match linesOf rest with
          | Throw e => Throw e
          | Normal ls => Normal (Str.join "," cells :: ls)
          end
      end
  end.

(** The constant [csvContent]. *)
Definition csvContent (products : list Product) : Completion string :=
  match linesOf (List.map rowOf products) with
  | Throw e => Throw e
  | Normal ls =>
      Normal (Str.join (String Str.newline EmptyString)
                       (Str.join "," headers :: ls))
  end.

End Csv.

Section Writers.

Context {St : Type}.

(** [saveProductsToFile]; the first revision writes [filename] itself
    and reports it, the later one writes under [outputDir] and returns
    the path. *)
Definition saveProductsToFile (rev : Revision) (w : World)
    (products : list Product) (outputDir filename : string) : Eff St string :=
  match rev with
  | Standalone =>
      Eff.call (w.(writeFileSync) filename)
               [FileWritten filename (JsonOf products)] ;;;
      Eff.log (LSavedTo filename) ;;;
      Eff.ret filename
  | Cli =>
      let fullPath := w.(pathJoin) outputDir filename in
      Eff.call (w.(writeFileSync) fullPath)
               [FileWritten fullPath (JsonOf products)] ;;;
      Eff.ret fullPath
  end.

Definition saveProductsToCSV (rev : Revision) (w : World)
    (products : list Product) (outputDir filename : string) : Eff St string :=
  csvContent <- Eff.call (Csv.csvContent products) [] ;;
  match rev with
  | Standalone =>
      Eff.call (w.(writeFileSync) filename)
               [FileWritten filename (Text csvContent)] ;;;
      Eff.log (LSavedTo filename) ;;;
      Eff.ret filename
  | Cli =>
      let fullPath := w.(pathJoin) outputDir filename in
      Eff.call (w.(writeFileSync) fullPath)
               [FileWritten fullPath (Text csvContent)] ;;;
      Eff.ret fullPath
  end.

End Writers.

(** ** The URL source of the later revision *)

Section UrlSource.

Context {St : Type}.

(** The text branch: [fileContent.split(newline).map(line => line.trim())
    .filter(line => line.length > 0 && line.startsWith(http))]. *)
Definition urlLines (fileContent : string) : list string :=
  List.filter
    (fun line => (0 <? String.length line)%nat && Str.startsWith "http" line)
    (List.map Str.trim (Str.split Str.newline fileContent)).

Definition elementsOf (v : JsValue) : list JsValue :=
  match v with JsArray elements => elements | _ => [] end.

(** The inner [try]: [Some urls] when it returns [urls] from the
    function, [None] when control falls out of it. *)
Definition interpret (w : World) (fileContent : string)
  : Eff St (option (list JsValue)) :=
  Eff.tryCatch
    (jsonData <- Eff.call (w.(JSON_parse) fileContent) [] ;;
     if Js.isArray jsonData then
       Eff.ret (Some (elementsOf jsonData))
     else
       urls <- readProperty "urls" jsonData ;;
       if Js.truthy urls && Js.isArray urls then
         Eff.ret (Some (elementsOf urls))
       else Eff.ret None)
    (fun _ => Eff.ret (Some (List.map JsString (urlLines fileContent)))).

Definition readUrlsFromFile (w : World) (filePath : string)
  : Eff St (list JsValue) :=
  Eff.tryCatch
    (fileContent <- Eff.call (w.(readFileSync) filePath) [] ;;
     returned <- interpret w fileContent ;;
     match returned with
     | Some urls => Eff.ret urls
     | None => Eff.throw (JsError "Error" "Could not parse input file format")
     end)
    (fun error =>
       Eff.error (LErrorReadingUrls (messageText error)) ;;;
       Eff.ret []).

End UrlSource.

(** ** Command line, output directory and [main] *)

Record Options : Type := mkOptions {
  inputFile : option string;     (* [None] is [undefined] *)
  outputPrefix : option string;
  showHelp : bool
}.

(** The loop of [parseArgs]; [args[++i]] past the end is [undefined]. *)
Fixpoint parseArgsFrom (args : list string) (options : Options) : Options :=
  match args with
  | [] => options
  | arg :: rest =>
      if String.eqb arg "--input" || String.eqb arg "-i" then
        match rest with
        | [] => mkOptions None options.(outputPrefix) options.(showHelp)
        | value :: rest' =>
            parseArgsFrom rest'
              (mkOptions (Some value) options.(outputPrefix) options.(showHelp))
        end
      else if String.eqb arg "--output" || String.eqb arg "-o" then
        match rest with
        | [] => mkOptions options.(inputFile) None options.(showHelp)
        | value :: rest' =>
            parseArgsFrom rest'
              (mkOptions options.(inputFile) (Some value) options.(showHelp))
        end
      else if String.eqb arg "--help" || String.eqb arg "-h" then
        parseArgsFrom rest (mkOptions options.(inputFile) options.(outputPrefix) true)
      else parseArgsFrom rest options
  end.

Definition parseArgs (args : list string) : Options :=
  parseArgsFrom args (mkOptions None None false).

(** An optional string as a condition. *)
Definition given (o : option string) : bool :=
  match o with
  | Some s => negb (Str.isEmpty s)
  | None => false
  end.

Definition exampleUrls : list JsValue :=
  [JsString "https://www.facebook.com/marketplace/item/3205154652960339/";
   JsString "https://www.facebook.com/marketplace/item/664792412773207/";
   JsString "https://www.facebook.com/marketplace/item/3856292544625767/"].

Section Main.

Context {St : Type}.

Definition ensureOutputDirectoryExists (w : World) : Eff St string :=
  let timestamp := w.(timestamp) in
  let baseOutputDir := w.(pathJoin) w.(cwd) "output" in
  let outputDir := w.(pathJoin) baseOutputDir timestamp in
  Eff.when (negb (w.(existsSync) baseOutputDir))
    (Eff.call (w.(mkdirSync) baseOutputDir) [DirectoryCreated baseOutputDir] ;;;
     Eff.log LCreatedBaseDirectory) ;;;
  Eff.when (negb (w.(existsSync) outputDir))
    (Eff.call (w.(mkdirSync) outputDir) [DirectoryCreated outputDir] ;;;
     Eff.log (LCreatedDirectory timestamp)) ;;;
  Eff.ret outputDir.

(** [main] of the first revision; [args] is [process.argv.slice(2)]. *)
Definition mainStandalone (w : World) (args : list string) : Eff St unit :=
  let urlsToScrape :=
    if (0 <? List.length args)%nat then List.map JsString args else exampleUrls in
  Eff.tryCatch
    (products <- scrapeProducts Standalone w urlsToScrape ;;
     displayProducts Standalone products ;;;
     saveProductsToFile Standalone w products EmptyString "pc_listings.json" ;;;
     saveProductsToCSV Standalone w products EmptyString "pc_listings.csv" ;;;
     Eff.log LComplete)
    (fun error => Eff.error (LErrorInMain error)).

(** The block of the later [main] that determines which URLs to
    scrape. *)
Definition urlsToScrapeOf (w : World) (options : Options) : Eff St (list JsValue) :=
  match options.(inputFile) with
  | Some path =>
      if given options.(inputFile) then
        Eff.log (LReadingUrls path) ;;;
        urls <- readUrlsFromFile w path ;;
        if (0 <? List.length urls)%nat then
          Eff.log (LFoundUrls (List.length urls)) ;;;
          Eff.ret urls
        else
          Eff.log LNoValidUrls ;;;
          Eff.ret exampleUrls
      else
        Eff.log LNoInputFile ;;;
        Eff.ret exampleUrls
  | None =>
      Eff.log LNoInputFile ;;;
      Eff.ret exampleUrls
  end.

(** [options.outputPrefix || "pc_listings"] *)
Definition outputPrefixOf (options : Options) : string :=
  match options.(outputPrefix) with
  | Some prefix => if given options.(outputPrefix) then prefix else "pc_listings"
  | None => "pc_listings"
  end.

(** [main] of the later revision. *)
Definition mainCli (w : World) (args : list string) : Eff St unit :=
  let options := parseArgs args in
  if options.(showHelp) then
    Eff.log LUsage
  else
    Eff.log LBanner ;;;
    outputDir <- ensureOutputDirectoryExists w ;;
    urlsToScrape <- urlsToScrapeOf w options ;;
    let outputPrefix := outputPrefixOf options in
    let jsonFilename := (outputPrefix ++ ".json")%string in
    let csvFilename := (outputPrefix ++ ".csv")%string in
    Eff.tryCatch
      (products <- scrapeProducts Cli w urlsToScrape ;;
       displayProducts Cli products ;;;
       jsonPath <- saveProductsToFile Cli w products outputDir jsonFilename ;;
       csvPath <- saveProductsToCSV Cli w products outputDir csvFilename ;;
       Eff.log (LResultsSaved jsonPath csvPath) ;;;
       Eff.log LComplete)
      (fun error => Eff.error (LErrorInMain error)).

Definition main (rev : Revision) (w : World) (args : list string) : Eff St unit :=
  match rev with
  | Standalone => mainStandalone w args
  | Cli => mainCli w args
  end.

(** The last line of either file: [main().catch(console.error)]. *)
Definition program (rev : Revision) (w : World) (args : list string) : Eff St unit :=
  Eff.tryCatch (main rev w args) (fun error => Eff.error (LUncaught error)).

End Main.

(** The events of a whole run. *)
Definition runProgram (rev : Revision) (w : World) (args : list string) : list Event :=
  Eff.events (program (St := unit) rev w args tt).

(** * Descriptions used in the statements *)

Module Spec.

(** The message of a thrown value, case by case: the message of an
    [Error]; a string itself; for an object with a [message]
    property, that property converted to a string, when the conversion
    returns; for anything else the fallback. *)
Definition messageOfThrown (error : JsValue) : Completion string :=
  match error with
  | JsError _ message => Normal message
  | JsString s => Normal s
  | JsObject properties =>
      match Js.assoc "message" properties with
      | Some m => Js.stringOf m
      | None => Normal "Unknown error"
      end
  | _ => Normal "Unknown error"
  end.

End Spec.

(** Whether a call ends normally. *)
Definition returns {A : Type} (c : Completion A) : bool :=
  match c with Normal _ => true | Throw _ => false end.

(** How [extractProductInfo] ends, by how [scraper.run] ended: with the
    extracted record, with the placeholder, or by throwing what the
    conversion of the message throws. *)
Definition recordOf (runOutcome : Completion Product) (url : JsValue)
  : Completion Product :=
  match runOutcome with
  | Normal data => Normal (withOriginalUrl data url)
  | Throw error =>
      match Spec.messageOfThrown error with
      | Normal message => Normal (placeholder (JsString message) url)
      | Throw e => Throw e
      end
  end.

(** What [extractProductInfo] emits. *)
Definition extractEvents (rev : Revision) (index : nat)
    (runOutcome : Completion Product) : list Event :=
  match runOutcome with
  | Normal _ =>
      match rev with
      | Standalone =>
          [ConsoleLog LExtracting; Extracted index; ConsoleLog LExtracted]
      | Cli => [Extracted index]
      end
  | Throw error =>
      match rev with
      | Standalone => [ConsoleLog LExtracting; ConsoleError (LErrorExtracting error)]
      | Cli => [ConsoleError (LErrorExtracting error)]
      end
  end.

(** Whether the visit gets as far as the extraction: the context and the
    page open and the navigation succeeds. *)
Definition reaches (v : Visit) : bool :=
  match v.(newContext), v.(newPage), v.(goto) with
  | Normal _, Normal _, Normal _ => true
  | _, _, _ => false
  end.

(** Whether [extractProductInfo] returns a record. *)
Definition extracts (runOutcome : Completion Product) : bool :=
  match runOutcome with
  | Normal _ => true
  | Throw error => returns (Spec.messageOfThrown error)
  end.

(** Whether the visit appends a record: it reaches the extraction, and
    [extractProductInfo] returns. *)
Definition yields (v : Visit) : bool := reaches v && extracts v.(run).

(** Whether the URL is processed: the visit appends its record and
    closes its context. *)
Definition completes (v : Visit) : bool := yields v && returns v.(closeContext).

(** The records one visit appends to [products]. *)
Definition recordsOfVisit (v : Visit) (url : JsValue) : list Product :=
  if reaches v then
    match recordOf v.(run) url with
    | Normal product => [product]
    | Throw _ => []
    end
  else [].

(** The records the loop appends, from index [i] on. *)
Fixpoint expectedRecords (i : nat) (urls : list JsValue) (visits : nat -> Visit)
  : list Product :=
  match urls with
  | [] => []
  | url :: rest => recordsOfVisit (visits i) url ++ expectedRecords (S i) rest visits
  end.

(** The URLs whose visit appends a record, from index [i] on. *)
Fixpoint recordedUrls (i : nat) (urls : list JsValue) (visits : nat -> Visit)
  : list JsValue :=
  match urls with
  | [] => []
  | url :: rest =>
      (if yields (visits i) then [url] else [])
        ++ recordedUrls (S i) rest visits
  end.

(** The events of the loop body at index [i]. *)
Definition visitEvents (rev : Revision) (n i : nat) (url : JsValue) (v : Visit)
  : list Event :=
  Eff.events (visitUrl rev n i url v []).

(** The events of the loop from index [i] on, visit after visit. *)
Fixpoint loopEvents (rev : Revision) (n i : nat) (urls : list JsValue)
    (visits : nat -> Visit) : list Event :=
  match urls with
  | [] => []
  | url :: rest =>
      visitEvents rev n i url (visits i) ++ loopEvents rev n (S i) rest visits
  end.

Definition isSlept (ev : Event) : bool :=
  match ev with Slept _ => true | _ => false end.

Definition isBrowserEvent (ev : Event) : bool :=
  match ev with
  | BrowserLaunched | BrowserClosed | ContextOpened _ | PageOpened _
  | Navigated _ _ | Extracted _ | ContextClosed _ => true
  | _ => false
  end.

Definition isFileWritten (ev : Event) : bool :=
  match ev with FileWritten _ _ => true | _ => false end.

(** The events after the loop: the browser is closed in the [finally]. *)
Definition closingEvents (w : World) : list Event :=
  match w.(closeBrowser) with
  | Normal _ => [BrowserClosed]
  | Throw _ => []
  end.


(** The events of a visit up to and including the closing of its
    context, when the URL is processed. *)
Definition visitEventsToClose (rev : Revision) (n i : nat) (url : JsValue)
    (v : Visit) : list Event :=
  [ConsoleLog (LProcessing (i + 1) n
                 (match rev with Standalone => Some url | Cli => None end));
   ContextOpened i; PageOpened i; Navigated i url]
  ++ extractEvents rev i v.(run)
  ++ match rev with Standalone => [] | Cli => [ConsoleLog LDone] end
  ++ [ContextClosed i].

(** The console line that precedes the pause in the first revision. *)
Definition waitingLine (rev : Revision) (delay : Z) : list Event :=
  match rev with
  | Standalone => [ConsoleLog (LWaiting delay)]
  | Cli => []
  end.

(** * Concrete runs *)

Module Demo.

Definition listing (title price : string) : Product :=
  mkProduct title price "Dell" "OptiPlex 7090" "Intel i5-11500" "16GB DDR4"
            "512GB SSD" "Available" "1" "Chicago, IL" "Clean, works well"
            "https://images.example/1.jpg" (JsString "https://model.example/").

Definition half : Z := Double.dyadic 1 1.

(** A visit in which every call succeeds. *)
Definition good (title price : string) : Visit :=
  mkVisit (Normal tt) (Normal tt) (Normal tt) (Normal (listing title price))
          (Normal tt) half.

Definition timeout : JsValue := JsError "TimeoutError" "Timeout 30000ms exceeded".

(** A visit whose navigation times out. *)
Definition navigationFails : Visit :=
  mkVisit (Normal tt) (Normal tt) (Throw timeout)
          (Normal (listing "Gaming PC" "$500")) (Normal tt) half.

Definition schemaError : JsValue := JsError "Error" "No object generated".

(** A thrown object whose [message] is an object with a [toString]
    property that is no function. *)
Definition unprintable : JsValue :=
  JsObject [("message", JsObject [("toString", JsNumber (NumFinite "1"))])].

(** A visit whose extraction call throws that object. *)
Definition messageFails : Visit :=
  mkVisit (Normal tt) (Normal tt) (Normal tt) (Throw unprintable) (Normal tt) half.

(** A visit whose extraction call throws. *)
Definition extractionFails : Visit :=
  mkVisit (Normal tt) (Normal tt) (Normal tt) (Throw schemaError) (Normal tt) half.

Definition syntaxError : JsValue := JsError "SyntaxError" "Unexpected token".

(** [path.join] of a directory and a name that need no normalising. *)
Definition join (a b : string) : string := (a ++ "/" ++ b)%string.

(** A world: a key, the visits, the content of every file that is
    read, and what [JSON.parse] makes of it. *)
Definition world (key : option string) (visits : nat -> Visit)
    (content : string) (parsed : Completion JsValue) : World :=
  mkWorld key (Normal tt) visits (Normal tt) "/home/user/scraper" join
          "2025-05-01T10-00-00" (fun _ => false) (fun _ => Normal tt)
          (fun _ => Normal content) (fun _ => Normal tt) (fun _ => parsed).

Definition urlA : JsValue := JsString "https://www.facebook.com/marketplace/item/1/".
Definition urlB : JsValue := JsString "https://www.facebook.com/marketplace/item/2/".

(** Two URLs, both visited without error. *)
Definition allGood : World :=
  world (Some "sk-test") (fun _ => good "Office PC" "$100") EmptyString
        (Throw syntaxError).

(** Two URLs; the navigation to the first times out. *)
Definition firstTimesOut : World :=
  world (Some "sk-test")
        (fun i => match i with 0 => navigationFails | _ => good "Office PC" "$100" end)
        EmptyString (Throw syntaxError).

(** The extraction call throws the object whose message cannot be
    converted. *)
Definition messageUnprintable : World :=
  world (Some "sk-test") (fun _ => messageFails) EmptyString (Throw syntaxError).

(** No credential. *)
Definition noKey : World :=
  world None (fun _ => good "Office PC" "$100") EmptyString (Throw syntaxError).

End Demo.

(** * Descriptions for the report *)

(** The two lines that report the price statistics. *)
Definition isStatisticsLine (ev : Event) : bool :=
  match ev with
  | ConsoleLog (LPriceRange _ _) | ConsoleLog (LAveragePrice _) => true
  | _ => false
  end.

(** The price of a record as a number: what is left of the field after
    every character other than a digit or a point is removed, parsed. *)
Definition numericPrice (p : Product) : option Double.Number :=
  Price.parseFloat (Str.keepOnly Price.isDigitOrPoint p.(price)).

(** The numbers among the prices of the records, in order. *)
Definition numericPrices (products : list Product) : list Double.Number :=
  List.flat_map (fun p => match numericPrice p with
                          | Some q => [q]
                          | None => []
                          end) products.

(** The sum of whole numbers. *)
Definition sumOf (values : list Z) : Z := fold_right Z.add 0%Z values.

(** The statistics lines for a list of prices. *)
Definition statisticsLines (prices : list Double.Number) : list Event :=
  match prices with
  | [] => []
  | first :: rest =>
      [ConsoleLog (LPriceRange (Price.mathMin first rest) (Price.mathMax first rest));
       ConsoleLog (LAveragePrice (Price.average prices))]
  end.

Definition successfulCount (products : list Product) : nat :=
  List.length (List.filter Price.isSuccessful products).

Module DemoReport.

(** A record that is not a placeholder and yet is titled like one,
    with a price. *)
Definition mistitled : Product := Demo.listing "Extraction Failed" "$50".

Definition mixed : list Product := [mistitled; Demo.listing "Office PC" "$100"].

End DemoReport.

(** * Descriptions for the CSV cells *)

Module CsvSpec.

(** The string with each quote character written twice. *)
Fixpoint doubled (s : string) : string :=
  match s with
  | EmptyString => EmptyString
  | String c t =>
      if Ascii.eqb c Str.dquote
      then String Str.dquote (String Str.dquote (doubled t))
      else String c (doubled t)
  end.

(** How a string field is written: nothing for the empty string,
    otherwise the field between quotes with its quotes doubled. *)
Definition cellText (s : string) : string :=
  match s with
  | EmptyString => EmptyString
  | String _ _ => String Str.dquote (doubled s ++ String Str.dquote EmptyString)
  end.

(** Reading back the inside of a quoted cell, up to the closing quote
    that ends the text: two quotes stand for one. *)
Fixpoint readQuoted (s : string) : option string :=
  match s with
  | EmptyString => None
  | String c t =>
      if Ascii.eqb c Str.dquote then
        match t with
        | EmptyString => Some EmptyString
        | String d t' =>
            if Ascii.eqb d Str.dquote
            then option_map (String Str.dquote) (readQuoted t')
            else None
        end
      else option_map (String c) (readQuoted t)
  end.

(** Reading back a cell. *)
Definition decode (cell : string) : option string :=
  match cell with
  | EmptyString => Some EmptyString
  | String c t => if Ascii.eqb c Str.dquote then readQuoted t else None
  end.

Definition q : string := String Str.dquote EmptyString.

(** The field value of the example, [He said], a quoted [hi], [, ok]. *)
Definition exampleField : string :=
  ("He said " ++ q ++ "hi" ++ q ++ ", ok")%string.

Definition exampleCell : string :=
  (q ++ "He said " ++ q ++ q ++ "hi" ++ q ++ q ++ ", ok" ++ q)%string.

(** The string fields of a record in column order, with [url] for the
    original URL. *)
Definition fieldsOf (p : Product) (url : string) : list string :=
  [p.(title); p.(price); p.(brand); p.(model); p.(cpu); p.(ram); p.(storage);
   p.(availability); p.(quantity); p.(location); p.(description);
   p.(imageUrl); url].

End CsvSpec.

(** * Descriptions for the URL source *)

Module UrlSpec.

(** A line counts when, trimmed, it is not empty and begins with
    [http]. *)
Definition isUrlLine (trimmed : string) : bool :=
  negb (Str.isEmpty trimmed) && Str.startsWith "http" trimmed.

Definition nl : string := String Str.newline EmptyString.

(** A text file with a blank line, a comment, and two URL lines. *)
Definition exampleText : string :=
  (nl ++ "# my listings" ++ nl ++ "https://www.facebook.com/marketplace/item/1/"
      ++ nl ++ "  http://example.com/item/2  " ++ nl)%string.

Definition exampleUrlLines : list string :=
  ["https://www.facebook.com/marketplace/item/1/"; "http://example.com/item/2"].

Fixpoint contains (c : ascii) (s : string) : bool :=
  match s with
  | EmptyString => false
  | String d t => Ascii.eqb d c || contains c t
  end.

Fixpoint allWhiteSpace (s : string) : bool :=
  match s with
  | EmptyString => true
  | String c t => Str.isWhiteSpace c && allWhiteSpace t
  end.

Definition startsWithWhiteSpace (s : string) : bool :=
  match s with
  | EmptyString => false
  | String c _ => Str.isWhiteSpace c
  end.

Fixpoint endsWithWhiteSpace (s : string) : bool :=
  match s with
  | EmptyString => false
  | String c EmptyString => Str.isWhiteSpace c
  | String _ t => endsWithWhiteSpace t
  end.

Definition isConsole (ev : Event) : bool :=
  match ev with ConsoleLog _ | ConsoleError _ => true | _ => false end.

Definition unparsed : Line := LErrorReadingUrls "Could not parse input file format".

End UrlSpec.

Module DemoFiles.

(** The text file of the example; [JSON.parse] rejects it. *)
Definition textFile : World :=
  Demo.world (Some "sk-test") (fun _ => Demo.good "Office PC" "$100")
                UrlSpec.exampleText (Throw Demo.syntaxError).

(** A file that holds the JSON number 42. *)
Definition numberFile : World :=
  Demo.world (Some "sk-test") (fun _ => Demo.good "Office PC" "$100")
                "42" (Normal (JsNumber (NumFinite "42"))).

(** A file that holds the JSON value [null]. *)
Definition nullFile : World :=
  Demo.world (Some "sk-test") (fun _ => Demo.good "Office PC" "$100")
                "null" (Normal JsNull).

Definition fromFile : Options := mkOptions (Some "urls.json") None false.

End DemoFiles.

(** * Descriptions for the run without a credential *)

(** An event that is neither browser work nor a written file. *)
Definition quiet (ev : Event) : Prop :=
  isBrowserEvent ev = false /\ isFileWritten ev = false.

Definition missingKey : JsValue :=
  JsError "Error" "OPENAI_API_KEY environment variable is not set".

(** * The browser-console scripts

    Two scripts collect the listing links of the page that is open in
    the browser.  The page is their input: the [href] of each anchor
    element, in document order. *)

Module Listings.

(** The text a link must contain. *)
Definition pattern : string := "facebook.com/marketplace/item/".

(** [s.includes(t)] *)
Fixpoint includesb (t s : string) : bool :=
  String.prefix t s
  || match s with
     | EmptyString => false
     | String _ rest => includesb t rest
     end.

(** [self.indexOf(link)]: the first index at which [link] occurs, or -1. *)
Fixpoint indexOf (link : string) (self : list string) : Z :=
  match self with
  | [] => (-1)%Z
  | first :: rest =>
      if String.eqb first link then 0%Z
      else let found := indexOf link rest in
           if (found <? 0)%Z then (-1)%Z else (found + 1)%Z
  end.

(** [array.filter((link, index, self) => keep)] from [index] on, over
    the elements still to test. *)
Fixpoint filterFrom (keep : string -> Z -> bool) (index : Z) (links : list string)
  : list string :=
  match links with
  | [] => []
  | link :: rest =>
      if keep link index
      then link :: filterFrom keep (index + 1)%Z rest
      else filterFrom keep (index + 1)%Z rest
  end.

(** The "remove duplicates" filter: [self.indexOf(link) === index]. *)
Definition removeDuplicates (self : list string) : list string :=
  filterFrom (fun link index => (indexOf link self =? index)%Z) 0%Z self.

(** The constant [marketplaceLinks] of both scripts. *)
Definition marketplaceLinks (hrefs : list string) : list string :=
  removeDuplicates (List.filter (includesb pattern) hrefs).

(** What the scripts write to the console. *)
Inductive Output : Type :=
| OHeading                       (* 'Marketplace Listing Links:' *)
| OText (text : string)
| OFound (count : nat).          (* 'Found n unique marketplace listings.' *)

Definition commaNewline : string := String ","%char (String Str.newline EmptyString).

(** The script that prints the links quoted and separated by commas; it
    returns the printed text. *)
Definition extractMarketplaceListingsQuoted (hrefs : list string)
  : string * list Output :=
  let links := marketplaceLinks hrefs in
  let formattedLinks :=
    Str.join commaNewline
      (List.map (fun link => (Csv.quote ++ link ++ Csv.quote)%string) links) in
  (formattedLinks, [OHeading; OText formattedLinks; OFound (List.length links)]).

(** The script that prints one link per line; it returns the links. *)
Definition extractMarketplaceListings (hrefs : list string)
  : list string * list Output :=
  let links := marketplaceLinks hrefs in
  let linkText := Str.join (String Str.newline EmptyString) links in
  (links, [OText linkText; OFound (List.length links)]).

End Listings.

(** * Reading a CSV text back

    A reader for the text [saveProductsToCSV] writes: cells separated by
    commas, rows by line feeds; a cell that begins with a quote runs to
    its closing quote, two quotes inside it standing for one. *)

Module CsvReader.

Definition Table : Type := list (list string).

Inductive Mode : Type :=
| CellStart
| InPlain
| InQuoted
| AfterQuote.

(** The character [c] belongs to the first cell of what follows. *)
Definition consChar (c : ascii) (t : option Table) : option Table :=
  match t with
  | Some ((cell :: cells) :: rows) => Some ((String c cell :: cells) :: rows)
  | _ => None
  end.

(** A comma: what follows starts a further cell of the same row. *)
Definition newCell (t : option Table) : option Table :=
  match t with
  | Some (row :: rows) => Some ((EmptyString :: row) :: rows)
  | _ => None
  end.

(** A line feed: what follows are further rows. *)
Definition newRow (t : option Table) : option Table :=
  match t with
  | Some rows => Some ([EmptyString] :: rows)
  | None => None
  end.

Fixpoint read (mode : Mode) (s : string) : option Table :=
  match s with
  | EmptyString =>
      match mode with
      | InQuoted => None
      | _ => Some [[EmptyString]]
      end
  | String c t =>
      match mode with
      | CellStart =>
          if Ascii.eqb c Str.dquote then read InQuoted t
          else if Ascii.eqb c ","%char then newCell (read CellStart t)
          else if Ascii.eqb c Str.newline then newRow (read CellStart t)
          else consChar c (read InPlain t)
      | InPlain =>
          if Ascii.eqb c ","%char then newCell (read CellStart t)
          else if Ascii.eqb c Str.newline then newRow (read CellStart t)
          else consChar c (read InPlain t)
      | InQuoted =>
          if Ascii.eqb c Str.dquote then read AfterQuote t
          else consChar c (read InQuoted t)
      | AfterQuote =>
          if Ascii.eqb c Str.dquote then consChar Str.dquote (read InQuoted t)
          else if Ascii.eqb c ","%char then newCell (read CellStart t)
          else if Ascii.eqb c Str.newline then newRow (read CellStart t)
          else None
      end
  end.

Definition parse (text : string) : option Table := read CellStart text.

(** The field [f] is the beginning of the first cell of what follows. *)
Definition prependCell (f : string) (t : option Table) : option Table :=
  match t with
  | Some ((cell :: cells) :: rows) => Some (((f ++ cell)%string :: cells) :: rows)
  | _ => None
  end.

(** What the reader makes of the end of a cell. *)
Definition atBoundary (tail : string) : option Table :=
  match tail with
  | EmptyString => Some [[EmptyString]]
  | String c t =>
      if Ascii.eqb c ","%char then newCell (read CellStart t)
      else if Ascii.eqb c Str.newline then newRow (read CellStart t)
      else None
  end.

(** A boundary: the end of the text, a comma or a line feed. *)
Definition isBoundary (tail : string) : Prop :=
  tail = EmptyString
  \/ (exists t, tail = String ","%char t)
  \/ (exists t, tail = String Str.newline t).

(** A table whose first row has a first cell. *)
Definition headed (t : option Table) : Prop :=
  match t with
  | Some [] | Some ([] :: _) => False
  | _ => True
  end.

(** The text of a row of string fields, as the writer joins it. *)
Definition rowText (fields : list string) : string :=
  Str.join "," (List.map CsvSpec.cellText fields).

(** The thirteen fields of a record whose original URL is a string. *)
Definition recordFields (p : Product) : list string :=
  CsvSpec.fieldsOf p (match p.(originalUrl) with JsString u => u | _ => EmptyString end).

End CsvReader.

(** The text of the CSV file: the header line and one line for each
    record, each line the cells of its fields separated by commas. *)
Definition csvText (products : list Product) : string :=
  Str.join UrlSpec.nl
    (Str.join "," Csv.headers
       :: List.map (fun p => Str.join "," (List.map CsvSpec.cellText
                                              (CsvReader.recordFields p)))
                   products).

Module DemoCsv.

(** A description of two lines. *)
Definition twoLines : string :=
  ("Runs well." ++ String Str.newline "Pick-up only, cash")%string.

(** Records whose fields hold quotes, commas and a line feed. *)
Definition awkward : list Product :=
  [Demo.listing CsvSpec.exampleField "$1,100";
   placeholder (JsString twoLines) Demo.urlA].

(** A record stamped with a URL that is a number, as an input file
    holding the JSON array [[42]] gives. *)
Definition numbered : Product :=
  withOriginalUrl (Demo.listing "Office PC" "$100") (JsNumber (NumFinite "42")).

End DemoCsv.

(** * Descriptions for the further properties *)

(** The navigations among the events: index and URL, in order. *)
Definition navigations (events : list Event) : list (nat * JsValue) :=
  List.flat_map (fun ev => match ev with
                           | Navigated index url => [(index, url)]
                           | _ => []
                           end) events.

(** The URLs whose visit reaches the extraction, with their indices,
    from index [i] on. *)
Fixpoint reachedVisits (i : nat) (urls : list JsValue) (visits : nat -> Visit)
  : list (nat * JsValue) :=
  match urls with
  | [] => []
  | url :: rest =>
      (if reaches (visits i) then [(i, url)] else [])
        ++ reachedVisits (S i) rest visits
  end.

(** The written files among the events. *)
Definition filesOf (events : list Event) : list Event :=
  List.filter isFileWritten events.

(** The directory the later revision writes into. *)
Definition outputDirOf (w : World) : string :=
  w.(pathJoin) (w.(pathJoin) w.(cwd) "output") w.(timestamp).

Definition jsonPathOf (rev : Revision) (w : World) (args : list string) : string :=
  match rev with
  | Standalone => "pc_listings.json"
  | Cli => w.(pathJoin) (outputDirOf w)
             (outputPrefixOf (parseArgs args) ++ ".json")%string
  end.

Definition csvPathOf (rev : Revision) (w : World) (args : list string) : string :=
  match rev with
  | Standalone => "pc_listings.csv"
  | Cli => w.(pathJoin) (outputDirOf w)
             (outputPrefixOf (parseArgs args) ++ ".csv")%string
  end.

(** The sample and listing lines among the events: position and record. *)
Definition shownRecords (events : list Event) : list (nat * Product) :=
  List.flat_map (fun ev => match ev with
                           | ConsoleLog (LSample position p) => [(position, p)]
                           | ConsoleLog (LListing position p) => [(position, p)]
                           | _ => []
                           end) events.

(** The records of a list with their positions, counted from [first]. *)
Fixpoint numbered (first : nat) (products : list Product) : list (nat * Product) :=
  match products with
  | [] => []
  | p :: rest => (first, p) :: numbered (S first) rest
  end.

(** Command lines by their parts. *)
Inductive Part : Type :=
| PInput (flag value : string)
| POutput (flag value : string)
| PHelp (flag : string)
| POther (word : string).

Definition isInputFlag (s : string) : bool :=
  String.eqb s "--input" || String.eqb s "-i".
Definition isOutputFlag (s : string) : bool :=
  String.eqb s "--output" || String.eqb s "-o".
Definition isHelpFlag (s : string) : bool :=
  String.eqb s "--help" || String.eqb s "-h".

(** A part is well formed when its flag is one of the two spellings and
    an other word is no flag at all. *)
Definition wellFormed (part : Part) : bool :=
  match part with
  | PInput flag _ => isInputFlag flag
  | POutput flag _ => isOutputFlag flag
  | PHelp flag => isHelpFlag flag
  | POther word => negb (isInputFlag word || isOutputFlag word || isHelpFlag word)
  end.

(** The words of a part on the command line. *)
Definition wordsOf (part : Part) : list string :=
  match part with
  | PInput flag value => [flag; value]
  | POutput flag value => [flag; value]
  | PHelp flag => [flag]
  | POther word => [word]
  end.

(** What a part does to the options. *)
Definition applyPart (options : Options) (part : Part) : Options :=
  match part with
  | PInput _ value => mkOptions (Some value) options.(outputPrefix) options.(showHelp)
  | POutput _ value => mkOptions options.(inputFile) (Some value) options.(showHelp)
  | PHelp _ => mkOptions options.(inputFile) options.(outputPrefix) true
  | POther _ => options
  end.

Module DemoMore.

(** A world in which a directory cannot be created. *)
Definition readOnly : World :=
  mkWorld (Some "sk-test") (Normal tt) (fun _ => Demo.good "Office PC" "$100")
          (Normal tt) "/home/user/scraper" Demo.join "2025-05-01T10-00-00"
          (fun _ => false) (fun _ => Throw (JsError "Error" "EACCES: permission denied"))
          (fun _ => Normal EmptyString) (fun _ => Normal tt)
          (fun _ => Throw Demo.syntaxError).

(** A world whose browser cannot be launched. *)
Definition noBrowser : World :=
  mkWorld (Some "sk-test") (Throw (JsError "Error" "Executable does not exist"))
          (fun _ => Demo.good "Office PC" "$100")
          (Normal tt) "/home/user/scraper" Demo.join "2025-05-01T10-00-00"
          (fun _ => false) (fun _ => Normal tt)
          (fun _ => Normal EmptyString) (fun _ => Normal tt)
          (fun _ => Throw Demo.syntaxError).

(** Three records priced 1.435. *)
Definition samePrice : list Product :=
  [Demo.listing "A" "$1.435"; Demo.listing "B" "$1.435"; Demo.listing "C" "$1.435"].

(** A world in which every extraction call throws. *)
Definition allExtractionsFail : World :=
  Demo.world (Some "sk-test") (fun _ => Demo.extractionFails) EmptyString
             (Throw Demo.syntaxError).

(** A file that holds a JSON array of two strings, one of them no URL. *)
Definition arrayFile : World :=
  Demo.world (Some "sk-test") (fun _ => Demo.good "Office PC" "$100")
             "[...]" (Normal (JsArray [JsString "https://a.example/1"; JsString "notes"])).

End DemoMore.

(** The URLs a run settles on: the command-line arguments or the
    built-in URLs in the first revision, and what the block of the later
    [main] that determines them returns. *)
Definition urlsOfRun (rev : Revision) (w : World) (args : list string)
  : list JsValue :=
  match rev with
  | Standalone =>
      if (0 <? List.length args)%nat then List.map JsString args else exampleUrls
  | Cli =>
      match Eff.completion (urlsToScrapeOf (St := unit) w (parseArgs args) tt) with
      | Normal urls => urls
      | Throw _ => []
      end
  end.

(** Whether a call returns or throws an instance of [Error]. *)
Definition throwsErrors {A : Type} (c : Completion A) : bool :=
  match c with
  | Normal _ => true
  | Throw e => Js.instanceofError e
  end.

(** Whether what the browser calls of a visit throw are instances of
    [Error], as the rejections of the browser library are. *)
Definition browserErrors (v : Visit) : bool :=
  throwsErrors v.(newContext) && throwsErrors v.(newPage)
  && throwsErrors v.(goto) && throwsErrors v.(closeContext).

(** The URLs of a run that reads no input file. *)
Definition chosenUrls (rev : Revision) (args : list string) : list JsValue :=
  match rev with
  | Standalone =>
      if (0 <? List.length args)%nat then List.map JsString args else exampleUrls
  | Cli => exampleUrls
  end.

(** * Properties *)

(** ** Strings *)

Lemma append_empty_r (s : string) : (s ++ EmptyString)%string = s.
Proof. induction s as [|c s IH]; simpl; [reflexivity|]. rewrite IH. reflexivity. Qed.

Lemma append_assoc (a b c : string) : ((a ++ b) ++ c)%string = (a ++ b ++ c)%string.
Proof. induction a as [|x a IH]; simpl; [reflexivity|]. rewrite IH. reflexivity. Qed.

(** ** The failure placeholder *)

Section ExtractionFacts.

Context {St : Type}.

Lemma errorMessageOf_result (error : JsValue) (s : St) :
  errorMessageOf error s
  = (match Spec.messageOfThrown error with
     | Normal message => Normal (JsString message)
     | Throw e => Throw e
     end, s, []).
Proof.
  destruct error as [| |b|n|t|els|props|name msg]; try reflexivity.
  - destruct b; reflexivity.
  - destruct n as [|neg| |text]; reflexivity.
  - unfold errorMessageOf, readProperty, Eff.bind, Eff.call; simpl.
    destruct (Js.assoc "message" props) as [m|]; [|reflexivity]. simpl.
    destruct (Js.stringOf m); reflexivity.
Qed.

Lemma extractProductInfo_result rev index runOutcome url (s : St) :
  extractProductInfo rev index runOutcome url s
  = (recordOf runOutcome url, s, extractEvents rev index runOutcome).
Proof.
  destruct runOutcome as [data|error].
  - destruct rev; reflexivity.
  - unfold extractProductInfo, Eff.tryCatch, recordOf.
    destruct rev; simpl; unfold Eff.bind; simpl;
      rewrite errorMessageOf_result;
      destruct (Spec.messageOfThrown error); reflexivity.
Qed.

End ExtractionFacts.

(** ** The loop of [scrapeProducts] *)

Lemma extracts_recordOf runOutcome url :
  extracts runOutcome = true ->
  exists product, recordOf runOutcome url = Normal product.
Proof.
  unfold extracts, recordOf. destruct runOutcome as [data|error]; intros H.
  - eexists. reflexivity.
  - destruct (Spec.messageOfThrown error); [eexists; reflexivity|discriminate].
Qed.

Lemma recordOf_extracts runOutcome url :
  returns (recordOf runOutcome url) = extracts runOutcome.
Proof.
  unfold extracts, recordOf. destruct runOutcome as [data|error]; [reflexivity|].
  destruct (Spec.messageOfThrown error); reflexivity.
Qed.

Lemma visitUrl_result rev n i url v products :
  visitUrl rev n i url v products
  = (Normal tt, products ++ recordsOfVisit v url, visitEvents rev n i url v).
Proof.
  unfold visitEvents, recordsOfVisit, reaches, visitUrl.
  destruct v as [nc np gt rn cl rnd]; simpl.
  unfold Eff.bind, Eff.tryCatch, Eff.call, Eff.log, Eff.emit, Eff.events.
  destruct nc as [[]|e]; [|destruct rev; simpl; rewrite app_nil_r; reflexivity].
  destruct np as [[]|e]; [|destruct rev; simpl; rewrite app_nil_r; reflexivity].
  destruct gt as [[]|e]; [|destruct rev; simpl; rewrite app_nil_r; reflexivity].
  rewrite !extractProductInfo_result.
  destruct (recordOf rn url) as [product|e].
  - destruct cl as [[]|e], rev, (Z.of_nat i <? Z.of_nat n - 1)%Z; reflexivity.
  - destruct rev; simpl; rewrite app_nil_r; reflexivity.
Qed.

Lemma visitFrom_result rev n urls visits : forall i products,
  visitFrom rev n i urls visits products
  = (Normal tt, products ++ expectedRecords i urls visits,
     loopEvents rev n i urls visits).
Proof.
  induction urls as [|url rest IH]; intros i products; simpl.
  - unfold Eff.ret. rewrite app_nil_r. reflexivity.
  - unfold Eff.bind. rewrite visitUrl_result, IH, app_assoc. reflexivity.
Qed.

Lemma scrapeProducts_result {St : Type} rev w urls (s : St) :
  hasApiKey w = true ->
  w.(launch) = Normal tt ->
  scrapeProducts rev w urls s
  = (match w.(closeBrowser) with
     | Normal _ => Normal (expectedRecords 0 urls w.(visit))
     | Throw e => Throw e
     end,
     s,
     [ConsoleLog (LStarting (List.length urls)); BrowserLaunched]
       ++ loopEvents rev (List.length urls) 0 urls w.(visit) ++ closingEvents w).
Proof.
  intros Hkey Hlaunch.
  unfold scrapeProducts, closingEvents. rewrite Hkey, Hlaunch. simpl.
  unfold Eff.bind, Eff.withLocal, Eff.tryFinally, Eff.call, Eff.log, Eff.emit; simpl.
  rewrite visitFrom_result. simpl.
  destruct (closeBrowser w) as [[]|e]; simpl; try rewrite app_nil_r; reflexivity.
Qed.

Lemma scrapeProducts_without_key {St : Type} rev w urls (s : St) :
  hasApiKey w = false ->
  scrapeProducts rev w urls s
  = (Throw (JsError "Error" "OPENAI_API_KEY environment variable is not set"),
     s, [ConsoleLog (LStarting (List.length urls))]).
Proof.
  intros Hkey. unfold scrapeProducts. rewrite Hkey. reflexivity.
Qed.

Lemma expectedRecords_length urls visits : forall i,
  List.length (expectedRecords i urls visits) <= List.length urls.
Proof.
  induction urls as [|url rest IH]; intros i; simpl; [lia|].
  rewrite length_app. specialize (IH (S i)).
  unfold recordsOfVisit.
  destruct (reaches (visits i)); [destruct (recordOf _ _)|]; simpl; lia.
Qed.

Lemma recordOf_url outcome url product :
  recordOf outcome url = Normal product -> product.(originalUrl) = url.
Proof.
  unfold recordOf. destruct outcome as [data|error].
  - intros H. inversion H. reflexivity.
  - destruct (Spec.messageOfThrown error); intros H; inversion H. reflexivity.
Qed.

Lemma recordsOfVisit_yields v url :
  recordsOfVisit v url
  = if yields v
    then match recordOf v.(run) url with Normal product => [product] | Throw _ => [] end
    else [].
Proof.
  unfold recordsOfVisit, yields. rewrite <- (recordOf_extracts (run v) url).
  destruct (reaches v); [|reflexivity].
  destruct (recordOf (run v) url); reflexivity.
Qed.

Lemma expectedRecords_urls urls visits : forall i,
  List.map originalUrl (expectedRecords i urls visits) = recordedUrls i urls visits.
Proof.
  induction urls as [|url rest IH]; intros i; simpl; [reflexivity|].
  rewrite map_app, IH. f_equal.
  rewrite recordsOfVisit_yields. destruct (yields (visits i)) eqn:Hy; [|reflexivity].
  unfold yields in Hy. apply andb_prop in Hy. destruct Hy as [_ Hx].
  destruct (extracts_recordOf _ url Hx) as [product Hp]. rewrite Hp. simpl.
  rewrite (recordOf_url _ _ _ Hp). reflexivity.
Qed.

Lemma expectedRecords_all_yield urls visits : forall i,
  (forall k, k < List.length urls -> yields (visits (i + k)) = true) ->
  forall k url, nth_error urls k = Some url ->
    exists product,
      recordOf (visits (i + k)).(run) url = Normal product
      /\ nth_error (expectedRecords i urls visits) k = Some product.
Proof.
  induction urls as [|u rest IH]; intros i Hall k url Hk.
  - destruct k; discriminate.
  - simpl. rewrite recordsOfVisit_yields.
    assert (H0 : yields (visits i) = true).
    { rewrite <- (Nat.add_0_r i). apply Hall. simpl. lia. }
    rewrite H0.
    assert (Hx : extracts (run (visits i)) = true).
    { unfold yields in H0. apply andb_prop in H0. tauto. }
    destruct (extracts_recordOf _ u Hx) as [first Hfirst]. rewrite Hfirst.
    destruct k as [|k]; simpl in *.
    + inversion Hk; subst. rewrite Nat.add_0_r. exists first. tauto.
    + replace (i + S k) with (S i + k) by lia. apply IH; [|exact Hk].
      intros j Hj. replace (S i + j) with (i + S j) by lia. apply Hall. lia.
Qed.

Lemma expectedRecords_all_yield_length urls visits : forall i,
  (forall k, k < List.length urls -> yields (visits (i + k)) = true) ->
  List.length (expectedRecords i urls visits) = List.length urls.
Proof.
  intros i Hall.
  rewrite <- (length_map originalUrl), expectedRecords_urls.
  revert i Hall.
  induction urls as [|u rest IH]; intros i Hall; simpl; [reflexivity|].
  assert (H0 : yields (visits i) = true).
  { rewrite <- (Nat.add_0_r i). apply Hall. simpl. lia. }
  rewrite H0. simpl. f_equal. apply IH.
  intros j Hj. replace (S i + j) with (i + S j) by lia. apply Hall. simpl. lia.
Qed.

Lemma recordedUrls_all_yield urls visits : forall i,
  (forall k, k < List.length urls -> yields (visits (i + k)) = true) ->
  recordedUrls i urls visits = urls.
Proof.
  induction urls as [|u rest IH]; intros i Hall; simpl; [reflexivity|].
  assert (H0 : yields (visits i) = true).
  { rewrite <- (Nat.add_0_r i). apply Hall. simpl. lia. }
  rewrite H0. simpl. f_equal. apply IH.
  intros j Hj. replace (S i + j) with (i + S j) by lia. apply Hall. simpl. lia.
Qed.

(** ** The delay *)

Module DoubleFacts.

#[local] Open Scope Z_scope.

Lemma exponentOf_nonneg p : 0 <= Double.exponentOf p.
Proof. unfold Double.exponentOf. lia. Qed.

Lemma round_bounds p :
  0 <= p ->
  0 <= Double.round p /\ 2 * Double.round p <= 2 * p + 2 ^ Double.exponentOf p.
Proof.
  intros Hp. unfold Double.round.
  pose proof (exponentOf_nonneg p) as He.
  set (E := 2 ^ Double.exponentOf p).
  assert (HE : 0 < E) by (apply Z.pow_pos_nonneg; lia).
  pose proof (Z.div_mod p E ltac:(lia)) as Hdm.
  pose proof (Z.mod_pos_bound p E HE) as Hr.
  assert (Hq : 0 <= p / E) by (apply Z.div_pos; lia).
  destruct (Z.ltb_spec (2 * (p mod E)) E);
    [|destruct (Z.ltb_spec E (2 * (p mod E)));
      [|destruct (Z.even (p / E))]]; nia.
Qed.

(** The largest double below 1 is [1 - 2^-53]. *)
Lemma random_below_one x :
  Double.isRandom x -> 0 <= x <= 2 ^ 53 * 2 ^ 1021 - 2 ^ 1021.
Proof.
  intros [Hrep [H0 H1]]. unfold Double.one in H1.
  assert (Hsplit : 2 ^ 1074 = 2 ^ 53 * 2 ^ 1021)
    by (rewrite <- Z.pow_add_r by lia; reflexivity).
  assert (Hhalf : 2 ^ 1074 = 2 * 2 ^ 1073)
    by (rewrite <- Z.pow_succ_r by lia; reflexivity).
  assert (HU : 0 < 2 ^ 1021) by (apply Z.pow_pos_nonneg; lia).
  assert (H52 : 2 ^ 1073 = 2 ^ 52 * 2 ^ 1021)
    by (rewrite <- Z.pow_add_r by lia; reflexivity).
  rewrite Hsplit in *.
  split; [exact H0|].
  destruct (Z.lt_ge_cases x (2 ^ 1073)) as [Hsmall|Hbig].
  - change (2 ^ 53) with 9007199254740992. change (2 ^ 52) with 4503599627370496 in H52.
    lia.
  - assert (Hlog : Z.log2 x = 1073).
    { apply Z.log2_unique; [lia|]. split; [exact Hbig|].
      replace (Z.succ 1073) with 1074 by lia. rewrite Hsplit. exact H1. }
    unfold Double.representable in Hrep.
    apply andb_prop in Hrep. destruct Hrep as [_ Hmod].
    apply Z.eqb_eq in Hmod.
    unfold Double.exponentOf in Hmod. rewrite Hlog in Hmod.
    change (Z.max 0 (1073 - 52)) with 1021 in Hmod.
    pose proof (Z.div_mod x (2 ^ 1021) ltac:(lia)) as Hdm.
    rewrite Hmod in Hdm.
    set (U := 2 ^ 1021) in *. set (k := x / U) in *.
    change (2 ^ 53) with 9007199254740992 in *.
    nia.
Qed.

Lemma delayOf_range x :
  Double.isRandom x -> 1000 <= delayOf x <= 2999.
Proof.
  intros Hx. pose proof (random_below_one x Hx) as [H0 Hmax].
  unfold delayOf, Double.mul, Double.floor, Double.one.
  assert (Hsplit : 2 ^ 1074 = 2 ^ 53 * 2 ^ 1021)
    by (rewrite <- Z.pow_add_r by lia; reflexivity).
  assert (H1032 : 2 ^ 1032 = 2048 * 2 ^ 1021)
    by (vm_compute; reflexivity).
  assert (H1085 : 2 ^ 1085 = 2048 * (2 ^ 53 * 2 ^ 1021))
    by (vm_compute; reflexivity).
  assert (HU : 0 < 2 ^ 1021) by (apply Z.pow_pos_nonneg; lia).
  set (p := x * 2000).
  assert (Hp : 0 <= p) by (unfold p; lia).
  destruct (round_bounds p Hp) as [Hr0 Hr1].
  assert (He : 2 ^ Double.exponentOf p <= 2 ^ 1032).
  { apply Z.pow_le_mono_r; [lia|]. unfold Double.exponentOf.
    destruct (Z.eq_dec p 0) as [->|Hnz]; [simpl; lia|].
    assert (Z.log2 p < 1085).
    { apply Z.log2_lt_pow2; [lia|]. rewrite H1085. unfold p.
      change (2 ^ 53) with 9007199254740992 in *. lia. }
    lia. }
  rewrite Hsplit.
  assert (Hlt : Double.round p < 2000 * (2 ^ 53 * 2 ^ 1021)).
  { rewrite H1032 in He. assert (Hpx : p = x * 2000) by reflexivity.
    change (2 ^ 53) with 9007199254740992 in *. lia. }
  assert (Hpos : 0 < 2 ^ 53 * 2 ^ 1021) by lia.
  pose proof (Z.div_pos (Double.round p) _ Hr0 Hpos).
  assert (Double.round p / (2 ^ 53 * 2 ^ 1021) < 2000).
  { apply Z.div_lt_upper_bound; lia. }
  lia.
Qed.

(** Both ends of the range are reached: at 0, and at the largest
    double below 1. *)
Lemma delayOf_least : delayOf 0 = 1000%Z.
Proof. reflexivity. Qed.


Lemma leb_refl x : Double.leb x x = true.
Proof. destruct x; simpl; [apply Z.leb_refl|reflexivity]. Qed.

Lemma leb_trans x y z :
  Double.leb x y = true -> Double.leb y z = true -> Double.leb x z = true.
Proof.
  destruct x, y, z; simpl; try discriminate; try reflexivity.
  rewrite !Z.leb_le. lia.
Qed.

Lemma leb_total x y : Double.leb x y = false -> Double.leb y x = true.
Proof.
  destruct x, y; simpl; try discriminate; try reflexivity.
  rewrite Z.leb_gt, Z.leb_le. lia.
Qed.

(** A whole number below [2^53], in units, is a multiple of the weight
    of its last bit. *)
Lemma whole_decomposed z :
  0 < z < 2 ^ 53 ->
  let e := Double.exponentOf (z * Double.one) in
  0 <= e /\ z * Double.one = (z * 2 ^ (1074 - e)) * 2 ^ e /\ 0 <= 1074 - e.
Proof.
  intros [Hpos Hlt] e.
  assert (Hlog : Z.log2 (z * Double.one) = 1074 + Z.log2 z).
  { unfold Double.one. apply Z.log2_mul_pow2; lia. }
  assert (Hsmall : Z.log2 z < 53) by (apply Z.log2_lt_pow2; lia).
  pose proof (Z.log2_nonneg z) as Hnn.
  assert (He : e = Z.log2 z + 1022).
  { unfold e, Double.exponentOf. rewrite Hlog. lia. }
  split; [lia|]. split; [|lia].
  rewrite <- Z.mul_assoc, <- Z.pow_add_r by lia.
  unfold Double.one. f_equal. f_equal. lia.
Qed.

Lemma round_whole z : 0 <= z < 2 ^ 53 -> Double.round (z * Double.one) = z * Double.one.
Proof.
  intros [H0 Hlt].
  destruct (Z.eq_dec z 0) as [->|Hnz]; [reflexivity|].
  destruct (whole_decomposed z ltac:(lia)) as (He & Hdec & _).
  unfold Double.round.
  set (e := Double.exponentOf (z * Double.one)) in *.
  assert (HE : 0 < 2 ^ e) by (apply Z.pow_pos_nonneg; lia).
  assert (Hmod : (z * Double.one) mod 2 ^ e = 0)
    by (rewrite Hdec; apply Z.mod_mul; lia).
  assert (Hdiv : z * Double.one / 2 ^ e = z * 2 ^ (1074 - e))
    by (rewrite Hdec; apply Z.div_mul; lia).
  rewrite Hmod, Hdiv.
  destruct (Z.ltb_spec (2 * 0) (2 ^ e)); [|lia].
  symmetry. exact Hdec.
Qed.

Lemma roundRatio_whole k n :
  0 <= k < 2 ^ 53 -> 0 < n ->
  Double.roundRatio (n * k * Double.one) n = k * Double.one.
Proof.
  intros [H0 Hlt] Hn.
  assert (Hquot : n * k * Double.one / n = k * Double.one).
  { rewrite <- Z.mul_assoc, Z.mul_comm, Z.div_mul by lia. reflexivity. }
  destruct (Z.eq_dec k 0) as [->|Hnz].
  { unfold Double.roundRatio. rewrite Hquot. rewrite Z.mul_0_r, Z.mul_0_l.
    change (Double.exponentOf 0) with 0. rewrite Z.mul_1_r.
    rewrite Z.mod_0_l, Z.div_0_l by lia.
    destruct (Z.ltb_spec (2 * 0) n); [reflexivity|lia]. }
  destruct (whole_decomposed k ltac:(lia)) as (He & Hdec & _).
  unfold Double.roundRatio. rewrite Hquot.
  set (e := Double.exponentOf (k * Double.one)) in *.
  assert (HE : 0 < 2 ^ e) by (apply Z.pow_pos_nonneg; lia).
  assert (Hd : 0 < n * 2 ^ e) by lia.
  assert (Ha : n * k * Double.one = (k * 2 ^ (1074 - e)) * (n * 2 ^ e)).
  { rewrite <- Z.mul_assoc, Hdec. ring. }
  rewrite Ha, Z.mod_mul, Z.div_mul by lia.
  destruct (Z.ltb_spec (2 * 0) (n * 2 ^ e)); [|lia].
  symmetry. exact Hdec.
Qed.

Lemma ofUnits_whole z : 0 <= z < 2 ^ 53 -> Double.ofUnits (z * Double.one) = Double.whole z.
Proof.
  intros [H0 Hlt]. unfold Double.ofUnits, Double.whole.
  assert (Hone : 0 < Double.one) by (unfold Double.one; apply Z.pow_pos_nonneg; lia).
  assert (Hover : Double.overflow = 2 ^ 1024 * Double.one).
  { unfold Double.overflow, Double.one. rewrite <- Z.pow_add_r by lia. reflexivity. }
  assert (H53 : 2 ^ 53 < 2 ^ 1024) by (apply Z.pow_lt_mono_r; lia).
  destruct (Z.ltb_spec (z * Double.one) Double.overflow); [reflexivity|].
  rewrite Hover in *. nia.
Qed.

(** On whole numbers with a sum below [2^53] the sum is exact. *)
Lemma add_whole a b :
  0 <= a -> 0 <= b -> a + b < 2 ^ 53 ->
  Double.add (Double.whole a) (Double.whole b) = Double.whole (a + b).
Proof.
  intros Ha Hb Hsum. unfold Double.add, Double.whole at 1 2.
  rewrite <- Z.mul_add_distr_r, round_whole by lia.
  apply ofUnits_whole. lia.
Qed.

(** A quotient of whole numbers that is whole is exact. *)
Lemma divide_whole k n :
  0 <= k < 2 ^ 53 -> 0 < n ->
  Double.divide (Double.whole (n * k)) n = Double.whole k.
Proof.
  intros Hk Hn. unfold Double.divide, Double.whole at 1.
  rewrite roundRatio_whole by assumption. apply ofUnits_whole. exact Hk.
Qed.

End DoubleFacts.

Lemma extractEvents_no_sleep rev i outcome :
  List.filter isSlept (extractEvents rev i outcome) = [].
Proof. destruct outcome, rev; reflexivity. Qed.

Lemma visitEvents_completed rev n i url v :
  completes v = true ->
  visitEvents rev n i url v
  = visitEventsToClose rev n i url v
    ++ (if (Z.of_nat i <? Z.of_nat n - 1)%Z
        then waitingLine rev (delayOf v.(random)) ++ [Slept (delayOf v.(random))]
        else []).
Proof.
  unfold completes, yields, reaches, visitEvents, visitEventsToClose, visitUrl.
  destruct v as [nc np gt rn cl rnd]; simpl.
  destruct nc as [[]|e]; [|discriminate].
  destruct np as [[]|e]; [|discriminate].
  destruct gt as [[]|e]; [|discriminate].
  destruct (extracts rn) eqn:Hx; [|discriminate].
  destruct cl as [[]|e]; [|discriminate].
  intros _.
  unfold Eff.bind, Eff.tryCatch, Eff.call, Eff.log, Eff.emit, Eff.events.
  rewrite !extractProductInfo_result.
  destruct (extracts_recordOf rn url Hx) as [product ->].
  destruct rev, rn, (Z.of_nat i <? Z.of_nat n - 1)%Z; reflexivity.
Qed.

Lemma visitEventsToClose_no_sleep rev n i url v :
  List.filter isSlept (visitEventsToClose rev n i url v) = [].
Proof.
  unfold visitEventsToClose. destruct rev, (run v); reflexivity.
Qed.



Lemma closingEvents_no_sleep w : List.filter isSlept (closingEvents w) = [].
Proof. unfold closingEvents. destruct (closeBrowser w); reflexivity. Qed.

(** ** Claims about [extractProductInfo] *)

(** When the extraction call throws a value whose message can be taken,
    [extractProductInfo] returns a record whose title is "Extraction
    Failed", whose description contains that message, whose image URL is
    empty, whose original URL is the URL it was given, and whose nine
    other fields are "Unknown". *)
Lemma extraction_failure_placeholder {St : Type} rev index error message url (s : St) :
  Spec.messageOfThrown error = Normal message ->
  exists p,
    Eff.completion (extractProductInfo rev index (Throw error) url s) = Normal p
    /\ p.(title) = "Extraction Failed"
    /\ Str.includes message p.(description)
    /\ p.(imageUrl) = EmptyString
    /\ p.(originalUrl) = url
    /\ p.(price) = "Unknown" /\ p.(brand) = "Unknown" /\ p.(model) = "Unknown"
    /\ p.(cpu) = "Unknown" /\ p.(ram) = "Unknown" /\ p.(storage) = "Unknown"
    /\ p.(availability) = "Unknown" /\ p.(quantity) = "Unknown"
    /\ p.(location) = "Unknown".
Proof.
  intros Hmessage.
  rewrite extractProductInfo_result. unfold recordOf. rewrite Hmessage.
  eexists; split; [reflexivity|]. simpl.
  repeat split.
  exists "Failed to extract information: ", EmptyString.
  rewrite append_empty_r. reflexivity.
Qed.

(** C4.  When the extraction call throws an object whose [message] is an
    object with a [toString] property that is no function, the [catch]
    branch of [extractProductInfo] returns no placeholder: after its
    console line it throws the [TypeError] of the conversion, in either
    revision.  The loop of [scrapeProducts] catches it, and the URL has
    no record in the output. *)
Theorem extraction_failure_without_placeholder :
  (forall rev url,
     extractProductInfo rev 0 (Throw Demo.unprintable) url tt
     = (Throw Js.cannotConvert, tt, extractEvents rev 0 (Throw Demo.unprintable)))
  /\ scrapeProducts Cli Demo.messageUnprintable [Demo.urlA] tt
     = (Normal [], tt,
        [ConsoleLog (LStarting 1); BrowserLaunched;
         ConsoleLog (LProcessing 1 1 None); ContextOpened 0; PageOpened 0;
         Navigated 0 Demo.urlA;
         ConsoleError (LErrorExtracting Demo.unprintable);
         ConsoleError (LFailed "Cannot convert object to primitive value");
         BrowserClosed]).
Proof.
  split; [intros [] url; reflexivity|reflexivity].
Qed.

(** The normalisation of a thrown value in the [catch] branch, case by
    case: the message of an [Error], a thrown string itself, the
    [message] property of an object converted to a string, and "Unknown
    error" for any other value; when it ends normally, the description
    of the placeholder is "Failed to extract information: " followed by
    that string. *)
Lemma error_normalisation {St : Type} error (s : St) :
  errorMessageOf error s
  = (match Spec.messageOfThrown error with
     | Normal message => Normal (JsString message)
     | Throw e => Throw e
     end, s, [])
  /\ forall rev index url message,
       Spec.messageOfThrown error = Normal message ->
       exists p,
         Eff.completion (extractProductInfo rev index (Throw error) url s) = Normal p
         /\ p.(description)
            = ("Failed to extract information: " ++ message)%string.
Proof.
  split; [apply errorMessageOf_result|].
  intros rev index url message Hmessage.
  rewrite extractProductInfo_result. unfold recordOf. rewrite Hmessage.
  eexists; split; reflexivity.
Qed.

(** C10.  The normalisation of a thrown value is not total.  The object
    whose [message] is an object with a [toString] property that is no
    function is not an [Error] and not a string, it is an object with a
    [message] property, and [String] of that property throws a
    [TypeError]: the normalisation throws it. *)
Theorem error_normalisation_throws :
  Js.instanceofError Demo.unprintable = false
  /\ Js.isString Demo.unprintable = false
  /\ Js.hasProperty "message" Demo.unprintable = true
  /\ Js.stringOf (JsObject [("toString", JsNumber (NumFinite "1"))])
     = Throw Js.cannotConvert
  /\ errorMessageOf Demo.unprintable tt = (Throw Js.cannotConvert, tt, []).
Proof.
  repeat split.
Qed.

(** ** Claims about [scrapeProducts] *)

(** C1.  With two URLs of which the first cannot be navigated to,
    [scrapeProducts] returns one record, that of the second URL: the
    first URL has no record in the output, not even a placeholder. *)
Theorem scrapeProducts_omits_failed_navigation :
  let urls := [Demo.urlA; Demo.urlB] in
  exists products,
    Eff.completion (scrapeProducts Cli Demo.firstTimesOut urls tt) = Normal products
    /\ List.map originalUrl products = [Demo.urlB]
    /\ List.length products <> List.length urls.
Proof.
  eexists. split; [vm_compute; reflexivity|].
  split; [reflexivity|]. simpl. lia.
Qed.

(** With the credential present and the browser launched and closed
    without error, [scrapeProducts] returns, in input order, the records
    of the visits that append one: the extracted record stamped with the
    URL, or the placeholder for that URL when the extraction call
    throws.  The output is never longer than the input, and when every
    visit appends its record it has the length of the input and its
    [i]-th record is the one of the [i]-th URL. *)
Lemma scrapeProducts_records {St : Type} rev w urls (s : St) :
  hasApiKey w = true ->
  w.(launch) = Normal tt ->
  w.(closeBrowser) = Normal tt ->
  let products := expectedRecords 0 urls w.(visit) in
  Eff.completion (scrapeProducts rev w urls s) = Normal products
  /\ List.map originalUrl products = recordedUrls 0 urls w.(visit)
  /\ List.length products <= List.length urls
  /\ ((forall i, i < List.length urls -> yields (w.(visit) i) = true) ->
      List.length products = List.length urls
      /\ List.map originalUrl products = urls
      /\ forall i url, nth_error urls i = Some url ->
           exists product,
             recordOf (w.(visit) i).(run) url = Normal product
             /\ nth_error products i = Some product).
Proof.
  intros Hkey Hlaunch Hclose products.
  rewrite (scrapeProducts_result rev w urls s Hkey Hlaunch), Hclose.
  split; [reflexivity|].
  split; [apply expectedRecords_urls|].
  split; [apply expectedRecords_length|].
  intros Hall. split; [|split].
  - apply expectedRecords_all_yield_length. exact Hall.
  - unfold products. rewrite expectedRecords_urls.
    apply recordedUrls_all_yield. exact Hall.
  - intros i url Hi.
    apply (expectedRecords_all_yield urls (visit w) 0 Hall i url Hi).
Qed.

Lemma scrapeProducts_records_example :
  let urls := [Demo.urlA; Demo.urlB] in
  exists products,
    Eff.completion (scrapeProducts Cli Demo.allGood urls tt) = Normal products
    /\ List.length products = 2
    /\ List.map originalUrl products = urls.
Proof.
  intros urls.
  destruct (scrapeProducts_records Cli Demo.allGood urls tt
              eq_refl eq_refl eq_refl) as (Hret & _ & _ & Hall).
  destruct (Hall (fun i _ => eq_refl)) as (Hlen & Hurls & _).
  eexists. split; [exact Hret|]. split; [exact Hlen|exact Hurls].
Qed.

(** C2.  On two URLs of which the first cannot be navigated to, the
    context opened for the first URL is never closed by the loop: the
    second context is opened while the first is still open. *)
Theorem scrapeProducts_leaves_context_open :
  let events :=
    Eff.events (scrapeProducts Cli Demo.firstTimesOut
                  [Demo.urlA; Demo.urlB] tt) in
  events
  = [ConsoleLog (LStarting 2); BrowserLaunched;
     ConsoleLog (LProcessing 1 2 None); ContextOpened 0; PageOpened 0;
     ConsoleError (LFailed "Timeout 30000ms exceeded");
     ConsoleLog (LProcessing 2 2 None); ContextOpened 1; PageOpened 1;
     Navigated 1 Demo.urlB; Extracted 1; ConsoleLog LDone; ContextClosed 1;
     BrowserClosed]
  /\ In (ContextOpened 0) events
  /\ ~ In (ContextClosed 0) events.
Proof.
  split; [vm_compute; reflexivity|].
  split; [vm_compute; tauto|].
  vm_compute. intros H.
  repeat (destruct H as [H|H]; [discriminate H|]). exact H.
Qed.

(** A visit that opens its context and then fails to open the page or
    to navigate never closes that context, in either revision. *)
Lemma visitEvents_context_not_closed rev n i url v :
  v.(newContext) = Normal tt ->
  reaches v = false ->
  In (ContextOpened i) (visitEvents rev n i url v)
  /\ ~ In (ContextClosed i) (visitEvents rev n i url v).
Proof.
  unfold reaches, visitEvents, visitUrl.
  destruct v as [nc np gt rn cl rnd]; simpl.
  intros -> Hfail.
  unfold Eff.bind, Eff.tryCatch, Eff.call, Eff.log, Eff.emit, Eff.events.
  destruct np as [[]|e].
  - destruct gt as [[]|e]; [discriminate|].
    destruct rev; simpl; (split; [tauto|]); intros H;
      repeat (destruct H as [H|H]; [discriminate H|]); exact H.
  - destruct rev; simpl; (split; [tauto|]); intros H;
      repeat (destruct H as [H|H]; [discriminate H|]); exact H.
Qed.

(** A visit whose body runs to its end closes its context, whether the
    extraction succeeded or threw. *)
Lemma visitEvents_context_closed rev n i url v :
  completes v = true ->
  In (ContextClosed i) (visitEvents rev n i url v).
Proof.
  intros H. rewrite (visitEvents_completed rev n i url v H).
  apply in_or_app. left. unfold visitEventsToClose.
  apply in_or_app. right. apply in_or_app. right.
  apply in_or_app. right. left. reflexivity.
Qed.



Lemma half_isRandom : Double.isRandom Demo.half.
Proof.
  split; [vm_compute; reflexivity|].
  split; [vm_compute; discriminate|vm_compute; reflexivity].
Defined.


(** ** The report *)

Module PriceFacts.

Lemma min2_le_l a b : Double.leb (Price.min2 a b) a = true.
Proof.
  unfold Price.min2. destruct (Double.leb a b) eqn:E.
  - apply DoubleFacts.leb_refl.
  - apply DoubleFacts.leb_total. exact E.
Qed.

Lemma min2_le_r a b : Double.leb (Price.min2 a b) b = true.
Proof.
  unfold Price.min2. destruct (Double.leb a b) eqn:E.
  - exact E.
  - apply DoubleFacts.leb_refl.
Qed.

Lemma max2_ge_l a b : Double.leb a (Price.max2 a b) = true.
Proof.
  unfold Price.max2. destruct (Double.leb a b) eqn:E.
  - exact E.
  - apply DoubleFacts.leb_refl.
Qed.

Lemma max2_ge_r a b : Double.leb b (Price.max2 a b) = true.
Proof.
  unfold Price.max2. destruct (Double.leb a b) eqn:E.
  - apply DoubleFacts.leb_refl.
  - apply DoubleFacts.leb_total. exact E.
Qed.

Lemma mathMin_spec rest : forall first,
  In (Price.mathMin first rest) (first :: rest)
  /\ forall q, In q (first :: rest) ->
       Double.leb (Price.mathMin first rest) q = true.
Proof.
  unfold Price.mathMin.
  induction rest as [|x rest IH]; intros first; simpl.
  - split; [left; reflexivity|]. intros q [<-|[]]. apply DoubleFacts.leb_refl.
  - destruct (IH (Price.min2 first x)) as [Hin Hle]. split.
    + destruct Hin as [Heq|Hin]; [|right; right; exact Hin].
      rewrite <- Heq. unfold Price.min2. destruct (Double.leb first x); tauto.
    + intros q [<-|[<-|Hq]].
      * eapply DoubleFacts.leb_trans; [apply Hle; left; reflexivity|apply min2_le_l].
      * eapply DoubleFacts.leb_trans; [apply Hle; left; reflexivity|apply min2_le_r].
      * apply Hle. right. exact Hq.
Qed.

Lemma mathMax_spec rest : forall first,
  In (Price.mathMax first rest) (first :: rest)
  /\ forall q, In q (first :: rest) ->
       Double.leb q (Price.mathMax first rest) = true.
Proof.
  unfold Price.mathMax.
  induction rest as [|x rest IH]; intros first; simpl.
  - split; [left; reflexivity|]. intros q [<-|[]]. apply DoubleFacts.leb_refl.
  - destruct (IH (Price.max2 first x)) as [Hin Hle]. split.
    + destruct Hin as [Heq|Hin]; [|right; right; exact Hin].
      rewrite <- Heq. unfold Price.max2. destruct (Double.leb first x); tauto.
    + intros q [<-|[<-|Hq]].
      * eapply DoubleFacts.leb_trans; [apply max2_ge_l|apply Hle; left; reflexivity].
      * eapply DoubleFacts.leb_trans; [apply max2_ge_r|apply Hle; left; reflexivity].
      * apply Hle. right. exact Hq.
Qed.

(** The explicit test against "Unknown" changes nothing: that string
    has no digit and no point, so it does not parse. *)
Lemma priceOf_numericPrice p : Price.priceOf p = numericPrice p.
Proof.
  unfold Price.priceOf, numericPrice.
  destruct (String.eqb_spec (price p) "Unknown") as [->|_]; reflexivity.
Qed.

Lemma pricesOf_numericPrices products :
  Price.pricesOf products = numericPrices products.
Proof.
  unfold Price.pricesOf, numericPrices.
  induction products as [|p rest IH]; simpl; [reflexivity|].
  rewrite priceOf_numericPrice, IH. destruct (numericPrice p); reflexivity.
Qed.

Lemma numericPrices_successful products :
  (forall p, In p products -> Price.isSuccessful p = false -> p.(price) = "Unknown") ->
  numericPrices products = numericPrices (List.filter Price.isSuccessful products).
Proof.
  induction products as [|p rest IH]; intros Hph; simpl; [reflexivity|].
  rewrite IH by (intros q Hq; apply Hph; right; exact Hq).
  destruct (Price.isSuccessful p) eqn:E; simpl; [reflexivity|].
  unfold numericPrice at 1. rewrite (Hph p (or_introl eq_refl) E). reflexivity.
Qed.

Section WholePrices.

#[local] Open Scope Z_scope.

Lemma total_whole values : forall acc,
  0 <= acc ->
  Forall (fun z => 0 <= z) values ->
  acc + sumOf values < 2 ^ 53 ->
  fold_left Double.add (List.map Double.whole values) (Double.whole acc)
  = Double.whole (acc + sumOf values).
Proof.
  induction values as [|z values IH]; intros acc Hacc Hall Hsum.
  - simpl. rewrite Z.add_0_r. reflexivity.
  - inversion Hall as [|? ? Hz Hrest]; subst.
    change (sumOf (z :: values)) with (z + sumOf values) in *.
    cbn [List.map fold_left].
    assert (0 <= sumOf values).
    { clear -Hrest. induction Hrest; [simpl; lia|].
      change (sumOf (x :: l)) with (x + sumOf l). lia. }
    rewrite DoubleFacts.add_whole by lia. rewrite IH by (try assumption; lia).
    f_equal. lia.
Qed.

(** The mean of whole prices is exact when it is whole and their sum is
    below [2^53]. *)
Lemma average_whole values mean :
  values <> [] ->
  Forall (fun z => 0 <= z) values ->
  sumOf values = Z.of_nat (List.length values) * mean ->
  sumOf values < 2 ^ 53 ->
  Price.average (List.map Double.whole values) = Double.whole mean.
Proof.
  intros Hne Hall Hmean Hsum.
  unfold Price.average, Price.total.
  change (Double.Finite 0) with (Double.whole 0).
  rewrite total_whole by (try assumption; lia).
  rewrite length_map. simpl Z.add.
  assert (Hn : 0 < Z.of_nat (List.length values)).
  { destruct values; [contradiction|simpl; lia]. }
  assert (0 <= sumOf values).
  { clear -Hall. induction Hall; [simpl; lia|].
    change (sumOf (x :: l)) with (x + sumOf l). lia. }
  rewrite Hmean. apply DoubleFacts.divide_whole; [|exact Hn]. nia.
Qed.

End WholePrices.

End PriceFacts.

Lemma samplesFrom_events {St : Type} displayCount products : forall i (s : St),
  exists events,
    samplesFrom displayCount i products s = (Normal tt, s, events)
    /\ List.filter isStatisticsLine events = [].
Proof.
  induction products as [|p rest IH]; intros i s; simpl.
  - exists []. split; reflexivity.
  - destruct (i <? displayCount)%nat.
    + destruct (IH (S i) s) as (events & Hrun & Hnone).
      exists (ConsoleLog (LSample (i + 1) p) :: events).
      unfold Eff.bind, Eff.log, Eff.emit. rewrite Hrun. split; [reflexivity|].
      simpl. exact Hnone.
    + exists []. split; reflexivity.
Qed.

(** The statistics lines of the summary: none unless some record is
    successful, and then those of the numeric prices of all records. *)
Lemma displayProducts_statistics {St : Type} products (s : St) :
  List.filter isStatisticsLine (Eff.events (displayProducts Cli products s))
  = if (0 <? successfulCount products)%nat
    then statisticsLines (numericPrices products)
    else [].
Proof.
  unfold displayProducts, successfulCount.
  rewrite <- PriceFacts.pricesOf_numericPrices.
  remember (Nat.min 3 (List.length products)) as displayCount eqn:Hcount.
  remember (List.length (List.filter Price.isSuccessful products)) as successful
    eqn:Hsuccessful.
  clear Hcount Hsuccessful.
  destruct (samplesFrom_events displayCount products 0 s)
    as (samples & Hrun & Hnone).
  unfold Eff.bind, Eff.when, Eff.log, Eff.emit, Eff.events, Eff.ret.
  destruct (0 <? successful)%nat, (0 <? displayCount)%nat;
    try destruct (Price.pricesOf products) as [|first rest];
    rewrite ?Hrun; simpl; rewrite ?filter_app, ?Hnone; reflexivity.
Qed.

(** C5, as stated, fails: a record titled "Extraction Failed" whose
    price is "$50" is not in the successful subset, and its price is the
    reported minimum. *)
Lemma statistics_include_unsuccessful_record :
  Price.isSuccessful DemoReport.mistitled = false
  /\ List.filter isStatisticsLine
       (Eff.events (displayProducts Cli DemoReport.mixed tt))
     = [ConsoleLog (LPriceRange (Double.whole 50) (Double.whole 100));
        ConsoleLog (LAveragePrice (Double.whole 75))]
  /\ numericPrices (List.filter Price.isSuccessful DemoReport.mixed)
     = [Double.whole 100].
Proof.
  split; [reflexivity|]. split; vm_compute; reflexivity.
Qed.

(** C5 (amended).  The price statistics are reported only when some
    record is successful, and are then computed over the prices of all
    records that parse to a number once every character other than a
    digit or a point is removed: the reported minimum and maximum are
    among those numbers and bound them, and the reported mean is their
    sum, taken from the left in double arithmetic, divided by their
    count, which is exact when the prices are whole numbers with a sum
    below [2^53] and the mean is whole.  When every unsuccessful record
    has the price "Unknown", as every placeholder has, those numbers are
    the ones of the successful records.  For three records priced
    "$100", "$300" and "Unknown", one of them successful, the minimum is
    100, the maximum 300 and the mean 200. *)
Theorem price_statistics {St : Type} products (s : St) :
  let reported :=
    List.filter isStatisticsLine (Eff.events (displayProducts Cli products s)) in
  (reported = if (0 <? successfulCount products)%nat
              then statisticsLines (numericPrices products)
              else [])
  /\ (forall first rest, numericPrices products = first :: rest ->
      let prices := first :: rest in
      In (Price.mathMin first rest) prices
      /\ In (Price.mathMax first rest) prices
      /\ (forall q, In q prices ->
            Double.leb (Price.mathMin first rest) q = true
            /\ Double.leb q (Price.mathMax first rest) = true)
      /\ Price.average prices
         = Double.divide (fold_left Double.add prices (Double.whole 0))
                         (Z.of_nat (List.length prices)))
  /\ ((forall p, In p products -> Price.isSuccessful p = false ->
                 p.(price) = "Unknown") ->
      numericPrices products = numericPrices (List.filter Price.isSuccessful products))
  /\ (forall values mean,
        numericPrices products = List.map Double.whole values ->
        values <> [] ->
        Forall (fun z => (0 <= z)%Z) values ->
        sumOf values = (Z.of_nat (List.length values) * mean)%Z ->
        (sumOf values < 2 ^ 53)%Z ->
        Price.average (numericPrices products) = Double.whole mean)
  /\ (forall a b c,
        products = [a; b; c] ->
        a.(price) = "$100" -> b.(price) = "$300" -> c.(price) = "Unknown" ->
        (0 <? successfulCount products)%nat = true ->
        reported = [ConsoleLog (LPriceRange (Double.whole 100) (Double.whole 300));
                    ConsoleLog (LAveragePrice (Double.whole 200))]).
Proof.
  intros reported.
  assert (Hreported := displayProducts_statistics products s).
  fold reported in Hreported.
  split; [exact Hreported|]. split; [|split; [|split]].
  - intros first rest _ prices.
    destruct (PriceFacts.mathMin_spec rest first) as [Hmin Hlow].
    destruct (PriceFacts.mathMax_spec rest first) as [Hmax Hhigh].
    split; [exact Hmin|]. split; [exact Hmax|]. split.
    + intros q Hq. split; [apply Hlow|apply Hhigh]; exact Hq.
    + reflexivity.
  - apply PriceFacts.numericPrices_successful.
  - intros values mean -> Hne Hall Hmean Hsum.
    apply PriceFacts.average_whole; assumption.
  - intros a b c -> Ha Hb Hc Hsome.
    rewrite Hsome in Hreported. rewrite Hreported.
    unfold numericPrices, numericPrice, flat_map. rewrite Ha, Hb, Hc.
    vm_compute. reflexivity.
Qed.

Lemma price_statistics_witness :
  let products :=
    [Demo.listing "Office PC" "$100"; Demo.listing "Gaming PC" "$300";
     placeholder (JsString "No object generated") Demo.urlA] in
  List.filter isStatisticsLine (Eff.events (displayProducts Cli products tt))
  = [ConsoleLog (LPriceRange (Double.whole 100) (Double.whole 300));
     ConsoleLog (LAveragePrice (Double.whole 200))]
  /\ numericPrices products = numericPrices (List.filter Price.isSuccessful products).
Proof.
  intros products.
  destruct (price_statistics products tt) as (_ & _ & Hsubset & _ & Hexample).
  split; [exact (Hexample _ _ _ eq_refl eq_refl eq_refl eq_refl eq_refl)|].
  apply Hsubset. intros p Hin Hfailed.
  destruct Hin as [<-|[<-|[<-|[]]]]; try discriminate Hfailed. reflexivity.
Defined.

(** ** The CSV cells *)

Module CsvFacts.

Lemma replaceAll_doubled s :
  Str.replaceAll Str.dquote Csv.twoQuotes s = CsvSpec.doubled s.
Proof.
  induction s as [|c t IH]; simpl; [reflexivity|].
  rewrite IH. destruct (Ascii.eqb c Str.dquote); reflexivity.
Qed.

Lemma cellOf_string s : Csv.cellOf (JsString s) = Normal (CsvSpec.cellText s).
Proof.
  destruct s as [|c t]; [reflexivity|].
  unfold Csv.cellOf, Csv.quoted. simpl Js.truthy. cbv iota.
  rewrite replaceAll_doubled. reflexivity.
Qed.

Lemma readQuoted_two_quotes t :
  CsvSpec.readQuoted (String Str.dquote (String Str.dquote t))
  = option_map (String Str.dquote) (CsvSpec.readQuoted t).
Proof. reflexivity. Qed.

Lemma readQuoted_other c t :
  Ascii.eqb c Str.dquote = false ->
  CsvSpec.readQuoted (String c t) = option_map (String c) (CsvSpec.readQuoted t).
Proof. intros E. simpl. rewrite E. reflexivity. Qed.

Lemma readQuoted_doubled s :
  CsvSpec.readQuoted (CsvSpec.doubled s ++ String Str.dquote EmptyString) = Some s.
Proof.
  induction s as [|c t IH]; [reflexivity|].
  simpl CsvSpec.doubled.
  destruct (Ascii.eqb c Str.dquote) eqn:E; cbn [String.append].
  - apply Ascii.eqb_eq in E. subst c.
    rewrite readQuoted_two_quotes, IH. reflexivity.
  - rewrite (readQuoted_other _ _ E), IH. reflexivity.
Qed.

Lemma decode_cellText s : CsvSpec.decode (CsvSpec.cellText s) = Some s.
Proof.
  destruct s as [|c t]; [reflexivity|].
  unfold CsvSpec.cellText, CsvSpec.decode.
  rewrite Ascii.eqb_refl. apply readQuoted_doubled.
Qed.

Lemma cellsOf_strings fields :
  Csv.cellsOf (List.map JsString fields)
  = Normal (List.map CsvSpec.cellText fields).
Proof.
  induction fields as [|f rest IH]; [reflexivity|].
  simpl List.map. unfold Csv.cellsOf; fold Csv.cellsOf.
  rewrite cellOf_string, IH. reflexivity.
Qed.

Lemma cellsOf_record p url :
  p.(originalUrl) = JsString url ->
  Csv.cellsOf (Csv.rowOf p)
  = Normal (List.map CsvSpec.cellText (CsvSpec.fieldsOf p url)).
Proof.
  intros Hurl. unfold Csv.rowOf. rewrite Hurl.
  apply (cellsOf_strings (CsvSpec.fieldsOf p url)).
Qed.

(** The lines of records whose original URLs are strings. *)
Lemma linesOf_strings products :
  Forall (fun p => Js.isString p.(originalUrl) = true) products ->
  Csv.linesOf (List.map Csv.rowOf products)
  = Normal (List.map (fun p => CsvReader.rowText (CsvReader.recordFields p))
                     products).
Proof.
  induction 1 as [|p rest Hp _ IH]; [reflexivity|].
  simpl List.map. unfold Csv.linesOf; fold Csv.linesOf.
  destruct (originalUrl p) as [| | | |url| | |] eqn:Hurl; try discriminate Hp.
  rewrite (cellsOf_record p url Hurl), IH.
  unfold CsvReader.rowText, CsvReader.recordFields. rewrite Hurl. reflexivity.
Qed.

End CsvFacts.

(** C6.  The CSV file [saveProductsToCSV] writes for records whose
    original URLs are strings holds the header line and one line for
    each record, in which a field that is not empty is written between
    double quotes with each double quote in it doubled and an empty
    field is written as nothing; the written cell reads back as the
    field.  This holds of every field of a row.  The field [He said
    (quote)hi(quote), ok] is written as the example cell. *)
Theorem csv_cell_quoting {St : Type} rev w products outputDir filename (s : St) :
  Forall (fun p => Js.isString p.(originalUrl) = true) products ->
  let path := match rev with
              | Standalone => filename
              | Cli => w.(pathJoin) outputDir filename
              end in
  Csv.csvContent products = Normal (csvText products)
  /\ (w.(writeFileSync) path = Normal tt ->
      Eff.completion (saveProductsToCSV rev w products outputDir filename s)
      = Normal path
      /\ List.filter isFileWritten
           (Eff.events (saveProductsToCSV rev w products outputDir filename s))
         = [FileWritten path (Text (csvText products))])
  /\ (forall p url,
        p.(originalUrl) = JsString url ->
        Csv.cellsOf (Csv.rowOf p)
        = Normal (List.map CsvSpec.cellText (CsvSpec.fieldsOf p url)))
  /\ Csv.cellOf (JsString EmptyString) = Normal EmptyString
  /\ (forall c t,
        Csv.cellOf (JsString (String c t))
        = Normal (CsvSpec.q ++ CsvSpec.doubled (String c t) ++ CsvSpec.q)%string)
  /\ (forall field, CsvSpec.decode (CsvSpec.cellText field) = Some field)
  /\ Csv.cellOf (JsString CsvSpec.exampleField) = Normal CsvSpec.exampleCell.
Proof.
  intros Hstrings path.
  assert (Hcontent : Csv.csvContent products = Normal (csvText products)).
  { unfold Csv.csvContent. rewrite (CsvFacts.linesOf_strings products Hstrings).
    reflexivity. }
  split; [exact Hcontent|]. split; [|split; [|split; [|split; [|split]]]].
  - intros Hwrite.
    unfold saveProductsToCSV, Eff.bind, Eff.call, Eff.log, Eff.emit, Eff.ret,
      Eff.completion, Eff.events.
    rewrite Hcontent. unfold path in Hwrite.
    destruct rev; rewrite Hwrite; split; reflexivity.
  - apply CsvFacts.cellsOf_record.
  - reflexivity.
  - intros c t. rewrite CsvFacts.cellOf_string. reflexivity.
  - apply CsvFacts.decode_cellText.
  - vm_compute. reflexivity.
Qed.

Lemma csv_cell_quoting_witness :
  let products := [placeholder (JsString "No object generated") Demo.urlA] in
  Csv.csvContent products = Normal (csvText products)
  /\ List.filter isFileWritten
       (Eff.events (saveProductsToCSV Cli Demo.allGood products
                      "/home/user/scraper/output" "pc_listings.csv" tt))
     = [FileWritten "/home/user/scraper/output/pc_listings.csv"
          (Text (csvText products))]
  /\ Csv.cellsOf (Csv.rowOf (placeholder (JsString "No object generated") Demo.urlA))
     = Normal
         (List.map CsvSpec.cellText
            ["Extraction Failed"; "Unknown"; "Unknown"; "Unknown"; "Unknown";
             "Unknown"; "Unknown"; "Unknown"; "Unknown"; "Unknown";
             "Failed to extract information: No object generated"; EmptyString;
             "https://www.facebook.com/marketplace/item/1/"]).
Proof.
  intros products.
  destruct (csv_cell_quoting Cli Demo.allGood products
              "/home/user/scraper/output" "pc_listings.csv" tt
              ltac:(repeat constructor))
    as (Hcontent & Hwritten & Hcells & _).
  split; [exact Hcontent|]. split; [exact (proj2 (Hwritten eq_refl))|].
  exact (Hcells (placeholder (JsString "No object generated") Demo.urlA)
                "https://www.facebook.com/marketplace/item/1/" eq_refl).
Defined.

(** ** The URL source *)

Module StrFacts.

Lemma split_nonempty sep s : Str.split sep s <> [].
Proof.
  destruct s as [|c t]; simpl; [discriminate|].
  destruct (Ascii.eqb c sep); [discriminate|].
  destruct (Str.split sep t); discriminate.
Qed.

Lemma join_cons_char sep c piece pieces :
  Str.join sep (String c piece :: pieces)
  = String c (Str.join sep (piece :: pieces)).
Proof. destruct pieces; reflexivity. Qed.

(** Joining the pieces with the separator gives the string back. *)
Lemma join_split sep s :
  Str.join (String sep EmptyString) (Str.split sep s) = s.
Proof.
  induction s as [|c t IH]; [reflexivity|].
  simpl Str.split. destruct (Ascii.eqb c sep) eqn:E.
  - apply Ascii.eqb_eq in E. subst c.
    destruct (Str.split sep t) as [|piece pieces] eqn:Hs.
    + exfalso. exact (split_nonempty sep t Hs).
    + change (Str.join (String sep EmptyString) (EmptyString :: piece :: pieces))
        with (String sep (Str.join (String sep EmptyString) (piece :: pieces))).
      rewrite IH. reflexivity.
  - destruct (Str.split sep t) as [|piece pieces] eqn:Hs.
    + exfalso. exact (split_nonempty sep t Hs).
    + rewrite join_cons_char, IH. reflexivity.
Qed.

(** No piece holds the separator. *)
Lemma split_pieces sep s :
  Forall (fun piece => UrlSpec.contains sep piece = false) (Str.split sep s).
Proof.
  induction s as [|c t IH]; simpl.
  - constructor; [reflexivity|constructor].
  - destruct (Ascii.eqb c sep) eqn:E.
    + constructor; [reflexivity|exact IH].
    + destruct (Str.split sep t) as [|piece pieces].
      * constructor; [simpl; rewrite E; reflexivity|constructor].
      * inversion IH as [|? ? Hpiece Hrest]; subst.
        constructor; [simpl; rewrite E; exact Hpiece|exact Hrest].
Qed.

Lemma trimStart_spec s :
  exists before,
    s = (before ++ Str.trimStart s)%string
    /\ UrlSpec.allWhiteSpace before = true
    /\ UrlSpec.startsWithWhiteSpace (Str.trimStart s) = false.
Proof.
  induction s as [|c t (before & Heq & Hws & Hstart)]; simpl.
  - exists EmptyString. repeat split.
  - destruct (Str.isWhiteSpace c) eqn:E.
    + exists (String c before). simpl. rewrite E, <- Heq. repeat split; assumption.
    + exists EmptyString. simpl. rewrite E. repeat split.
Qed.

Lemma trimEnd_spec s :
  exists after,
    s = (Str.trimEnd s ++ after)%string
    /\ UrlSpec.allWhiteSpace after = true
    /\ UrlSpec.endsWithWhiteSpace (Str.trimEnd s) = false
    /\ UrlSpec.startsWithWhiteSpace (Str.trimEnd s)
       = UrlSpec.startsWithWhiteSpace s && negb (Str.isEmpty (Str.trimEnd s)).
Proof.
  induction s as [|c t (after & Heq & Hws & Hend & _)]; simpl.
  - exists EmptyString. repeat split.
  - destruct (Str.trimEnd t) as [|d t'] eqn:Ht.
    + destruct (Str.isWhiteSpace c) eqn:E.
      * exists (String c after). simpl in Heq. subst t. simpl. rewrite E.
        repeat split; assumption.
      * exists after. simpl in Heq. subst t. simpl. rewrite E. repeat split.
        exact Hws.
    + exists after. simpl in Heq. simpl. rewrite <- Heq.
      repeat split; try assumption.
      rewrite andb_true_r. reflexivity.
Qed.

(** [trim] removes white space at both ends and nothing else. *)
Lemma trim_spec s :
  exists before after,
    s = (before ++ Str.trim s ++ after)%string
    /\ UrlSpec.allWhiteSpace before = true
    /\ UrlSpec.allWhiteSpace after = true
    /\ UrlSpec.startsWithWhiteSpace (Str.trim s) = false
    /\ UrlSpec.endsWithWhiteSpace (Str.trim s) = false.
Proof.
  unfold Str.trim.
  destruct (trimStart_spec s) as (before & Hs & Hbefore & Hstart).
  destruct (trimEnd_spec (Str.trimStart s)) as (after & Hm & Hafter & Hend & Hst).
  exists before, after. rewrite <- Hm, <- Hs.
  repeat split; try assumption.
  rewrite Hst, Hstart. reflexivity.
Qed.

Lemma nonempty_length s : (0 <? String.length s)%nat = negb (Str.isEmpty s).
Proof. destruct s; reflexivity. Qed.

End StrFacts.

Lemma urlLines_filter content :
  urlLines content
  = List.filter UrlSpec.isUrlLine (List.map Str.trim (Str.split Str.newline content)).
Proof.
  unfold urlLines, UrlSpec.isUrlLine. apply filter_ext.
  intros line. rewrite StrFacts.nonempty_length. reflexivity.
Qed.

(** C7.  When the content of the input file is not valid JSON, the URL
    source returns, in their order in the file, the lines that once
    trimmed are not empty and begin with [http], each trimmed, and
    nothing else; it reports no error.  The lines are the pieces of the
    content between line feeds, and trimming removes white space at the
    two ends only.  On the example file with a blank line, a comment and
    two URL lines, the result is the two URLs. *)
Theorem text_file_urls {St : Type} w path content error (s : St) :
  w.(readFileSync) path = Normal content ->
  w.(JSON_parse) content = Throw error ->
  let lines := Str.split Str.newline content in
  readUrlsFromFile w path s
  = (Normal (List.map JsString
               (List.filter UrlSpec.isUrlLine (List.map Str.trim lines))),
     s, [])
  /\ Str.join UrlSpec.nl lines = content
  /\ Forall (fun line => UrlSpec.contains Str.newline line = false) lines
  /\ (forall line, exists before after,
        line = (before ++ Str.trim line ++ after)%string
        /\ UrlSpec.allWhiteSpace before = true
        /\ UrlSpec.allWhiteSpace after = true
        /\ UrlSpec.startsWithWhiteSpace (Str.trim line) = false
        /\ UrlSpec.endsWithWhiteSpace (Str.trim line) = false)
  /\ List.filter UrlSpec.isUrlLine
       (List.map Str.trim (Str.split Str.newline UrlSpec.exampleText))
     = UrlSpec.exampleUrlLines.
Proof.
  intros Hread Hparse lines.
  split; [|split; [|split; [|split]]].
  - unfold readUrlsFromFile, interpret, Eff.tryCatch, Eff.bind, Eff.call.
    rewrite Hread. simpl. rewrite Hparse. simpl.
    rewrite urlLines_filter. reflexivity.
  - apply StrFacts.join_split.
  - apply StrFacts.split_pieces.
  - apply StrFacts.trim_spec.
  - vm_compute. reflexivity.
Qed.

Lemma text_file_urls_witness :
  readUrlsFromFile DemoFiles.textFile "urls.txt" tt
  = (Normal [JsString "https://www.facebook.com/marketplace/item/1/";
             JsString "http://example.com/item/2"], tt, []).
Proof.
  exact (proj1 (text_file_urls DemoFiles.textFile "urls.txt" UrlSpec.exampleText
                  Demo.syntaxError tt eq_refl eq_refl)).
Defined.

(** C9.  The content [null] is valid JSON and is neither an array nor an
    object with a [urls] array, yet reading [urls] of it throws inside
    the inner [try], whose [catch] is the line-oriented branch: the
    result comes from that branch, and the error "Could not parse input
    file format" is neither raised nor reported. *)
Theorem null_file_takes_text_branch :
  interpret DemoFiles.nullFile "null" tt
  = (Normal (Some (List.map JsString (urlLines "null"))), tt, [])
  /\ readUrlsFromFile DemoFiles.nullFile "urls.json" tt = (Normal [], tt, [])
  /\ ~ In (ConsoleError UrlSpec.unparsed)
         (Eff.events (readUrlsFromFile DemoFiles.nullFile "urls.json" tt)).
Proof.
  split; [reflexivity|]. split; [reflexivity|]. intros [].
Qed.

(** When the content of the input file parses as a JSON value other
    than [null] that is not an array and whose [urls] property is not an
    array, [readUrlsFromFile] does not take the line-oriented branch:
    control leaves the inner [try], the error "Could not parse input
    file format" is thrown, caught and reported, and the empty list is
    returned; [main] then reports that no valid URL was found and uses
    the built-in URLs.  When the content parses as [null], the result is
    that of the line-oriented branch and nothing is reported. *)
Lemma unrecognised_json {St : Type} w path content (s : St) :
  w.(readFileSync) path = Normal content ->
  (forall json urls,
      w.(JSON_parse) content = Normal json ->
      Js.isArray json = false ->
      Js.getProperty "urls" json = Some urls ->
      Js.isArray urls = false ->
      interpret w content s = (Normal None, s, [])
      /\ readUrlsFromFile w path s = (Normal [], s, [ConsoleError UrlSpec.unparsed])
      /\ forall options,
           options.(inputFile) = Some path ->
           given (Some path) = true ->
           urlsToScrapeOf w options s
           = (Normal exampleUrls, s,
              [ConsoleLog (LReadingUrls path); ConsoleError UrlSpec.unparsed;
               ConsoleLog LNoValidUrls]))
  /\ (w.(JSON_parse) content = Normal JsNull ->
      readUrlsFromFile w path s
      = (Normal (List.map JsString (urlLines content)), s, [])).
Proof.
  intros Hread. split.
  - intros json urls Hparse Harray Hurls Hnot.
    assert (Hinterpret : interpret w content s = (Normal None, s, [])).
    { unfold interpret, Eff.tryCatch, Eff.bind, Eff.call, readProperty.
      rewrite Hparse. simpl. rewrite Harray, Hurls. simpl.
      rewrite Hnot, andb_false_r. reflexivity. }
    assert (Hreturn : readUrlsFromFile w path s
                      = (Normal [], s, [ConsoleError UrlSpec.unparsed])).
    { unfold readUrlsFromFile, Eff.tryCatch, Eff.bind, Eff.call.
      rewrite Hread. simpl. rewrite Hinterpret. reflexivity. }
    split; [exact Hinterpret|]. split; [exact Hreturn|].
    intros options Hfile Hgiven.
    unfold urlsToScrapeOf. rewrite Hfile, Hgiven.
    unfold Eff.bind, Eff.log, Eff.emit. rewrite Hreturn. reflexivity.
  - intros Hparse.
    unfold readUrlsFromFile, interpret, Eff.tryCatch, Eff.bind, Eff.call, readProperty.
    rewrite Hread. simpl. rewrite Hparse. reflexivity.
Qed.

Lemma unrecognised_json_example :
  readUrlsFromFile DemoFiles.numberFile "urls.json" tt
  = (Normal [], tt, [ConsoleError UrlSpec.unparsed])
  /\ urlsToScrapeOf DemoFiles.numberFile DemoFiles.fromFile tt
     = (Normal exampleUrls, tt,
        [ConsoleLog (LReadingUrls "urls.json"); ConsoleError UrlSpec.unparsed;
         ConsoleLog LNoValidUrls]).
Proof.
  destruct (unrecognised_json DemoFiles.numberFile "urls.json" "42" tt eq_refl)
    as [Hother _].
  destruct (Hother (JsNumber (NumFinite "42")) JsUndefined
              eq_refl eq_refl eq_refl eq_refl)
    as (_ & Hreturn & Hmain).
  split; [exact Hreturn|].
  exact (Hmain DemoFiles.fromFile eq_refl eq_refl).
Qed.

(** ** The run without a credential *)

Ltac quiet_list :=
  repeat (first [ assumption
                | apply Forall_nil
                | apply Forall_cons; [split; reflexivity|]
                | apply Forall_app; split ]).

Lemma ensureOutputDirectoryExists_quiet {St : Type} w (s : St) :
  exists completion events,
    ensureOutputDirectoryExists w s = (completion, s, events)
    /\ Forall quiet events.
Proof.
  unfold ensureOutputDirectoryExists, Eff.bind, Eff.when, Eff.call, Eff.log,
    Eff.emit, Eff.ret.
  destruct (existsSync w (pathJoin w (cwd w) "output"));
    destruct (existsSync w (pathJoin w (pathJoin w (cwd w) "output") (timestamp w)));
    simpl;
    repeat match goal with
           | |- context [mkdirSync w ?p] => destruct (mkdirSync w p) as [[]|?]; simpl
           end;
    do 2 eexists; (split; [reflexivity|quiet_list]).
Qed.

Lemma readUrlsFromFile_quiet {St : Type} w path (s : St) :
  exists urls events,
    readUrlsFromFile w path s = (Normal urls, s, events)
    /\ Forall quiet events.
Proof.
  unfold readUrlsFromFile, interpret, readProperty, Eff.tryCatch, Eff.bind,
    Eff.call, Eff.error, Eff.emit, Eff.ret, Eff.throw.
  destruct (readFileSync w path) as [content|e]; simpl;
    [|do 2 eexists; split; [reflexivity|quiet_list]].
  destruct (JSON_parse w content) as [json|e]; simpl;
    [|do 2 eexists; split; [reflexivity|quiet_list]].
  destruct (Js.isArray json); simpl;
    [do 2 eexists; split; [reflexivity|quiet_list]|].
  destruct (Js.getProperty "urls" json) as [urls|]; simpl;
    [|do 2 eexists; split; [reflexivity|quiet_list]].
  destruct (Js.truthy urls && Js.isArray urls); simpl;
    do 2 eexists; (split; [reflexivity|quiet_list]).
Qed.

Lemma urlsToScrapeOf_quiet {St : Type} w options (s : St) :
  exists urls events,
    urlsToScrapeOf w options s = (Normal urls, s, events)
    /\ Forall quiet events.
Proof.
  unfold urlsToScrapeOf.
  destruct (inputFile options) as [path|];
    [|do 2 eexists; split; [reflexivity|quiet_list]].
  destruct (given (Some path));
    [|do 2 eexists; split; [reflexivity|quiet_list]].
  destruct (readUrlsFromFile_quiet w path s) as (urls & events & Hrun & Hquiet).
  unfold Eff.bind, Eff.log, Eff.emit, Eff.ret. rewrite Hrun.
  destruct (0 <? List.length urls)%nat; simpl;
    do 2 eexists; (split; [reflexivity|quiet_list]).
Qed.

Lemma mainCli_without_key {St : Type} w args (s : St) :
  hasApiKey w = false ->
  Forall quiet (Eff.events (Eff.tryCatch (mainCli w args)
                              (fun error => Eff.error (LUncaught error)) s)).
Proof.
  intros Hkey. unfold mainCli.
  destruct (showHelp (parseArgs args)); [simpl; quiet_list|].
  destruct (ensureOutputDirectoryExists_quiet w s) as (c & dirs & Hdirs & Hq1).
  destruct (urlsToScrapeOf_quiet w (parseArgs args) s) as (urls & evs & Hurls & Hq2).
  unfold Eff.tryCatch, Eff.bind, Eff.log, Eff.error, Eff.emit, Eff.events.
  rewrite Hdirs. destruct c as [outputDir|e]; simpl.
  - rewrite Hurls. rewrite scrapeProducts_without_key by exact Hkey. simpl.
    quiet_list.
  - quiet_list.
Qed.

Lemma mainStandalone_without_key {St : Type} w args (s : St) :
  hasApiKey w = false ->
  Forall quiet (Eff.events (Eff.tryCatch (mainStandalone w args)
                              (fun error => Eff.error (LUncaught error)) s)).
Proof.
  intros Hkey. unfold mainStandalone.
  unfold Eff.tryCatch, Eff.bind, Eff.log, Eff.error, Eff.emit, Eff.events.
  rewrite scrapeProducts_without_key by exact Hkey. simpl. quiet_list.
Qed.

(** C8.  When the model credential is absent (or empty),
    [scrapeProducts] throws before the browser is launched, and the
    whole run, in either revision and whatever its arguments, has no
    browser event and writes no file: neither the JSON file nor the CSV
    file is produced. *)
Theorem no_output_without_credential rev w args :
  hasApiKey w = false ->
  Forall quiet (runProgram rev w args)
  /\ (forall urls,
        scrapeProducts rev w urls tt
        = (Throw missingKey, tt, [ConsoleLog (LStarting (List.length urls))]))
  /\ (forall path content, ~ In (FileWritten path content) (runProgram rev w args))
  /\ ~ In BrowserLaunched (runProgram rev w args).
Proof.
  intros Hkey.
  assert (Hquiet : Forall quiet (runProgram rev w args)).
  { unfold runProgram, program, main.
    destruct rev; [apply mainStandalone_without_key|apply mainCli_without_key];
      exact Hkey. }
  split; [exact Hquiet|]. split; [|split].
  - intros urls. apply scrapeProducts_without_key. exact Hkey.
  - intros path content Hin.
    rewrite Forall_forall in Hquiet. destruct (Hquiet _ Hin) as [_ H]. discriminate H.
  - intros Hin.
    rewrite Forall_forall in Hquiet. destruct (Hquiet _ Hin) as [H _]. discriminate H.
Qed.

Lemma no_output_without_credential_witness :
  runProgram Cli Demo.noKey ["--output"; "gaming_pcs"]
  = [ConsoleLog LBanner;
     DirectoryCreated "/home/user/scraper/output";
     ConsoleLog LCreatedBaseDirectory;
     DirectoryCreated "/home/user/scraper/output/2025-05-01T10-00-00";
     ConsoleLog (LCreatedDirectory "2025-05-01T10-00-00");
     ConsoleLog LNoInputFile;
     ConsoleLog (LStarting 3);
     ConsoleError (LErrorInMain missingKey)]
  /\ Forall quiet (runProgram Cli Demo.noKey ["--output"; "gaming_pcs"]).
Proof.
  split; [reflexivity|].
  exact (proj1 (no_output_without_credential Cli Demo.noKey
                  ["--output"; "gaming_pcs"] eq_refl)).
Defined.

(** * Further properties *)

(** ** The browser-console scripts *)

Module ListingsFacts.

Lemma prefix_iff p : forall s,
  String.prefix p s = true <-> exists after, s = (p ++ after)%string.
Proof.
  induction p as [|c p IH]; intros s.
  - split; [intros _; exists s; reflexivity|]. intros _. destruct s; reflexivity.
  - destruct s as [|d s]; simpl.
    + split; [discriminate|intros [after H]; discriminate H].
    + destruct (Ascii.ascii_dec c d) as [->|Hne].
      * rewrite IH. split; intros [after H]; exists after.
        -- rewrite H. reflexivity.
        -- inversion H. reflexivity.
      * split; [discriminate|]. intros [after H]. inversion H. congruence.
Qed.

(** [includesb] decides whether [t] occurs in [s]. *)
Lemma includesb_iff t : forall s,
  Listings.includesb t s = true <-> Str.includes t s.
Proof.
  induction s as [|c s IH].
  - change (Listings.includesb t EmptyString)
      with (String.prefix t EmptyString || false).
    rewrite orb_false_r, prefix_iff. split.
    + intros [after H]. exists EmptyString, after. exact H.
    + intros (before & after & H). destruct before as [|b before].
      * exists after. exact H.
      * discriminate H.
  - change (Listings.includesb t (String c s))
      with (String.prefix t (String c s) || Listings.includesb t s).
    rewrite orb_true_iff, prefix_iff, IH. split.
    + intros [[after H]|(before & after & H)].
      * exists EmptyString, after. exact H.
      * exists (String c before), after. rewrite H. reflexivity.
    + intros (before & after & H). destruct before as [|b before].
      * left. exists after. exact H.
      * right. exists before, after. inversion H. reflexivity.
Qed.

Lemma indexOf_bounds link self :
  (-1 <= Listings.indexOf link self < Z.of_nat (List.length self))%Z
  \/ (self = [] /\ Listings.indexOf link self = (-1)%Z).
Proof.
  induction self as [|first rest IH]; [right; split; reflexivity|].
  left. simpl Listings.indexOf. destruct (String.eqb first link).
  - simpl List.length. lia.
  - destruct (Z.ltb_spec (Listings.indexOf link rest) 0);
      simpl List.length; destruct IH as [IH|[-> IH]]; simpl in *; lia.
Qed.

(** The index found for the element that follows [before] is the length
    of [before] exactly when the element does not occur in [before]. *)
Lemma indexOf_first link before : forall after,
  (Listings.indexOf link (before ++ link :: after) =? Z.of_nat (List.length before))%Z
  = negb (List.existsb (String.eqb link) before).
Proof.
  induction before as [|first rest IH]; intros after.
  - simpl. rewrite String.eqb_refl. reflexivity.
  - change ((first :: rest) ++ link :: after) with (first :: rest ++ link :: after).
    change (List.existsb (String.eqb link) (first :: rest))
      with (String.eqb link first || List.existsb (String.eqb link) rest).
    change (List.length (first :: rest)) with (S (List.length rest)).
    rewrite Nat2Z.inj_succ, (String.eqb_sym link first).
    cbn [Listings.indexOf].
    destruct (String.eqb first link); cbn [orb negb].
    + apply Z.eqb_neq. lia.
    + rewrite <- (IH after).
      destruct (indexOf_bounds link (rest ++ link :: after)) as [Hb|[Hnil _]];
        [|destruct rest; discriminate Hnil].
      destruct (Z.ltb_spec (Listings.indexOf link (rest ++ link :: after)) 0);
        destruct (Z.eqb_spec (Listings.indexOf link (rest ++ link :: after))
                    (Z.of_nat (List.length rest)));
        first [apply Z.eqb_eq; lia | apply Z.eqb_neq; lia].
Qed.

Lemma existsb_eqb_In link seen :
  List.existsb (String.eqb link) seen = true <-> In link seen.
Proof.
  rewrite existsb_exists. split.
  - intros (x & Hin & Heq). apply String.eqb_eq in Heq. subst. exact Hin.
  - intros Hin. exists link. split; [exact Hin|apply String.eqb_refl].
Qed.

(** The filter, started after [before], keeps the elements of [links]
    that occur neither in [before] nor earlier in [links], once each. *)
Lemma filterFrom_first_occurrences links : forall before,
  let kept :=
    Listings.filterFrom
      (fun link index => (Listings.indexOf link (before ++ links) =? index)%Z)
      (Z.of_nat (List.length before)) links in
  NoDup kept
  /\ forall link, In link kept <-> In link links /\ ~ In link before.
Proof.
  induction links as [|link rest IH]; intros before kept.
  - split; [constructor|]. intros x. simpl. tauto.
  - specialize (IH (before ++ [link])).
    rewrite <- app_assoc in IH. simpl List.app in IH.
    rewrite length_app in IH. simpl List.length in IH.
    replace (Z.of_nat (List.length before + 1))
      with (Z.of_nat (List.length before) + 1)%Z in IH by lia.
    destruct IH as [Hnodup Hin].
    unfold kept. simpl Listings.filterFrom. rewrite indexOf_first.
    destruct (List.existsb (String.eqb link) before) eqn:Hseen; simpl negb; cbv iota.
    + apply existsb_eqb_In in Hseen. split; [exact Hnodup|].
      intros x. rewrite Hin, in_app_iff. simpl. split.
      * intros [Hx Hnot]. split; [right; exact Hx|tauto].
      * intros [[<-|Hx] Hnot]; [contradiction|]. split; [exact Hx|].
        intros [Hb|[<-|[]]]; contradiction.
    + assert (Hnew : ~ In link before).
      { intros H. apply existsb_eqb_In in H. congruence. }
      split.
      * constructor; [|exact Hnodup]. rewrite Hin, in_app_iff. simpl. tauto.
      * intros x. simpl. rewrite Hin, in_app_iff. simpl. split.
        -- intros [<-|[Hx Hnot]]; [tauto|]. split; [right; exact Hx|tauto].
        -- intros [[<-|Hx] Hnot]; [left; reflexivity|].
           destruct (String.eqb_spec link x) as [->|Hne]; [left; reflexivity|].
           right. split; [exact Hx|]. intros [Hb|[Heq|[]]]; [contradiction|].
           apply Hne. exact Heq.
Qed.

End ListingsFacts.

(** X1.  The links a console script collects have no duplicates; a link
    is collected exactly when it is the [href] of some anchor of the
    page and contains [facebook.com/marketplace/item/]; and the count
    the scripts report is the number of collected links. *)
Theorem marketplaceLinks_unique_and_complete (hrefs : list string) :
  let links := Listings.marketplaceLinks hrefs in
  NoDup links
  /\ (forall link, In link links <->
                   In link hrefs /\ Str.includes Listings.pattern link)
  /\ fst (Listings.extractMarketplaceListings hrefs) = links
  /\ In (Listings.OFound (List.length links))
        (snd (Listings.extractMarketplaceListings hrefs))
  /\ In (Listings.OFound (List.length links))
        (snd (Listings.extractMarketplaceListingsQuoted hrefs)).
Proof.
  intros links.
  destruct (ListingsFacts.filterFrom_first_occurrences
              (List.filter (Listings.includesb Listings.pattern) hrefs) [])
    as [Hnodup Hin].
  split; [exact Hnodup|]. split.
  - intros link. unfold links, Listings.marketplaceLinks, Listings.removeDuplicates.
    simpl in Hin. rewrite Hin, filter_In, ListingsFacts.includesb_iff. tauto.
  - split; [reflexivity|]. split; simpl; tauto.
Qed.

(** ** Reading the CSV text back *)

Module CsvReaderFacts.

Lemma consChar_prependCell c f t :
  CsvReader.consChar c (CsvReader.prependCell f t)
  = CsvReader.prependCell (String c f) t.
Proof. destruct t as [[|[|cell cells] rows]|]; reflexivity. Qed.

Lemma headed_consChar c t : CsvReader.headed (CsvReader.consChar c t).
Proof. destruct t as [[|[|cell cells] rows]|]; exact I. Qed.

Lemma headed_newCell t : CsvReader.headed (CsvReader.newCell t).
Proof. destruct t as [[|row rows]|]; exact I. Qed.

Lemma headed_newRow t : CsvReader.headed (CsvReader.newRow t).
Proof. destruct t as [rows|]; exact I. Qed.

Lemma headed_read s : forall mode, CsvReader.headed (CsvReader.read mode s).
Proof.
  induction s as [|c s IH]; intros mode.
  - destruct mode; exact I.
  - destruct mode; cbn [CsvReader.read];
      repeat match goal with
             | |- context [if ?b then _ else _] => destruct b
             end;
      first [apply headed_consChar | apply headed_newCell | apply headed_newRow
            | apply IH | exact I].
Qed.

Lemma prependCell_empty t :
  CsvReader.headed t -> CsvReader.prependCell EmptyString t = t.
Proof. destruct t as [[|[|cell cells] rows]|]; simpl; tauto. Qed.

(** Inside a quoted cell, the doubled text of [f] and the closing quote
    read as [f]. *)
Lemma read_quoted f : forall tail,
  CsvReader.read CsvReader.InQuoted
    (CsvSpec.doubled f ++ String Str.dquote tail)
  = CsvReader.prependCell f (CsvReader.read CsvReader.AfterQuote tail).
Proof.
  induction f as [|c f IH]; intros tail.
  - rewrite prependCell_empty by apply headed_read. reflexivity.
  - simpl CsvSpec.doubled. destruct (Ascii.eqb c Str.dquote) eqn:E.
    + apply Ascii.eqb_eq in E. subst c. cbn [String.append].
      change (CsvReader.read CsvReader.InQuoted
                (String Str.dquote
                   (String Str.dquote (CsvSpec.doubled f ++ String Str.dquote tail))))
        with (CsvReader.consChar Str.dquote
                (CsvReader.read CsvReader.InQuoted
                   (CsvSpec.doubled f ++ String Str.dquote tail))).
      rewrite IH. apply consChar_prependCell.
    + cbn [String.append CsvReader.read]. rewrite E, IH.
      apply consChar_prependCell.
Qed.

Lemma read_boundary mode tail :
  mode <> CsvReader.InQuoted ->
  CsvReader.isBoundary tail ->
  CsvReader.read mode tail = CsvReader.atBoundary tail.
Proof.
  intros Hmode [->|[[t ->]|[t ->]]]; destruct mode; try reflexivity;
    contradiction Hmode; reflexivity.
Qed.

(** A written cell followed by a boundary reads as its field. *)
Lemma read_cell f tail :
  CsvReader.isBoundary tail ->
  CsvReader.read CsvReader.CellStart (CsvSpec.cellText f ++ tail)
  = CsvReader.prependCell f (CsvReader.atBoundary tail).
Proof.
  intros Htail. destruct f as [|c f].
  - change (CsvSpec.cellText EmptyString ++ tail)%string with tail.
    rewrite (read_boundary CsvReader.CellStart tail) by (discriminate || exact Htail).
    rewrite prependCell_empty; [reflexivity|].
    rewrite <- (read_boundary CsvReader.CellStart tail) by (discriminate || exact Htail).
    apply headed_read.
  - unfold CsvSpec.cellText.
    change (String Str.dquote
              (CsvSpec.doubled (String c f) ++ String Str.dquote EmptyString) ++ tail)%string
      with (String Str.dquote
              ((CsvSpec.doubled (String c f) ++ String Str.dquote EmptyString) ++ tail))%string.
    rewrite append_assoc.
    change (String Str.dquote EmptyString ++ tail)%string with (String Str.dquote tail).
    change (CsvReader.read CsvReader.CellStart
              (String Str.dquote (CsvSpec.doubled (String c f) ++ String Str.dquote tail)))
      with (CsvReader.read CsvReader.InQuoted
              (CsvSpec.doubled (String c f) ++ String Str.dquote tail)).
    rewrite read_quoted.
    rewrite (read_boundary CsvReader.AfterQuote tail) by (discriminate || exact Htail).
    reflexivity.
Qed.

(** A written row reads as its fields, at the end of the text or
    before further rows. *)
Lemma read_row fields : forall tail rest,
  fields <> [] ->
  (tail = EmptyString /\ rest = [])
  \/ (exists more, tail = String Str.newline more
                   /\ CsvReader.read CsvReader.CellStart more = Some rest) ->
  CsvReader.read CsvReader.CellStart (CsvReader.rowText fields ++ tail)
  = Some (fields :: rest).
Proof.
  induction fields as [|f fields IH]; intros tail rest Hne Htail; [contradiction|].
  destruct fields as [|g fields].
  - change (CsvReader.rowText [f]) with (CsvSpec.cellText f).
    destruct Htail as [[-> ->]|(more & -> & Hmore)].
    + rewrite read_cell by (left; reflexivity).
      simpl. rewrite append_empty_r. reflexivity.
    + rewrite read_cell by (right; right; eexists; reflexivity).
      simpl CsvReader.atBoundary. rewrite Hmore. simpl.
      rewrite append_empty_r. reflexivity.
  - change (CsvReader.rowText (f :: g :: fields))
      with (CsvSpec.cellText f ++ "," ++ CsvReader.rowText (g :: fields))%string.
    rewrite append_assoc.
    change (("," ++ CsvReader.rowText (g :: fields)) ++ tail)%string
      with (String ","%char (CsvReader.rowText (g :: fields) ++ tail)).
    rewrite read_cell by (right; left; eexists; reflexivity).
    simpl CsvReader.atBoundary.
    rewrite (IH tail rest) by (discriminate || exact Htail).
    simpl. rewrite append_empty_r. reflexivity.
Qed.

(** The rows after the header read as their fields. *)
Lemma read_rows rows :
  rows <> [] ->
  Forall (fun fields => fields <> []) rows ->
  CsvReader.read CsvReader.CellStart
    (Str.join (String Str.newline EmptyString) (List.map CsvReader.rowText rows))
  = Some rows.
Proof.
  induction rows as [|fields rows IH]; intros Hne Hall; [contradiction|].
  inversion Hall as [|? ? Hfields Hrows]; subst.
  destruct rows as [|next rows].
  - simpl. rewrite <- (append_empty_r (CsvReader.rowText fields)).
    apply read_row; [exact Hfields|left; split; reflexivity].
  - change (Str.join (String Str.newline EmptyString)
              (List.map CsvReader.rowText (fields :: next :: rows)))
      with (CsvReader.rowText fields
              ++ String Str.newline
                   (Str.join (String Str.newline EmptyString)
                      (List.map CsvReader.rowText (next :: rows))))%string.
    apply read_row; [exact Hfields|]. right. eexists. split; [reflexivity|].
    apply IH; [discriminate|exact Hrows].
Qed.

Lemma read_header_only :
  CsvReader.read CsvReader.CellStart (Str.join "," Csv.headers) = Some [Csv.headers].
Proof. vm_compute. reflexivity. Qed.

Lemma read_header more rest :
  CsvReader.read CsvReader.CellStart more = Some rest ->
  CsvReader.read CsvReader.CellStart
    (Str.join "," Csv.headers ++ String Str.newline more)
  = Some (Csv.headers :: rest).
Proof.
  intros Hmore.
  cbn [Str.join Csv.headers String.append CsvReader.read Ascii.eqb Bool.eqb
       Str.dquote Str.newline].
  rewrite Hmore. reflexivity.
Qed.

Lemma recordFields_nonempty p : CsvReader.recordFields p <> [].
Proof. discriminate. Qed.

Lemma linesOf_records products :
  Forall (fun p => Js.isString p.(originalUrl) = true) products ->
  Csv.linesOf (List.map Csv.rowOf products)
  = Normal (List.map (fun p => CsvReader.rowText (CsvReader.recordFields p)) products).
Proof.
  induction 1 as [|p products Hp _ IH]; [reflexivity|].
  simpl List.map. unfold Csv.linesOf; fold Csv.linesOf. rewrite IH.
  destruct (originalUrl p) as [| | | |u| | |] eqn:Hu; try discriminate Hp.
  assert (Hrow : Csv.cellsOf (Csv.rowOf p)
                 = Normal (List.map CsvSpec.cellText (CsvReader.recordFields p))).
  { unfold Csv.rowOf, CsvReader.recordFields. rewrite Hu.
    apply (CsvFacts.cellsOf_strings (CsvSpec.fieldsOf p u)). }
  rewrite Hrow. reflexivity.
Qed.

End CsvReaderFacts.

(** The CSV text reads back as the header and the fields of the records. *)
Lemma csvContent_reads_back (products : list Product) :
  Forall (fun p => Js.isString p.(originalUrl) = true) products ->
  exists text,
    Csv.csvContent products = Normal text
    /\ CsvReader.parse text
       = Some (Csv.headers :: List.map CsvReader.recordFields products).
Proof.
  intros Hurls. unfold Csv.csvContent, CsvReader.parse.
  rewrite (CsvReaderFacts.linesOf_records products Hurls).
  eexists. split; [reflexivity|].
  destruct products as [|p products].
  - apply CsvReaderFacts.read_header_only.
  - change (Str.join (String Str.newline EmptyString)
              (Str.join "," Csv.headers
                 :: List.map (fun p => CsvReader.rowText (CsvReader.recordFields p))
                      (p :: products)))
      with (Str.join "," Csv.headers
              ++ String Str.newline
                   (Str.join (String Str.newline EmptyString)
                      (List.map (fun p => CsvReader.rowText (CsvReader.recordFields p))
                         (p :: products))))%string.
    apply CsvReaderFacts.read_header.
    rewrite <- (List.map_map CsvReader.recordFields CsvReader.rowText).
    apply CsvReaderFacts.read_rows; [discriminate|].
    apply Forall_forall. intros fields Hin. apply in_map_iff in Hin.
    destruct Hin as (q & <- & _). apply CsvReaderFacts.recordFields_nonempty.
Qed.

(** X2.  The CSV text of records whose original URLs are strings reads
    back, cell by cell, as the header row followed by the thirteen
    fields of each record in order, whatever commas, quotes and line
    feeds the fields contain: one row per record after the header, and
    thirteen cells in every row. *)
Theorem csv_round_trip (products : list Product) :
  Forall (fun p => Js.isString p.(originalUrl) = true) products ->
  exists text table,
    Csv.csvContent products = Normal text
    /\ CsvReader.parse text = Some table
    /\ table = Csv.headers :: List.map CsvReader.recordFields products
    /\ List.length table = 1 + List.length products
    /\ Forall (fun row => List.length row = 13) table.
Proof.
  intros Hurls.
  destruct (csvContent_reads_back products Hurls) as (text & Hcsv & Hparse).
  exists text, (Csv.headers :: List.map CsvReader.recordFields products).
  split; [exact Hcsv|]. split; [exact Hparse|]. split; [reflexivity|].
  split.
  - simpl. rewrite length_map. reflexivity.
  - constructor; [reflexivity|].
    apply Forall_forall. intros row Hin. apply in_map_iff in Hin.
    destruct Hin as (p & <- & _). reflexivity.
Qed.

Lemma csv_round_trip_witness :
  exists text,
    Csv.csvContent DemoCsv.awkward = Normal text
    /\ CsvReader.parse text
       = Some (Csv.headers :: List.map CsvReader.recordFields DemoCsv.awkward).
Proof.
  destruct (csv_round_trip DemoCsv.awkward) as (text & table & Hcsv & Hparse & -> & _).
  - repeat constructor.
  - exists text. split; [exact Hcsv|exact Hparse].
Defined.

(** ** A URL that is not a string *)

Lemma cellsOf_app fields : forall rest,
  Csv.cellsOf (List.map JsString fields ++ rest)
  = match Csv.cellsOf rest with
    | Throw e => Throw e
    | Normal cells => Normal (List.map CsvSpec.cellText fields ++ cells)
    end.
Proof.
  induction fields as [|f fields IH]; intros rest.
  - simpl. destruct (Csv.cellsOf rest); reflexivity.
  - simpl List.map. simpl List.app. unfold Csv.cellsOf; fold Csv.cellsOf.
    rewrite CsvFacts.cellOf_string, IH.
    destruct (Csv.cellsOf rest); reflexivity.
Qed.

Lemma cellsOf_bad_url p :
  Js.truthy p.(originalUrl) = true ->
  Js.isString p.(originalUrl) = false ->
  Csv.cellsOf (Csv.rowOf p) = Throw (Js.typeError "cell.replace is not a function").
Proof.
  intros Htruthy Hstring.
  change (Csv.rowOf p)
    with (List.map JsString
            [p.(title); p.(price); p.(brand); p.(model); p.(cpu); p.(ram);
             p.(storage); p.(availability); p.(quantity); p.(location);
             p.(description); p.(imageUrl)] ++ [p.(originalUrl)]).
  rewrite cellsOf_app. unfold Csv.cellsOf, Csv.cellOf. rewrite Htruthy.
  destruct (originalUrl p); try reflexivity. discriminate Hstring.
Qed.

Lemma linesOf_bad_url products p :
  In p products ->
  Js.truthy p.(originalUrl) = true ->
  Js.isString p.(originalUrl) = false ->
  exists e, Csv.linesOf (List.map Csv.rowOf products) = Throw e.
Proof.
  intros Hin Htruthy Hstring.
  induction products as [|q products IH]; [contradiction|].
  simpl List.map. unfold Csv.linesOf; fold Csv.linesOf.
  destruct (Csv.cellsOf (Csv.rowOf q)) as [cells|e] eqn:Hq; [|exists e; reflexivity].
  destruct Hin as [->|Hin].
  - rewrite (cellsOf_bad_url p Htruthy Hstring) in Hq. discriminate Hq.
  - destruct (IH Hin) as [e He]. rewrite He. exists e. reflexivity.
Qed.

(** X3.  When some record carries an original URL that is truthy and
    not a string, [saveProductsToCSV] throws before it writes: it has
    no event at all, in either revision. *)
Theorem csv_not_written_for_bad_url {St : Type} rev w products outputDir filename
    (s : St) p :
  In p products ->
  Js.truthy p.(originalUrl) = true ->
  Js.isString p.(originalUrl) = false ->
  exists e,
    saveProductsToCSV rev w products outputDir filename s = (Throw e, s, []).
Proof.
  intros Hin Htruthy Hstring.
  destruct (linesOf_bad_url products p Hin Htruthy Hstring) as [e He].
  exists e. unfold saveProductsToCSV, Csv.csvContent, Eff.bind, Eff.call.
  rewrite He. reflexivity.
Qed.

Lemma csv_not_written_for_bad_url_witness :
  exists e,
    saveProductsToCSV Cli Demo.allGood [DemoCsv.numbered] "out" "pc_listings.csv" tt
    = (Throw e, tt, []).
Proof.
  apply (csv_not_written_for_bad_url Cli Demo.allGood [DemoCsv.numbered] "out"
           "pc_listings.csv" tt DemoCsv.numbered);
    [left; reflexivity|reflexivity|reflexivity].
Defined.

(** ** What [scrapeProducts] can throw, and the order of its visits *)

Lemma navigations_app a b : navigations (a ++ b) = navigations a ++ navigations b.
Proof. unfold navigations. apply flat_map_app. Qed.

Lemma filesOf_app a b : filesOf (a ++ b) = filesOf a ++ filesOf b.
Proof. unfold filesOf. apply filter_app. Qed.

Lemma extractEvents_plain rev i outcome :
  navigations (extractEvents rev i outcome) = []
  /\ filesOf (extractEvents rev i outcome) = [].
Proof. destruct outcome, rev; split; reflexivity. Qed.

Lemma visitEvents_navigations rev n i url v :
  navigations (visitEvents rev n i url v) = (if reaches v then [(i, url)] else [])
  /\ filesOf (visitEvents rev n i url v) = [].
Proof.
  unfold visitEvents, visitUrl, reaches.
  destruct v as [nc np gt rn cl rnd]; simpl.
  unfold Eff.bind, Eff.tryCatch, Eff.call, Eff.log, Eff.emit, Eff.events.
  destruct nc as [[]|e]; [|destruct rev; split; reflexivity].
  destruct np as [[]|e]; [|destruct rev; split; reflexivity].
  destruct gt as [[]|e]; [|destruct rev; split; reflexivity].
  rewrite !extractProductInfo_result.
  destruct (recordOf rn url) as [product|e'];
    [|destruct rev, rn; split; reflexivity].
  destruct rev, rn, cl as [[]|e'], (Z.of_nat i <? Z.of_nat n - 1)%Z;
    split; reflexivity.
Qed.

Lemma loopEvents_navigations rev n urls visits : forall i,
  navigations (loopEvents rev n i urls visits) = reachedVisits i urls visits
  /\ filesOf (loopEvents rev n i urls visits) = [].
Proof.
  induction urls as [|url rest IH]; intros i; simpl; [split; reflexivity|].
  rewrite navigations_app, filesOf_app.
  destruct (visitEvents_navigations rev n i url (visits i)) as [-> ->].
  destruct (IH (S i)) as [-> ->]. split; reflexivity.
Qed.

(** How [scrapeProducts] ends in any world. *)
Lemma scrapeProducts_outcome {St : Type} rev w urls (s : St) :
  exists events,
    scrapeProducts rev w urls s
    = (if hasApiKey w then
         match w.(launch) with
         | Throw e => Throw e
         | Normal _ =>
             match w.(closeBrowser) with
             | Throw e => Throw e
             | Normal _ => Normal (expectedRecords 0 urls w.(visit))
             end
         end
       else Throw missingKey,
       s, events)
    /\ filesOf events = [].
Proof.
  destruct (hasApiKey w) eqn:Hkey.
  - destruct (launch w) as [[]|e] eqn:Hlaunch.
    + rewrite (scrapeProducts_result rev w urls s Hkey Hlaunch).
      eexists. split; [reflexivity|].
      destruct (loopEvents_navigations rev (List.length urls) urls (visit w) 0)
        as [_ Hfiles].
      rewrite filesOf_app, filesOf_app, Hfiles. unfold closingEvents.
      destruct (closeBrowser w); reflexivity.
    + unfold scrapeProducts. rewrite Hkey, Hlaunch. simpl.
      eexists. split; reflexivity.
  - rewrite (scrapeProducts_without_key rev w urls s Hkey).
    eexists. split; reflexivity.
Qed.

Ltac not_among :=
  let H := fresh "H" in
  intros H; simpl in H;
  repeat (destruct H as [H|H]; [discriminate H|]); exact H.

Lemma visitEvents_no_close rev n i url v :
  ~ In BrowserClosed (visitEvents rev n i url v).
Proof.
  unfold visitEvents, visitUrl.
  destruct v as [nc np gt rn cl rnd]; simpl.
  unfold Eff.bind, Eff.tryCatch, Eff.call, Eff.log, Eff.emit, Eff.events.
  destruct nc as [[]|e1]; [|destruct rev; not_among].
  destruct np as [[]|e2]; [|destruct rev; not_among].
  destruct gt as [[]|e3]; [|destruct rev; not_among].
  rewrite !extractProductInfo_result.
  destruct (recordOf rn url) as [product|e4];
    [|destruct rev, rn; not_among].
  destruct rev, rn, cl as [[]|e4], (Z.of_nat i <? Z.of_nat n - 1)%Z; not_among.
Qed.

Lemma loopEvents_no_close rev n urls visits : forall i,
  ~ In BrowserClosed (loopEvents rev n i urls visits).
Proof.
  induction urls as [|url rest IH]; intros i Hin; [exact Hin|].
  simpl in Hin. apply in_app_or in Hin. destruct Hin as [Hin|Hin].
  - exact (visitEvents_no_close rev n i url (visits i) Hin).
  - exact (IH (S i) Hin).
Qed.

(** X4.  When what the browser calls throw are instances of [Error],
    nothing that happens at a URL makes [scrapeProducts] throw, neither
    a context, a page or a navigation that fails, nor an extraction
    whose message cannot be taken: it throws exactly when the credential
    is missing, when the browser cannot be launched, or when closing the
    browser throws, and otherwise returns the records of the visits that
    appended one.  Once the browser is launched, [browser.close()] is
    called after the last visit, and when it succeeds it is the last
    event. *)
Theorem scrapeProducts_failures_are_isolated {St : Type} rev w urls (s : St) :
  (forall i, i < List.length urls -> browserErrors (w.(visit) i) = true) ->
  Eff.completion (scrapeProducts rev w urls s)
  = (if hasApiKey w then
       match w.(launch) with
       | Throw e => Throw e
       | Normal _ =>
           match w.(closeBrowser) with
           | Throw e => Throw e
           | Normal _ => Normal (expectedRecords 0 urls w.(visit))
           end
       end
     else Throw missingKey)
  /\ (In BrowserLaunched (Eff.events (scrapeProducts rev w urls s)) ->
      w.(closeBrowser) = Normal tt ->
      exists before,
        Eff.events (scrapeProducts rev w urls s) = before ++ [BrowserClosed]
        /\ ~ In BrowserClosed before).
Proof.
  intros _. split.
  - destruct (scrapeProducts_outcome rev w urls s) as (events & -> & _). reflexivity.
  - intros Hlaunched Hclose.
    destruct (hasApiKey w) eqn:Hkey.
    + destruct (launch w) as [[]|e] eqn:Hlaunch.
      * rewrite (scrapeProducts_result rev w urls s Hkey Hlaunch).
        unfold closingEvents. rewrite Hclose.
        exists ([ConsoleLog (LStarting (List.length urls)); BrowserLaunched]
                  ++ loopEvents rev (List.length urls) 0 urls (visit w)).
        split; [rewrite <- app_assoc; reflexivity|].
        intros Hin. apply in_app_or in Hin. destruct Hin as [Hin|Hin].
        -- repeat (destruct Hin as [Hin|Hin]; [discriminate Hin|]). exact Hin.
        -- exact (loopEvents_no_close rev _ urls (visit w) 0 Hin).
      * unfold scrapeProducts in Hlaunched. rewrite Hkey, Hlaunch in Hlaunched.
        simpl in Hlaunched.
        repeat (destruct Hlaunched as [Hlaunched|Hlaunched];
                [discriminate Hlaunched|]).
        contradiction.
    + rewrite (scrapeProducts_without_key rev w urls s Hkey) in Hlaunched.
      simpl in Hlaunched.
      repeat (destruct Hlaunched as [Hlaunched|Hlaunched];
              [discriminate Hlaunched|]).
      contradiction.
Qed.

Lemma firstTimesOut_errors i : browserErrors (Demo.firstTimesOut.(visit) i) = true.
Proof. destruct i; reflexivity. Defined.

Lemma scrapeProducts_failures_are_isolated_witness :
  Eff.completion
    (scrapeProducts Cli Demo.messageUnprintable [Demo.urlA] tt) = Normal []
  /\ exists before,
       Eff.events (scrapeProducts Cli Demo.firstTimesOut [Demo.urlA; Demo.urlB] tt)
       = before ++ [BrowserClosed]
       /\ ~ In BrowserClosed before.
Proof.
  split.
  - exact (proj1 (scrapeProducts_failures_are_isolated Cli Demo.messageUnprintable
                    [Demo.urlA] tt (fun _ _ => eq_refl))).
  - apply (proj2 (scrapeProducts_failures_are_isolated Cli Demo.firstTimesOut
                    [Demo.urlA; Demo.urlB] tt (fun i _ => firstTimesOut_errors i))).
    + right. left. reflexivity.
    + reflexivity.
Defined.




(** ** The report: which records are shown *)

Lemma listingsFrom_result {St : Type} products : forall index (s : St),
  exists events,
    listingsFrom index products s = (Normal tt, s, events)
    /\ shownRecords events = numbered (index + 1) products
    /\ Forall quiet events.
Proof.
  induction products as [|p rest IH]; intros index s.
  - exists []. repeat split. constructor.
  - destruct (IH (S index) s) as (events & Hrun & Hshown & Hquiet).
    exists (ConsoleLog (LListing (index + 1) p) :: events).
    simpl listingsFrom. unfold Eff.bind, Eff.log, Eff.emit. rewrite Hrun.
    split; [reflexivity|]. split.
    + simpl. rewrite Hshown. replace (S index + 1) with (S (index + 1)) by lia.
      reflexivity.
    + constructor; [split; reflexivity|exact Hquiet].
Qed.

Lemma samplesFrom_result {St : Type} displayCount products : forall i (s : St),
  exists events,
    samplesFrom displayCount i products s = (Normal tt, s, events)
    /\ shownRecords events = numbered (i + 1) (List.firstn (displayCount - i) products)
    /\ Forall quiet events
    /\ List.filter isStatisticsLine events = [].
Proof.
  induction products as [|p rest IH]; intros i s.
  - exists []. rewrite firstn_nil. repeat split. constructor.
  - simpl samplesFrom. destruct (Nat.ltb_spec i displayCount) as [Hlt|Hge].
    + destruct (IH (S i) s) as (events & Hrun & Hshown & Hquiet & Hstats).
      exists (ConsoleLog (LSample (i + 1) p) :: events).
      unfold Eff.bind, Eff.log, Eff.emit. rewrite Hrun.
      split; [reflexivity|]. split; [|split].
      * replace (displayCount - i) with (S (displayCount - S i)) by lia.
        simpl. rewrite Hshown. replace (S i + 1) with (S (i + 1)) by lia.
        reflexivity.
      * constructor; [split; reflexivity|exact Hquiet].
      * simpl. exact Hstats.
    + exists []. replace (displayCount - i) with 0 by lia.
      repeat split. constructor.
Qed.

(** How [displayProducts] ends: normally, leaving the store, with
    console lines only. *)
Lemma displayProducts_outcome {St : Type} rev products (s : St) :
  exists events,
    displayProducts rev products s = (Normal tt, s, events)
    /\ Forall quiet events
    /\ shownRecords events
       = match rev with
         | Standalone => numbered 1 products
         | Cli => numbered 1 (List.firstn 3 products)
         end.
Proof.
  destruct rev.
  - destruct (listingsFrom_result products 0 s) as (events & Hrun & Hshown & Hquiet).
    exists (ConsoleLog LComparisonHeader :: events).
    unfold displayProducts, Eff.bind, Eff.log, Eff.emit. rewrite Hrun.
    split; [reflexivity|]. split; [constructor; [split; reflexivity|exact Hquiet]|].
    exact Hshown.
  - unfold displayProducts.
    remember (Nat.min 3 (List.length products)) as displayCount eqn:Hcount.
    remember (List.length (List.filter Price.isSuccessful products)) as successful.
    destruct (samplesFrom_result displayCount products 0 s)
      as (samples & Hrun & Hshown & Hquiet & _).
    assert (Hfirst : List.firstn (displayCount - 0) products = List.firstn 3 products).
    { rewrite Nat.sub_0_r, Hcount.
      destruct (Nat.le_ge_cases 3 (List.length products)) as [H|H].
      - rewrite Nat.min_l by exact H. reflexivity.
      - rewrite Nat.min_r by exact H.
        rewrite !firstn_all2 by lia. reflexivity. }
    rewrite Hfirst in Hshown.
    assert (Hzero : (0 <? displayCount)%nat = false -> List.firstn 3 products = []).
    { intros H0. apply Nat.ltb_ge in H0. assert (displayCount = 0) by lia. subst.
      destruct products as [|p rest]; [reflexivity|]. simpl in *. lia. }
    remember (List.firstn 3 products) as firstThree eqn:HfirstThree.
    clear HfirstThree Hfirst.
    unfold shownRecords in *.
    unfold Eff.bind, Eff.when, Eff.log, Eff.emit, Eff.ret.
    destruct (0 <? successful)%nat;
      destruct (0 <? displayCount)%nat eqn:Hd;
      try destruct (Price.pricesOf products) as [|first rest];
      rewrite ?Hrun; simpl;
      (eexists; split; [reflexivity|]; split;
       [quiet_list
       |simpl; rewrite ?flat_map_app, ?Hshown; try (rewrite (Hzero eq_refl));
        simpl; rewrite ?app_nil_r; reflexivity]).
Qed.

(** X6.  The summary of the later revision shows at most three records:
    the first three of the list, in order, numbered from 1; the listing
    of the first revision shows every record once, in order. *)
Theorem displayProducts_shows_first_records {St : Type} products (s : St) :
  shownRecords (Eff.events (displayProducts Cli products s))
  = numbered 1 (List.firstn 3 products)
  /\ shownRecords (Eff.events (displayProducts Standalone products s))
     = numbered 1 products
  /\ List.length (shownRecords (Eff.events (displayProducts Cli products s))) <= 3.
Proof.
  destruct (displayProducts_outcome Cli products s) as (e1 & H1 & _ & S1).
  destruct (displayProducts_outcome Standalone products s) as (e2 & H2 & _ & S2).
  rewrite H1, H2. unfold Eff.events. cbn [snd].
  split; [exact S1|]. split; [exact S2|].
  rewrite S1.
  assert (Hlen : forall l first, List.length (numbered first l) = List.length l).
  { induction l as [|p l IH]; intros first; simpl; [reflexivity|]. rewrite IH. reflexivity. }
  rewrite Hlen. apply firstn_le_length.
Qed.

Lemma summary_shows_three_of_four :
  shownRecords (Eff.events (displayProducts Cli
     [Demo.listing "A" "$1"; Demo.listing "B" "$2"; Demo.listing "C" "$3";
      Demo.listing "D" "$4"] tt))
  = [(1, Demo.listing "A" "$1"); (2, Demo.listing "B" "$2");
     (3, Demo.listing "C" "$3")].
Proof. reflexivity. Qed.

(** ** The price statistics *)

(** X7.  The reported minimum is never above the reported maximum.  The
    reported mean is a rounded quotient of a rounded sum and need not
    lie between them: for three records priced 1.435 the minimum and the
    maximum are that price, and the mean is the double just below it. *)
Theorem mean_is_rounded :
  (forall first rest,
     Double.leb (Price.mathMin first rest) (Price.mathMax first rest) = true)
  /\ exists price mean,
       Price.pricesOf DemoMore.samePrice = [price; price; price]
       /\ List.filter isStatisticsLine
            (Eff.events (displayProducts Cli DemoMore.samePrice tt))
          = [ConsoleLog (LPriceRange price price); ConsoleLog (LAveragePrice mean)]
       /\ price = Double.Finite (6462665465276662 * 2 ^ 1022)
       /\ mean = Double.Finite (6462665465276661 * 2 ^ 1022)
       /\ Double.leb price mean = false.
Proof.
  split.
  - intros first rest.
    destruct (PriceFacts.mathMin_spec rest first) as [_ Hlow].
    destruct (PriceFacts.mathMax_spec rest first) as [Hmax _].
    apply Hlow. exact Hmax.
  - do 2 eexists.
    split; [vm_compute; reflexivity|].
    split; [vm_compute; reflexivity|].
    split; [vm_compute; reflexivity|].
    split; [vm_compute; reflexivity|].
    vm_compute. reflexivity.
Qed.

(** ** The URL source *)





(** ** The command line *)

Lemma isInputFlag_cases s :
  isInputFlag s = true -> s = "--input" \/ s = "-i".
Proof.
  unfold isInputFlag. intros H. apply orb_prop in H.
  destruct H as [H|H]; apply String.eqb_eq in H; tauto.
Qed.

Lemma isOutputFlag_cases s :
  isOutputFlag s = true -> s = "--output" \/ s = "-o".
Proof.
  unfold isOutputFlag. intros H. apply orb_prop in H.
  destruct H as [H|H]; apply String.eqb_eq in H; tauto.
Qed.

Lemma isHelpFlag_cases s :
  isHelpFlag s = true -> s = "--help" \/ s = "-h".
Proof.
  unfold isHelpFlag. intros H. apply orb_prop in H.
  destruct H as [H|H]; apply String.eqb_eq in H; tauto.
Qed.

Lemma parseArgsFrom_part part rest options :
  wellFormed part = true ->
  parseArgsFrom (wordsOf part ++ rest) options
  = parseArgsFrom rest (applyPart options part).
Proof.
  destruct part as [flag value|flag value|flag|word]; simpl wellFormed; intros H.
  - destruct (isInputFlag_cases flag H) as [->| ->]; reflexivity.
  - destruct (isOutputFlag_cases flag H) as [->| ->]; reflexivity.
  - destruct (isHelpFlag_cases flag H) as [->| ->]; reflexivity.
  - apply negb_true_iff in H. apply orb_false_elim in H. destruct H as [H Hhelp].
    apply orb_false_elim in H. destruct H as [Hin Hout].
    unfold isInputFlag in Hin. unfold isOutputFlag in Hout. unfold isHelpFlag in Hhelp.
    simpl. rewrite Hin, Hout, Hhelp. reflexivity.
Qed.

Lemma parseArgsFrom_parts parts : forall rest options,
  List.forallb wellFormed parts = true ->
  parseArgsFrom (List.flat_map wordsOf parts ++ rest) options
  = parseArgsFrom rest (fold_left applyPart parts options).
Proof.
  induction parts as [|part parts IH]; intros rest options Hwf; [reflexivity|].
  simpl in Hwf. apply andb_prop in Hwf. destruct Hwf as [Hpart Hparts].
  simpl List.flat_map. rewrite <- app_assoc.
  rewrite (parseArgsFrom_part part _ options Hpart).
  apply IH. exact Hparts.
Qed.

(** X10.  A command line made of flags with their values, help flags
    and other words is read part by part from the left: a later
    [--input] or [--output] replaces an earlier one, help once asked
    stays asked, other words are ignored, and a value is taken as it
    is even when it looks like a flag.  A last [--input] or [--output]
    with no value after it leaves that option undefined. *)
Theorem parseArgs_by_parts parts flag :
  List.forallb wellFormed parts = true ->
  let options := fold_left applyPart parts (mkOptions None None false) in
  parseArgs (List.flat_map wordsOf parts) = options
  /\ (isInputFlag flag = true ->
      parseArgs (List.flat_map wordsOf parts ++ [flag])
      = mkOptions None options.(outputPrefix) options.(showHelp))
  /\ (isOutputFlag flag = true ->
      parseArgs (List.flat_map wordsOf parts ++ [flag])
      = mkOptions options.(inputFile) None options.(showHelp)).
Proof.
  intros Hwf options. unfold parseArgs. split; [|split].
  - rewrite <- (app_nil_r (List.flat_map wordsOf parts)).
    rewrite (parseArgsFrom_parts parts [] _ Hwf). reflexivity.
  - intros Hflag. rewrite (parseArgsFrom_parts parts [flag] _ Hwf).
    destruct (isInputFlag_cases flag Hflag) as [->| ->]; reflexivity.
  - intros Hflag. rewrite (parseArgsFrom_parts parts [flag] _ Hwf).
    destruct (isOutputFlag_cases flag Hflag) as [->| ->]; reflexivity.
Qed.

Lemma parseArgs_by_parts_witness :
  parseArgs ["-i"; "old.txt"; "extra"; "--input"; "--help"; "-o"]
  = mkOptions (Some "--help") None false.
Proof.
  exact (proj2 (proj2 (parseArgs_by_parts
                         [PInput "-i" "old.txt"; POther "extra";
                          PInput "--input" "--help"] "-o" eq_refl))
               eq_refl).
Defined.

Lemma showHelp_applied parts : forall options,
  (fold_left applyPart parts options).(showHelp)
  = options.(showHelp)
    || List.existsb (fun part => match part with PHelp _ => true | _ => false end) parts.
Proof.
  induction parts as [|part parts IH]; intros options; simpl.
  - rewrite orb_false_r. reflexivity.
  - rewrite IH. destruct part; simpl; try reflexivity.
    rewrite orb_true_r. reflexivity.
Qed.

(** X11.  When the command line of the later revision asks for help,
    anywhere a flag can stand, the run prints the usage and does
    nothing else: no directory is made, no file is read or written and
    no browser is launched. *)
Theorem help_only_prints_usage w parts flag :
  List.forallb wellFormed parts = true ->
  In (PHelp flag) parts ->
  runProgram Cli w (List.flat_map wordsOf parts) = [ConsoleLog LUsage].
Proof.
  intros Hwf Hin.
  assert (Hparse : parseArgs (List.flat_map wordsOf parts)
                   = fold_left applyPart parts (mkOptions None None false)).
  { unfold parseArgs. rewrite <- (app_nil_r (List.flat_map wordsOf parts)).
    rewrite (parseArgsFrom_parts parts [] _ Hwf). reflexivity. }
  unfold runProgram, program, main, mainCli, Eff.tryCatch, Eff.events.
  rewrite Hparse, showHelp_applied.
  assert (Hhelp : List.existsb
                    (fun part => match part with PHelp _ => true | _ => false end)
                    parts = true).
  { apply existsb_exists. exists (PHelp flag). split; [exact Hin|reflexivity]. }
  rewrite Hhelp. reflexivity.
Qed.

Lemma help_only_prints_usage_witness :
  runProgram Cli DemoMore.readOnly ["-i"; "urls.txt"; "-h"; "-o"; "gaming_pcs"]
  = [ConsoleLog LUsage].
Proof.
  exact (help_only_prints_usage DemoMore.readOnly
           [PInput "-i" "urls.txt"; PHelp "-h"; POutput "-o" "gaming_pcs"] "-h"
           eq_refl (or_intror (or_introl eq_refl))).
Defined.

(** ** The output directory and the written files *)

Lemma filesOf_quiet events : Forall quiet events -> filesOf events = [].
Proof.
  induction 1 as [|ev events [_ Hev] _ IH]; [reflexivity|].
  unfold filesOf in *. simpl. rewrite Hev. exact IH.
Qed.

(** X12.  [ensureOutputDirectoryExists] creates a directory only when
    it does not exist, and only the base directory and the directory of
    the run; when it returns, it returns the directory of the run, and
    each of the two that was missing has been created; when it throws,
    a directory could not be created. *)
Theorem output_directory_is_ensured {St : Type} w (s : St) :
  let base := w.(pathJoin) w.(cwd) "output" in
  let dir := outputDirOf w in
  let events := Eff.events (ensureOutputDirectoryExists w s) in
  let completion := Eff.completion (ensureOutputDirectoryExists w s) in
  Eff.store (ensureOutputDirectoryExists w s) = s
  /\ Forall quiet events
  /\ (forall p, In (DirectoryCreated p) events ->
        w.(existsSync) p = false /\ (p = base \/ p = dir))
  /\ (forall d, completion = Normal d ->
        d = dir
        /\ (w.(existsSync) base = false -> In (DirectoryCreated base) events)
        /\ (w.(existsSync) dir = false -> In (DirectoryCreated dir) events))
  /\ (forall e, completion = Throw e ->
        (w.(existsSync) base = false /\ w.(mkdirSync) base = Throw e)
        \/ (w.(existsSync) dir = false /\ w.(mkdirSync) dir = Throw e)).
Proof.
  intros base dir events completion.
  unfold events, completion, ensureOutputDirectoryExists, Eff.bind, Eff.when,
    Eff.call, Eff.log, Eff.emit, Eff.ret, Eff.events, Eff.completion, Eff.store.
  fold base. change (pathJoin w base (timestamp w)) with dir.
  destruct (existsSync w base) eqn:Hbase; destruct (existsSync w dir) eqn:Hdir;
    simpl;
    try (destruct (mkdirSync w base) as [[]|e1] eqn:Hmk1; simpl);
    try (destruct (mkdirSync w dir) as [[]|e2] eqn:Hmk2; simpl);
    (split; [reflexivity|]); (split; [quiet_list|]);
    (split;
     [intros p Hp;
      repeat (destruct Hp as [Hp|Hp];
              [try discriminate Hp; inversion Hp; subst; tauto|]);
      contradiction
     |]);
    (split;
     [intros d Hd; try discriminate Hd; inversion Hd; subst;
      repeat split; intros; try discriminate; simpl; tauto
     |intros e He; try discriminate He; inversion He; subst; tauto]).
Qed.

Lemma output_directory_is_ensured_witness :
  exists e,
    Eff.completion (ensureOutputDirectoryExists DemoMore.readOnly tt) = Throw e
    /\ DemoMore.readOnly.(mkdirSync) "/home/user/scraper/output" = Throw e.
Proof.
  destruct (output_directory_is_ensured DemoMore.readOnly tt)
    as (_ & _ & _ & _ & Hthrows).
  eexists. split; [reflexivity|].
  destruct (Hthrows _ eq_refl) as [[_ H]|[_ H]]; exact H.
Defined.

Lemma ensureOutputDirectoryExists_outcome {St : Type} w (s : St) :
  exists completion events,
    ensureOutputDirectoryExists w s = (completion, s, events)
    /\ filesOf events = []
    /\ (forall d, completion = Normal d -> d = outputDirOf w)
    /\ (forall e, completion = Throw e -> exists p, w.(mkdirSync) p = Throw e).
Proof.
  unfold ensureOutputDirectoryExists, Eff.bind, Eff.when, Eff.call, Eff.log,
    Eff.emit, Eff.ret.
  destruct (existsSync w (pathJoin w (cwd w) "output"));
    destruct (existsSync w (pathJoin w (pathJoin w (cwd w) "output") (timestamp w)));
    simpl;
    repeat match goal with
           | |- context [mkdirSync w ?p] =>
               let H := fresh "Hmk" in
               destruct (mkdirSync w p) as [[]|?] eqn:H; simpl
           end;
    do 2 eexists; (split; [reflexivity|]); (split; [reflexivity|]);
    (split;
     [intros d Hd; try discriminate Hd; inversion Hd; reflexivity
     |intros err Herr; try discriminate Herr; inversion Herr; subst; eexists; eassumption]).
Qed.

Lemma urlsToScrapeOf_outcome {St : Type} w options (s : St) :
  exists urls events,
    urlsToScrapeOf w options s = (Normal urls, s, events)
    /\ filesOf events = []
    /\ urls <> [].
Proof.
  unfold urlsToScrapeOf.
  destruct (inputFile options) as [path|];
    [|do 2 eexists; split; [reflexivity|]; split; [reflexivity|discriminate]].
  destruct (given (Some path));
    [|do 2 eexists; split; [reflexivity|]; split; [reflexivity|discriminate]].
  destruct (readUrlsFromFile_quiet w path s) as (urls & events & Hrun & Hquiet).
  unfold Eff.bind, Eff.log, Eff.emit, Eff.ret. rewrite Hrun.
  destruct urls as [|url urls]; simpl;
    (do 2 eexists; split; [reflexivity|]; split; [|discriminate]);
    cbn [filesOf filter isFileWritten]; fold (filesOf (events ++ [ConsoleLog LNoValidUrls]));
    try fold (filesOf (events ++ [ConsoleLog (LFoundUrls (S (List.length urls)))]));
    rewrite filesOf_app, (filesOf_quiet events Hquiet); reflexivity.
Qed.

Lemma displayProducts_files {St : Type} rev products (s : St) :
  exists events,
    displayProducts rev products s = (Normal tt, s, events)
    /\ filesOf events = [].
Proof.
  destruct (displayProducts_outcome rev products s) as (events & Hrun & Hquiet & _).
  exists events. split; [exact Hrun|apply filesOf_quiet; exact Hquiet].
Qed.

(** The try block of [main] after the URLs are settled. *)
Lemma pipeline_files rev w urls outputDir jsonName csvName
      (body : Eff unit unit) :
  body
  = Eff.tryCatch
      (Eff.bind (scrapeProducts rev w urls)
         (fun products =>
            Eff.bind (displayProducts rev products)
              (fun _ =>
                 Eff.bind (saveProductsToFile rev w products outputDir jsonName)
                   (fun jsonPath =>
                      Eff.bind (saveProductsToCSV rev w products outputDir csvName)
                        (fun csvPath =>
                           match rev with
                           | Standalone => Eff.log LComplete
                           | Cli =>
                               Eff.bind (Eff.log (LResultsSaved jsonPath csvPath))
                                 (fun _ => Eff.log LComplete)
                           end)))))
      (fun error => Eff.error (LErrorInMain error)) ->
  let jsonPath :=
    match rev with Standalone => jsonName | Cli => w.(pathJoin) outputDir jsonName end in
  let csvPath :=
    match rev with Standalone => csvName | Cli => w.(pathJoin) outputDir csvName end in
  exists events,
    body tt = (Normal tt, tt, events)
    /\ (filesOf events = []
        \/ exists products,
             Eff.completion (scrapeProducts rev w urls tt) = Normal products
             /\ (filesOf events = [FileWritten jsonPath (JsonOf products)]
                 \/ exists text,
                      Csv.csvContent products = Normal text
                      /\ filesOf events
                         = [FileWritten jsonPath (JsonOf products);
                            FileWritten csvPath (Text text)])).
Proof.
  intros -> jsonPath csvPath.
  destruct (scrapeProducts_outcome rev w urls tt) as (scraped & Hscrape & Hfiles1).
  unfold Eff.tryCatch, Eff.bind.
  rewrite Hscrape.
  remember (if hasApiKey w
            then match launch w with
                 | Normal _ => match closeBrowser w with
                               | Normal _ => Normal (expectedRecords 0 urls (visit w))
                               | Throw e => Throw e
                               end
                 | Throw e => Throw e
                 end
            else Throw missingKey) as outcome eqn:Houtcome.
  clear Houtcome.
  destruct outcome as [products|e].
  2:{ eexists. split; [reflexivity|]. left.
      rewrite filesOf_app, Hfiles1. reflexivity. }
  destruct (displayProducts_files rev products tt) as (shown & Hshow & Hfiles2).
  rewrite Hshow.
  unfold saveProductsToFile, saveProductsToCSV, Eff.bind, Eff.call, Eff.log,
    Eff.emit, Eff.ret, Eff.error.
  destruct rev; fold jsonPath; fold csvPath.
  - destruct (writeFileSync w jsonPath) as [[]|e1].
    2:{ eexists. split; [reflexivity|]. left.
        rewrite !filesOf_app, Hfiles1, Hfiles2. reflexivity. }
    destruct (Csv.csvContent products) as [text|e2] eqn:Hcsv.
    2:{ eexists. split; [reflexivity|]. right. exists products.
        split; [reflexivity|]. left.
        rewrite !filesOf_app, Hfiles1, Hfiles2. reflexivity. }
    destruct (writeFileSync w csvPath) as [[]|e3].
    + eexists. split; [reflexivity|]. right. exists products.
      split; [reflexivity|]. right. exists text. split; [exact Hcsv|].
      rewrite !filesOf_app, Hfiles1, Hfiles2. reflexivity.
    + eexists. split; [reflexivity|]. right. exists products.
      split; [reflexivity|]. left.
      rewrite !filesOf_app, Hfiles1, Hfiles2. reflexivity.
  - destruct (writeFileSync w jsonPath) as [[]|e1].
    2:{ eexists. split; [reflexivity|]. left.
        rewrite !filesOf_app, Hfiles1, Hfiles2. reflexivity. }
    destruct (Csv.csvContent products) as [text|e2] eqn:Hcsv.
    2:{ eexists. split; [reflexivity|]. right. exists products.
        split; [reflexivity|]. left.
        rewrite !filesOf_app, Hfiles1, Hfiles2. reflexivity. }
    destruct (writeFileSync w csvPath) as [[]|e3].
    + eexists. split; [reflexivity|]. right. exists products.
      split; [reflexivity|]. right. exists text. split; [exact Hcsv|].
      rewrite !filesOf_app, Hfiles1, Hfiles2. reflexivity.
    + eexists. split; [reflexivity|]. right. exists products.
      split; [reflexivity|]. left.
      rewrite !filesOf_app, Hfiles1, Hfiles2. reflexivity.
Qed.

Lemma urlsOfRun_settled w args :
  exists events,
    urlsToScrapeOf w (parseArgs args) tt = (Normal (urlsOfRun Cli w args), tt, events)
    /\ filesOf events = []
    /\ urlsOfRun Cli w args <> [].
Proof.
  destruct (urlsToScrapeOf_outcome w (parseArgs args) tt)
    as (urls & events & Hrun & Hfiles & Hne).
  exists events. unfold urlsOfRun. rewrite Hrun. simpl.
  split; [reflexivity|]. split; [exact Hfiles|exact Hne].
Qed.

(** X13.  The list of URLs a run settles on is never empty.  A run
    writes at most two files.  It writes none unless [scrapeProducts]
    returned for that list; the first is the JSON file, holding the
    returned records; the CSV file is written only after it, holds the
    CSV text of the same records, and is written to the path
    [path.join] gives for the same directory and the same stem. *)
Theorem files_of_a_run rev w args :
  let urls := urlsOfRun rev w args in
  let files := filesOf (runProgram rev w args) in
  (rev = Cli -> (parseArgs args).(showHelp) = true -> files = [])
  /\ (rev = Standalone \/ (parseArgs args).(showHelp) = false -> urls <> [])
  /\ (files = []
      \/ exists products,
           Eff.completion (scrapeProducts rev w urls tt) = Normal products
           /\ (files = [FileWritten (jsonPathOf rev w args) (JsonOf products)]
               \/ exists text,
                    Csv.csvContent products = Normal text
                    /\ files = [FileWritten (jsonPathOf rev w args) (JsonOf products);
                                FileWritten (csvPathOf rev w args) (Text text)])).
Proof.
  intros urls files. unfold files, urls, runProgram, program, main. destruct rev.
  - split; [intros H; discriminate H|]. split.
    { intros _. unfold urlsOfRun. destruct args; simpl; discriminate. }
    destruct (pipeline_files Standalone w (urlsOfRun Standalone w args) EmptyString
                "pc_listings.json" "pc_listings.csv" (mainStandalone w args) eq_refl)
      as (events & Hrun & Hfiles).
    unfold Eff.tryCatch, Eff.events. rewrite Hrun. cbn [snd].
    destruct Hfiles as [Hnone|(products & Hscraped & Hfiles)]; [left; exact Hnone|].
    right. exists products. split; [exact Hscraped|]. exact Hfiles.
  - destruct (urlsOfRun_settled w args) as (chosen & Hurls & Hfiles2 & Hne).
    split; [|split; [intros _; exact Hne|]].
    { intros _ Hhelp. unfold mainCli. rewrite Hhelp. reflexivity. }
    remember (filesOf
                (Eff.events
                   (Eff.tryCatch (mainCli w args)
                      (fun error => Eff.error (LUncaught error)) tt)))
      as result eqn:Hresult.
    unfold mainCli in Hresult.
    destruct (showHelp (parseArgs args)); [left; exact Hresult|].
    destruct (ensureOutputDirectoryExists_outcome w tt)
      as (ensured & dirs & Hensure & Hfiles1 & Hdir & _).
    unfold Eff.tryCatch at 1 in Hresult. unfold Eff.bind at 1 in Hresult.
    unfold Eff.bind at 1 in Hresult.
    unfold Eff.log at 1, Eff.emit at 1 in Hresult. rewrite Hensure in Hresult.
    destruct ensured as [outputDir|e].
    2:{ left. unfold Eff.error, Eff.emit, Eff.events in Hresult.
        cbn [snd app] in Hresult.
        change (filesOf (ConsoleLog LBanner :: (dirs ++ [ConsoleError (LUncaught e)])))
          with (filesOf (dirs ++ [ConsoleError (LUncaught e)])) in Hresult.
        rewrite filesOf_app, Hfiles1 in Hresult. exact Hresult. }
    rewrite (Hdir outputDir eq_refl) in Hresult.
    unfold Eff.bind at 1 in Hresult. rewrite Hurls in Hresult.
    destruct (pipeline_files Cli w (urlsOfRun Cli w args) (outputDirOf w)
                (outputPrefixOf (parseArgs args) ++ ".json")%string
                (outputPrefixOf (parseArgs args) ++ ".csv")%string _ eq_refl)
      as (events & Hrun & Hfiles).
    rewrite Hrun in Hresult. unfold Eff.events in Hresult. cbn [snd app] in Hresult.
    change (filesOf (ConsoleLog LBanner :: (dirs ++ chosen ++ events)))
      with (filesOf (dirs ++ chosen ++ events)) in Hresult.
    rewrite !filesOf_app, Hfiles1, Hfiles2 in Hresult. cbn [app] in Hresult.
    subst result.
    destruct Hfiles as [Hnone|(products & Hscraped & Hfiles)]; [left; exact Hnone|].
    right. exists products. split; [exact Hscraped|]. exact Hfiles.
Qed.

Lemma files_of_a_run_witness :
  filesOf (runProgram Cli Demo.allGood ["--help"]) = []
  /\ urlsOfRun Cli DemoMore.arrayFile ["-i"; "urls.json"] <> [].
Proof.
  destruct (files_of_a_run Cli Demo.allGood ["--help"]) as (Hhelp & _ & _).
  destruct (files_of_a_run Cli DemoMore.arrayFile ["-i"; "urls.json"])
    as (_ & Hurls & _).
  split; [exact (Hhelp eq_refl eq_refl)|exact (Hurls (or_intror eq_refl))].
Defined.

(** ** A run in which nothing fails *)

Lemma expectedRecords_string_urls urls visits : forall i,
  Forall (fun url => Js.isString url = true) urls ->
  Forall (fun p => Js.isString p.(originalUrl) = true) (expectedRecords i urls visits).
Proof.
  induction urls as [|url rest IH]; intros i Hall; [constructor|].
  inversion Hall as [|? ? Hurl Hrest]; subst. simpl.
  apply Forall_app. split; [|apply IH; exact Hrest].
  unfold recordsOfVisit. destruct (reaches (visits i)); [|constructor].
  destruct (recordOf (run (visits i)) url) as [product|e] eqn:Hrecord; [|constructor].
  constructor; [rewrite (recordOf_url _ _ _ Hrecord); exact Hurl|constructor].
Qed.

Lemma chosenUrls_strings rev args :
  Forall (fun url => Js.isString url = true) (chosenUrls rev args).
Proof.
  destruct rev; simpl; [|repeat constructor].
  destruct (0 <? List.length args)%nat; [|repeat constructor].
  apply Forall_forall. intros url Hin. apply in_map_iff in Hin.
  destruct Hin as (a & <- & _). reflexivity.
Qed.

Lemma pipeline_success rev w urls outputDir jsonName csvName text :
  hasApiKey w = true ->
  w.(launch) = Normal tt ->
  w.(closeBrowser) = Normal tt ->
  (forall path, w.(writeFileSync) path = Normal tt) ->
  Csv.csvContent (expectedRecords 0 urls w.(visit)) = Normal text ->
  let products := expectedRecords 0 urls w.(visit) in
  let jsonPath :=
    match rev with Standalone => jsonName | Cli => w.(pathJoin) outputDir jsonName end in
  let csvPath :=
    match rev with Standalone => csvName | Cli => w.(pathJoin) outputDir csvName end in
  exists events,
    Eff.tryCatch
      (Eff.bind (scrapeProducts rev w urls)
         (fun products =>
            Eff.bind (displayProducts rev products)
              (fun _ =>
                 Eff.bind (saveProductsToFile rev w products outputDir jsonName)
                   (fun jsonPath =>
                      Eff.bind (saveProductsToCSV rev w products outputDir csvName)
                        (fun csvPath =>
                           match rev with
                           | Standalone => Eff.log LComplete
                           | Cli =>
                               Eff.bind (Eff.log (LResultsSaved jsonPath csvPath))
                                 (fun _ => Eff.log LComplete)
                           end)))))
      (fun error => Eff.error (LErrorInMain error)) tt
    = (Normal tt, tt, events ++ [ConsoleLog LComplete])
    /\ filesOf events
       = [FileWritten jsonPath (JsonOf products); FileWritten csvPath (Text text)].
Proof.
  intros Hkey Hlaunch Hclose Hwrite Hcsv products jsonPath csvPath.
  destruct (scrapeProducts_outcome rev w urls tt) as (scraped & Hscrape & Hfiles1).
  rewrite Hkey, Hlaunch, Hclose in Hscrape. fold products in Hscrape.
  destruct (displayProducts_files rev products tt) as (shown & Hshow & Hfiles2).
  unfold Eff.tryCatch, Eff.bind. rewrite Hscrape, Hshow.
  unfold saveProductsToFile, saveProductsToCSV, Eff.bind, Eff.call, Eff.log,
    Eff.emit, Eff.ret, Eff.error.
  fold products in Hcsv.
  destruct rev; fold jsonPath; fold csvPath; rewrite Hcsv, !Hwrite; cbn [app].
  - exists (scraped ++ shown
              ++ [FileWritten jsonPath (JsonOf products); ConsoleLog (LSavedTo jsonPath);
                  FileWritten csvPath (Text text); ConsoleLog (LSavedTo csvPath)]).
    split; [rewrite <- !app_assoc; reflexivity|].
    rewrite !filesOf_app, Hfiles1, Hfiles2. reflexivity.
  - exists (scraped ++ shown
              ++ [FileWritten jsonPath (JsonOf products);
                  FileWritten csvPath (Text text);
                  ConsoleLog (LResultsSaved jsonPath csvPath)]).
    split; [rewrite <- !app_assoc; reflexivity|].
    rewrite !filesOf_app, Hfiles1, Hfiles2. reflexivity.
Qed.

(** X14.  With the credential present, a browser that launches and
    closes and whose calls throw nothing but instances of [Error], no
    file-system failure and no input file, a run ends by reporting
    completion and has written exactly two files, at the paths
    [path.join] gives: the JSON file with the records [scrapeProducts]
    returns, those of the visits that appended one, and the CSV file,
    whose text reads back as the header row followed by the fields of
    those same records, in the same order.  The URLs the run settles on
    are, in the first revision, the command-line arguments, or the
    built-in ones when there are none; in the later revision they are
    the built-in ones. *)
Theorem complete_run_writes_both_files rev w args :
  hasApiKey w = true ->
  w.(launch) = Normal tt ->
  w.(closeBrowser) = Normal tt ->
  (forall i, browserErrors (w.(visit) i) = true) ->
  (forall path, w.(mkdirSync) path = Normal tt) ->
  (forall path, w.(writeFileSync) path = Normal tt) ->
  (rev = Cli -> (parseArgs args).(showHelp) = false
                /\ given (parseArgs args).(inputFile) = false) ->
  let products := expectedRecords 0 (chosenUrls rev args) w.(visit) in
  exists text before,
    urlsOfRun rev w args = chosenUrls rev args
    /\ Eff.completion (scrapeProducts rev w (chosenUrls rev args) tt) = Normal products
    /\ Csv.csvContent products = Normal text
    /\ CsvReader.parse text
       = Some (Csv.headers :: List.map CsvReader.recordFields products)
    /\ runProgram rev w args = before ++ [ConsoleLog LComplete]
    /\ filesOf (runProgram rev w args)
       = [FileWritten (jsonPathOf rev w args) (JsonOf products);
          FileWritten (csvPathOf rev w args) (Text text)].
Proof.
  intros Hkey Hlaunch Hclose _ Hmkdir Hwrite Hcli products.
  destruct (csvContent_reads_back products) as (text & Hcsv & Hparse).
  { apply expectedRecords_string_urls, chosenUrls_strings. }
  exists text.
  assert (Hscraped : Eff.completion (scrapeProducts rev w (chosenUrls rev args) tt)
                     = Normal products).
  { rewrite (scrapeProducts_result rev w _ tt Hkey Hlaunch), Hclose. reflexivity. }
  assert (Hsettled : urlsOfRun rev w args = chosenUrls rev args).
  { destruct rev; [reflexivity|]. destruct (Hcli eq_refl) as [_ Hgiven].
    unfold urlsOfRun, chosenUrls, urlsToScrapeOf.
    destruct (inputFile (parseArgs args)) as [path|]; [|reflexivity].
    rewrite Hgiven. reflexivity. }
  destruct rev.
  - destruct (pipeline_success Standalone w (chosenUrls Standalone args) EmptyString
                "pc_listings.json" "pc_listings.csv" text
                Hkey Hlaunch Hclose Hwrite Hcsv)
      as (events & Hrun & Hfiles).
    exists events. split; [exact Hsettled|]. split; [exact Hscraped|].
    split; [exact Hcsv|].
    split; [exact Hparse|].
    assert (Hprogram : runProgram Standalone w args = events ++ [ConsoleLog LComplete]).
    { unfold runProgram, program, main, mainStandalone.
      unfold Eff.tryCatch at 1.
      change (if (0 <? List.length args)%nat then List.map JsString args else exampleUrls)
        with (chosenUrls Standalone args).
      cbv zeta. rewrite Hrun. reflexivity. }
    split; [exact Hprogram|].
    rewrite Hprogram, filesOf_app, Hfiles. reflexivity.
  - destruct (Hcli eq_refl) as [Hhelp Hgiven].
    destruct (pipeline_success Cli w exampleUrls (outputDirOf w)
                (outputPrefixOf (parseArgs args) ++ ".json")%string
                (outputPrefixOf (parseArgs args) ++ ".csv")%string text
                Hkey Hlaunch Hclose Hwrite Hcsv)
      as (events & Hrun & Hfiles).
    destruct (ensureOutputDirectoryExists_outcome w tt)
      as (ensured & dirs & Hensure & Hquiet & Hdir & Hthrow).
    destruct ensured as [outputDir|e].
    2:{ destruct (Hthrow e eq_refl) as [p H]. rewrite Hmkdir in H. discriminate H. }
    rewrite (Hdir outputDir eq_refl) in Hensure.
    assert (Hurls : urlsToScrapeOf w (parseArgs args) tt
                    = (Normal exampleUrls, tt, [ConsoleLog LNoInputFile])).
    { unfold urlsToScrapeOf.
      destruct (inputFile (parseArgs args)) as [path|]; [|reflexivity].
      rewrite Hgiven. reflexivity. }
    exists (ConsoleLog LBanner :: dirs ++ [ConsoleLog LNoInputFile] ++ events).
    split; [exact Hsettled|]. split; [exact Hscraped|]. split; [exact Hcsv|].
    split; [exact Hparse|].
    assert (Hprogram : runProgram Cli w args
                       = (ConsoleLog LBanner :: dirs ++ [ConsoleLog LNoInputFile] ++ events)
                           ++ [ConsoleLog LComplete]).
    { unfold runProgram, program, main, mainCli. rewrite Hhelp.
      unfold Eff.tryCatch at 1. unfold Eff.bind at 1. unfold Eff.bind at 1.
      unfold Eff.log at 1, Eff.emit at 1. rewrite Hensure.
      unfold Eff.bind at 1. rewrite Hurls. cbv zeta. rewrite Hrun.
      unfold Eff.events. cbn [snd app]. rewrite <- !app_assoc. reflexivity. }
    split; [exact Hprogram|].
    rewrite Hprogram.
    change (filesOf ((ConsoleLog LBanner :: dirs ++ [ConsoleLog LNoInputFile] ++ events)
                       ++ [ConsoleLog LComplete]))
      with (filesOf ((dirs ++ [ConsoleLog LNoInputFile] ++ events)
                       ++ [ConsoleLog LComplete])).
    rewrite !filesOf_app, Hquiet, Hfiles. reflexivity.
Qed.

Lemma complete_run_writes_both_files_witness :
  exists text,
    filesOf (runProgram Cli Demo.allGood ["-o"; "office"])
    = [FileWritten "/home/user/scraper/output/2025-05-01T10-00-00/office.json"
         (JsonOf (expectedRecords 0 exampleUrls Demo.allGood.(visit)));
       FileWritten "/home/user/scraper/output/2025-05-01T10-00-00/office.csv"
         (Text text)].
Proof.
  destruct (complete_run_writes_both_files Cli Demo.allGood ["-o"; "office"]
              eq_refl eq_refl eq_refl (fun _ => eq_refl) (fun _ => eq_refl)
              (fun _ => eq_refl) (fun _ => conj eq_refl eq_refl))
    as (text & before & _ & _ & _ & _ & _ & Hfiles).
  exists text. exact Hfiles.
Defined.

(** ** The pauses of a run *)

Lemma visitEvents_sleeps rev n i url v :
  List.filter isSlept (visitEvents rev n i url v)
  = if completes v && (Z.of_nat i <? Z.of_nat n - 1)%Z
    then [Slept (delayOf v.(random))]
    else [].
Proof.
  destruct (completes v) eqn:Hdone.
  - rewrite (visitEvents_completed rev n i url v Hdone), filter_app,
      visitEventsToClose_no_sleep.
    destruct (Z.of_nat i <? Z.of_nat n - 1)%Z; [|reflexivity].
    destruct rev; reflexivity.
  - unfold completes, yields, reaches in Hdone. unfold visitEvents, visitUrl.
    destruct v as [nc np gt rn cl rnd]; simpl in *.
    unfold Eff.bind, Eff.tryCatch, Eff.call, Eff.log, Eff.emit, Eff.events.
    destruct nc as [[]|e1]; [|destruct rev; reflexivity].
    destruct np as [[]|e2]; [|destruct rev; reflexivity].
    destruct gt as [[]|e3]; [|destruct rev; reflexivity].
    rewrite !extractProductInfo_result.
    rewrite <- (recordOf_extracts rn url) in Hdone.
    destruct (recordOf rn url) as [product|e5];
      [|destruct rev, rn; reflexivity].
    destruct cl as [[]|e4]; [discriminate Hdone|].
    destruct rev, rn; reflexivity.
Qed.

Lemma loopEvents_sleeps rev n urls visits : forall i,
  i + List.length urls = n ->
  (forall k, Double.isRandom (visits k).(random)) ->
  List.length (List.filter isSlept (loopEvents rev n i urls visits))
    <= List.length urls - 1
  /\ Forall (fun ev => exists delay, ev = Slept delay /\ (1000 <= delay <= 2999)%Z)
            (List.filter isSlept (loopEvents rev n i urls visits)).
Proof.
  induction urls as [|url rest IH]; intros i Hn Hrandom.
  - split; [simpl; lia|constructor].
  - simpl loopEvents. rewrite filter_app, length_app, visitEvents_sleeps.
    simpl List.length in Hn.
    destruct (IH (S i) ltac:(lia) Hrandom) as [Hcount Hrange].
    destruct (Z.ltb_spec (Z.of_nat i) (Z.of_nat n - 1)) as [Hlt|Hge].
    + destruct (completes (visits i)); simpl andb; cbv iota.
      * split.
        -- simpl List.length. destruct rest as [|next rest]; simpl in *; lia.
        -- apply Forall_app. split; [|exact Hrange].
           constructor; [|constructor]. eexists. split; [reflexivity|].
           apply DoubleFacts.delayOf_range. apply Hrandom.
      * split; [simpl List.length; lia|exact Hrange].
    + rewrite andb_false_r. split; [simpl List.length; lia|exact Hrange].
Qed.

(** X15.  A run over [n] URLs pauses at most [n - 1] times, whatever
    happens at the URLs, and every pause lasts from 1000 to 2999
    milliseconds: so the pauses of a run add up to less than
    [3 (n - 1)] seconds. *)
Theorem pauses_are_bounded {St : Type} rev w urls (s : St) :
  (forall i, Double.isRandom (w.(visit) i).(random)) ->
  let pauses := List.filter isSlept (Eff.events (scrapeProducts rev w urls s)) in
  List.length pauses <= List.length urls - 1
  /\ Forall (fun ev => exists delay, ev = Slept delay /\ (1000 <= delay <= 2999)%Z)
            pauses.
Proof.
  intros Hrandom pauses. unfold pauses.
  destruct (hasApiKey w) eqn:Hkey.
  - destruct (launch w) as [[]|e] eqn:Hlaunch.
    + rewrite (scrapeProducts_result rev w urls s Hkey Hlaunch).
      unfold Eff.events. cbn [snd].
      rewrite !filter_app, closingEvents_no_sleep, app_nil_r.
      change (List.filter isSlept
                [ConsoleLog (LStarting (List.length urls)); BrowserLaunched])
        with (@nil Event).
      cbn [app].
      apply (loopEvents_sleeps rev (List.length urls) urls (visit w) 0 eq_refl Hrandom).
    + unfold scrapeProducts. rewrite Hkey, Hlaunch. simpl.
      split; [lia|constructor].
  - rewrite (scrapeProducts_without_key rev w urls s Hkey). simpl.
    split; [lia|constructor].
Qed.

Lemma pauses_are_bounded_witness :
  List.length
    (List.filter isSlept
       (Eff.events (scrapeProducts Cli Demo.allGood [Demo.urlA; Demo.urlB] tt)))
  <= 1.
Proof.
  exact (proj1 (pauses_are_bounded Cli Demo.allGood [Demo.urlA; Demo.urlB] tt
                  (fun _ => half_isRandom))).
Defined.

(** ** A run in which every extraction fails *)

Lemma expectedRecords_all_failed urls visits : forall i,
  (forall k, exists e, (visits k).(run) = Throw e) ->
  Forall (fun p => p.(title) = "Extraction Failed" /\ p.(price) = "Unknown")
         (expectedRecords i urls visits).
Proof.
  induction urls as [|url rest IH]; intros i Hfail; [constructor|].
  simpl. apply Forall_app. split; [|apply IH; exact Hfail].
  unfold recordsOfVisit. destruct (reaches (visits i)); [|constructor].
  destruct (Hfail i) as [e He]. rewrite He. unfold recordOf.
  destruct (Spec.messageOfThrown e); [|constructor].
  constructor; [split; reflexivity|constructor].
Qed.

Lemma events_bind_log {St A : Type} line (k : unit -> Eff St A) (s : St) :
  Eff.events (Eff.bind (Eff.log line) k s) = ConsoleLog line :: Eff.events (k tt s).
Proof.
  unfold Eff.bind, Eff.log, Eff.emit, Eff.events.
  destruct (k tt s) as [[c s'] t]. reflexivity.
Qed.

(** X16.  With the credential present and a browser that launches and
    closes and whose calls throw nothing but instances of [Error], when
    every extraction call throws, every record [scrapeProducts] returns
    is a placeholder, and the summary of the later revision for those
    records counts no successful record and reports no price
    statistics. *)
Theorem summary_when_every_extraction_fails {St : Type} w urls (s : St) :
  hasApiKey w = true ->
  w.(launch) = Normal tt ->
  w.(closeBrowser) = Normal tt ->
  (forall i, browserErrors (w.(visit) i) = true) ->
  (forall i, exists e, (w.(visit) i).(run) = Throw e) ->
  exists products,
    Eff.completion (scrapeProducts Cli w urls s) = Normal products
    /\ List.length products <= List.length urls
    /\ Forall (fun p => p.(title) = "Extraction Failed" /\ p.(price) = "Unknown")
              products
    /\ In (ConsoleLog (LSuccessful 0 (List.length products)))
          (Eff.events (displayProducts Cli products s))
    /\ List.filter isStatisticsLine (Eff.events (displayProducts Cli products s)) = [].
Proof.
  intros Hkey Hlaunch Hclose _ Hfail.
  exists (expectedRecords 0 urls (visit w)).
  pose proof (expectedRecords_all_failed urls (visit w) 0 Hfail) as Hall.
  set (products := expectedRecords 0 urls (visit w)) in *.
  assert (Hcount : successfulCount products = 0).
  { unfold successfulCount. clear -Hall.
    induction Hall as [|p rest [Hp _] _ IH]; [reflexivity|].
    simpl. unfold Price.isSuccessful at 1. rewrite Hp. exact IH. }
  split; [|split; [|split; [|split]]].
  - rewrite (scrapeProducts_result Cli w urls s Hkey Hlaunch), Hclose. reflexivity.
  - apply expectedRecords_length.
  - exact Hall.
  - unfold displayProducts.
    fold (successfulCount products). rewrite Hcount.
    rewrite !events_bind_log. right. right. left. reflexivity.
  - rewrite displayProducts_statistics, Hcount. reflexivity.
Qed.

Lemma summary_when_every_extraction_fails_witness :
  exists products,
    Eff.completion
      (scrapeProducts Cli DemoMore.allExtractionsFail [Demo.urlA; Demo.urlB] tt)
    = Normal products
    /\ In (ConsoleLog (LSuccessful 0 (List.length products)))
          (Eff.events (displayProducts Cli products tt)).
Proof.
  destruct (summary_when_every_extraction_fails
              DemoMore.allExtractionsFail [Demo.urlA; Demo.urlB] tt
              eq_refl eq_refl eq_refl (fun _ => eq_refl)
              (fun _ => ex_intro _ Demo.schemaError eq_refl))
    as (products & Hrun & _ & _ & Hline & _).
  exists products. split; [exact Hrun|exact Hline].
Defined.
